(** * WhatsApp chat analyser: the transcript parser and the aggregation helpers

    A shallow embedding of [preprocessor.py] and [helper.py].

    Conventions of the model.
    - A Python [str] is a Rocq [string]; a character is a code point below 256.
      On that range [\s] and [str.isspace] are the code points 9-13, 28-32,
      133 and 160, and [\d] is ['0'..'9'].
    - A pandas column is a list, a DataFrame a list of typed rows together
      with the columns the helpers add to it.
    - A Python exception is the [Raise] case of [result]. *)

From Stdlib Require Import String Ascii List ZArith Lia Bool Arith.
From Stdlib Require Import Sorting.Sorted Sorting.Permutation.
Import ListNotations.

Open Scope list_scope.
Open Scope string_scope.
Open Scope nat_scope.

(* ================================================================= *)
(** ** Characters and strings *)

Module Char.

Definition code (c : ascii) : nat := nat_of_ascii c.

(** [str.isspace] on one character, which is also the class [\s]. *)
Definition isspace (c : ascii) : bool :=
  let n := code c in
  ((9 <=? n) && (n <=? 13)) || ((28 <=? n) && (n <=? 32))
  || (n =? 133) || (n =? 160).

(** The class [\d]. *)
Definition isdigit (c : ascii) : bool :=
  let n := code c in (48 <=? n) && (n <=? 57).

(** The class [[\w\W]]: every character. *)
Definition any (_ : ascii) : bool := true.

(** Membership in the character set given by a string, as in
    [s.strip(chars)]. *)
Fixpoint mem (chars : string) (c : ascii) : bool :=
  match chars with
  | EmptyString => false
  | String d chars' => Ascii.eqb c d || mem chars' c
  end.

End Char.

Module Str.

Fixpoint take (n : nat) (s : string) : string :=
  match n, s with
  | S k, String c s' => String c (take k s')
  | _, _ => ""
  end.

Fixpoint drop (n : nat) (s : string) : string :=
  match n, s with
  | S k, String _ s' => drop k s'
  | _, _ => s
  end.

Fixpoint all (p : ascii -> bool) (s : string) : bool :=
  match s with
  | EmptyString => true
  | String c s' => p c && all p s'
  end.

Definition first_ok (p : ascii -> bool) (s : string) : bool :=
  match s with
  | EmptyString => false
  | String c _ => p c
  end.

Fixpoint last_ok (p : ascii -> bool) (s : string) : bool :=
  match s with
  | EmptyString => false
  | String c EmptyString => p c
  | String _ s' => last_ok p s'
  end.

Fixpoint lstrip (p : ascii -> bool) (s : string) : string :=
  match s with
  | EmptyString => ""
  | String c s' => if p c then lstrip p s' else s
  end.

Fixpoint rstrip (p : ascii -> bool) (s : string) : string :=
  match s with
  | EmptyString => ""
  | String c s' =>
      match rstrip p s' with
      | EmptyString => if p c then "" else String c ""
      | t => String c t
      end
  end.

(** [s.strip()] and [s.strip(chars)]. *)
Definition strip_by (p : ascii -> bool) (s : string) : string :=
  rstrip p (lstrip p s).

Definition strip (s : string) : string := strip_by Char.isspace s.

Definition strip_chars (chars s : string) : string :=
  strip_by (Char.mem chars) s.

(** [len(s.split())]: the number of maximal runs of non-space characters.
    [inword] tells whether the previous character belonged to a word. *)
Fixpoint count_words (inword : bool) (s : string) : nat :=
  match s with
  | EmptyString => 0
  | String c s' =>
      if Char.isspace c then count_words false s'
      else (if inword then 0 else 1) + count_words true s'
  end.

Definition split_len (s : string) : nat := count_words false s.

End Str.

(* ================================================================= *)
(** ** Exceptions *)

Inductive exn : Type :=
| ValueError (msg : string)
| AttributeError (msg : string)
| IndexError.

Inductive result (A : Type) : Type :=
| OK (a : A)
| Raise (e : exn).

Arguments OK {A} a.
Arguments Raise {A} e.

Definition bind {A B : Type} (m : result A) (k : A -> result B) : result B :=
  match m with
  | OK a => k a
  | Raise e => Raise e
  end.

Notation "x <- m ;; k" := (bind m (fun x => k))
  (at level 61, m at next level, right associativity).

(** A comprehension whose body can raise: the first failure aborts. *)
Fixpoint mapM {A B : Type} (f : A -> result B) (l : list A) : result (list B) :=
  match l with
  | [] => OK []
  | a :: l' => b <- f a ;; bs <- mapM f l' ;; OK (b :: bs)
  end.

(* ================================================================= *)
(** ** The regular expressions of the program

    Both patterns of [preprocess], and the two patterns handed to
    [str.contains], are sequences of quantified character classes.  The
    matcher follows the backtracking order of Python's [re]: a greedy
    quantifier tries the longest repetition first, a lazy one the shortest. *)

Module Re.

Inductive greed : Type := Greedy | Lazy.

Record atom : Type := Atom {
  a_class : ascii -> bool;
  a_min : nat;
  a_max : option nat;
  a_greed : greed;
  a_group : bool
}.

Definition regex : Type := list atom.

Definition lit (c : ascii) : atom := Atom (Ascii.eqb c) 1 (Some 1) Greedy false.
Definition cls (p : ascii -> bool) : atom := Atom p 1 (Some 1) Greedy false.
Definition rep (p : ascii -> bool) (lo hi : nat) : atom :=
  Atom p lo (Some hi) Greedy false.
Definition opt (c : ascii) : atom := Atom (Ascii.eqb c) 0 (Some 1) Greedy false.

Fixpoint lits (s : string) : regex :=
  match s with
  | EmptyString => []
  | String c s' => lit c :: lits s'
  end.

(** The longest run of characters of the class at the head of [s], within
    the quantifier's upper bound. *)
Fixpoint run (p : ascii -> bool) (limit : option nat) (s : string) : nat :=
  match s with
  | EmptyString => 0
  | String c s' =>
      if p c then
        match limit with
        | Some 0 => 0
        | Some (S k) => S (run p (Some k) s')
        | None => S (run p None s')
        end
      else 0
  end.

(** The repetition counts an atom tries, in the order it tries them. *)
Definition counts (a : atom) (s : string) : list nat :=
  let m := run (a_class a) (a_max a) s in
  if m <? a_min a then []
  else
    let up := seq (a_min a) (S m - a_min a) in
    match a_greed a with
    | Greedy => rev up
    | Lazy => up
    end.

Fixpoint first_some {A B : Type} (f : A -> option B) (l : list A) : option B :=
  match l with
  | [] => None
  | x :: l' =>
      match f x with
      | Some b => Some b
      | None => first_some f l'
      end
  end.

(** [pattern.match(s)]: the matched text, the captured groups and the
    rest of the string. *)
Fixpoint match_here (r : regex) (s : string)
  : option (string * list string * string) :=
  match r with
  | [] => Some ("", [], s)
  | a :: r' =>
      first_some
        (fun n =>
           match match_here r' (Str.drop n s) with
           | Some (txt, gs, rest) =>
               Some (Str.take n s ++ txt,
                     (if a_group a then Str.take n s :: gs else gs),
                     rest)
           | None => None
           end)
        (counts a s)
  end.

(** One match found while scanning: the text between the end of the
    previous match and this one, the matched text, its groups. *)
Record found : Type := Found {
  m_pre : string;
  m_text : string;
  m_groups : list string
}.

Definition push (c : ascii) (x : list found * string) : list found * string :=
  match x with
  | ([], tl) => ([], String c tl)
  | (m :: ms, tl) =>
      (Found (String c (m_pre m)) (m_text m) (m_groups m) :: ms, tl)
  end.

Definition dec (limit : option nat) : option nat :=
  match limit with
  | Some n => Some (pred n)
  | None => None
  end.

(** The successive non-overlapping matches, leftmost first, that
    [re.findall] and [re.split] walk through, and the text after the last
    one.  [limit] is the number of matches still allowed ([maxsplit]);
    [skip] counts the characters of the current match still to pass.
    Both patterns scanned by the program match non-empty text only; an
    empty match is passed over. *)
Fixpoint scan (r : regex) (limit : option nat) (skip : nat) (s : string)
  : list found * string :=
  match skip with
  | S k =>
      match s with
      | String _ s' => scan r limit k s'
      | EmptyString => ([], "")
      end
  | O =>
      match s with
      | EmptyString => ([], "")
      | String c s' =>
          match limit with
          | Some O => ([], s)
          | _ =>
              match match_here r s with
              | Some (String c0 t, gs, _) =>
                  let (ms, tl) := scan r (dec limit) (String.length t) s' in
                  (Found "" (String c0 t) gs :: ms, tl)
              | _ => push c (scan r limit 0 s')
              end
          end
      end
  end.

(** [re.findall(pattern, s)] for a pattern without groups. *)
Definition findall (r : regex) (s : string) : list string :=
  map m_text (fst (scan r None 0 s)).

(** [re.split(pattern, s, maxsplit)]: the pieces between the matches,
    each followed by the groups of the match that ends it. *)
Definition split (r : regex) (maxsplit : nat) (s : string) : list string :=
  let (ms, tl) :=
    scan r (match maxsplit with O => None | n => Some n end) 0 s in
  (flat_map (fun m => m_pre m :: m_groups m) ms ++ [tl])%list.

(** [re.search(pattern, s) is not None]. *)
Fixpoint search (r : regex) (s : string) : bool :=
  match match_here r s with
  | Some _ => true
  | None =>
      match s with
      | EmptyString => false
      | String _ s' => search r s'
      end
  end.

End Re.

(* ================================================================= *)
(** ** Timestamps *)

Module Calendar.

Local Open Scope Z_scope.

(** A value of the [date] column: a calendar date and a time of day. *)
Record datetime : Type := DateTime {
  dt_year : Z;
  dt_month : Z;
  dt_day : Z;
  dt_hour : Z;
  dt_minute : Z
}.

Definition is_leap (y : Z) : bool :=
  ((y mod 4 =? 0) && negb (y mod 100 =? 0)) || (y mod 400 =? 0).

Definition days_in_month (y m : Z) : Z :=
  match m with
  | 1 | 3 | 5 | 7 | 8 | 10 | 12 => 31
  | 4 | 6 | 9 | 11 => 30
  | 2 => if is_leap y then 29 else 28
  | _ => 0
  end.

(** [Timestamp.dayofweek]: Monday is 0, Sunday is 6. *)
Definition dayofweek (y m d : Z) : Z :=
  let t := nth (Z.to_nat (m - 1)) [0; 3; 2; 5; 0; 3; 5; 1; 4; 6; 2; 4] 0 in
  let y' := if m <? 3 then y - 1 else y in
  (y' + y' / 4 - y' / 100 + y' / 400 + t + d + 6) mod 7.

Definition day_order : list string :=
  ["Monday"; "Tuesday"; "Wednesday"; "Thursday"; "Friday"; "Saturday";
   "Sunday"].

Definition month_names : list string :=
  ["January"; "February"; "March"; "April"; "May"; "June"; "July";
   "August"; "September"; "October"; "November"; "December"].

(** [dt.day_name()] and [dt.month_name()]. *)
Definition day_name (t : datetime) : string :=
  nth (Z.to_nat (dayofweek (dt_year t) (dt_month t) (dt_day t))) day_order "".

Definition month_name (t : datetime) : string :=
  nth (Z.to_nat (dt_month t - 1)) month_names "".

(** The values a [datetime64] column can hold. *)
Definition valid (t : datetime) : bool :=
  (1677 <=? dt_year t) && (dt_year t <=? 2262)
  && (1 <=? dt_month t) && (dt_month t <=? 12)
  && (1 <=? dt_day t) && (dt_day t <=? days_in_month (dt_year t) (dt_month t))
  && (0 <=? dt_hour t) && (dt_hour t <=? 23)
  && (0 <=? dt_minute t) && (dt_minute t <=? 59).

(** [datetime.date] values and calendar months compare field by field. *)
Definition date_compare (a b : Z * Z * Z) : comparison :=
  let '(y1, m1, d1) := a in
  let '(y2, m2, d2) := b in
  match y1 ?= y2 with
  | Eq => match m1 ?= m2 with Eq => d1 ?= d2 | c => c end
  | c => c
  end.

Definition month_compare (a b : Z * Z) : comparison :=
  let '(y1, m1) := a in
  let '(y2, m2) := b in
  match y1 ?= y2 with
  | Eq => m1 ?= m2
  | c => c
  end.

Definition digit (d : Z) : ascii := ascii_of_nat (48 + Z.to_nat d).

(** [strftime('%Y-%m')] for a four-digit year. *)
Definition strftime_Ym (y m : Z) : string :=
  String (digit (y / 1000 mod 10))
    (String (digit (y / 100 mod 10))
       (String (digit (y / 10 mod 10))
          (String (digit (y mod 10))
             (String "-"
                (String (digit (m / 10 mod 10))
                   (String (digit (m mod 10)) "")))))).

End Calendar.

(** ** [pd.to_datetime(column, format=...)]

    The format is turned into a regular expression, one alternation per
    directive; the first path of the backtracking search is the match, it
    has to consume the whole string, and the date has to exist. *)

Module Strptime.

Import Calendar.
Local Open Scope Z_scope.

Definition parser (A : Type) : Type := string -> list (A * string).

Definition ret {A : Type} (a : A) : parser A := fun s => [(a, s)].

Definition pbind {A B : Type} (p : parser A) (k : A -> parser B) : parser B :=
  fun s => flat_map (fun x => k (fst x) (snd x)) (p s).

Definition alt {A : Type} (p q : parser A) : parser A :=
  fun s => (p s ++ q s)%list.

Notation "x <~ p ;; k" := (pbind p (fun x => k))
  (at level 61, p at next level, right associativity).

Definition chr (c : ascii) : parser unit :=
  fun s =>
    match s with
    | String d s' => if Ascii.eqb d c then [(tt, s')] else []
    | EmptyString => []
    end.

(** One digit with a value between [lo] and [hi]. *)
Definition digit_in (lo hi : Z) : parser Z :=
  fun s =>
    match s with
    | String c s' =>
        let v := Z.of_nat (Char.code c) - 48 in
        if Char.isdigit c && (lo <=? v) && (v <=? hi) then [(v, s')] else []
    | EmptyString => []
    end.

(** [1[0-2]|0[1-9]|[1-9]] *)
Definition dir_m : parser Z :=
  alt (_ <~ chr "1" ;; d <~ digit_in 0 2 ;; ret (10 + d))
    (alt (_ <~ chr "0" ;; d <~ digit_in 1 9 ;; ret d)
       (digit_in 1 9)).

(** [3[01]|[12]\d|0[1-9]|[1-9]| [1-9]] *)
Definition dir_d : parser Z :=
  alt (_ <~ chr "3" ;; d <~ digit_in 0 1 ;; ret (30 + d))
    (alt (a <~ digit_in 1 2 ;; d <~ digit_in 0 9 ;; ret (10 * a + d))
       (alt (_ <~ chr "0" ;; d <~ digit_in 1 9 ;; ret d)
          (alt (digit_in 1 9)
             (_ <~ chr " " ;; d <~ digit_in 1 9 ;; ret d)))).

(** [\d\d], and the century rule of [%y]: 00-68 is 2000-2068, 69-99 is
    1969-1999. *)
Definition dir_y : parser Z :=
  a <~ digit_in 0 9 ;; d <~ digit_in 0 9 ;;
  let y := 10 * a + d in
  ret (if y <=? 68 then 2000 + y else 1900 + y).

(** [2[0-3]|[0-1]\d|\d] *)
Definition dir_H : parser Z :=
  alt (_ <~ chr "2" ;; d <~ digit_in 0 3 ;; ret (20 + d))
    (alt (a <~ digit_in 0 1 ;; d <~ digit_in 0 9 ;; ret (10 * a + d))
       (digit_in 0 9)).

(** [[0-5]\d|\d] *)
Definition dir_M : parser Z :=
  alt (a <~ digit_in 0 5 ;; d <~ digit_in 0 9 ;; ret (10 * a + d))
    (digit_in 0 9).

(** [\s*], longest first. *)
Fixpoint spaces0 (s : string) : list (unit * string) :=
  match s with
  | String c s' =>
      if Char.isspace c then (spaces0 s' ++ [(tt, s)])%list else [(tt, s)]
  | EmptyString => [(tt, "")]
  end.

(** [\s+], which a blank of the format stands for. *)
Definition spaces1 : parser unit :=
  fun s =>
    match s with
    | String c s' => if Char.isspace c then spaces0 s' else []
    | EmptyString => []
    end.

Inductive directive : Type :=
| D_m | D_d | D_y | D_H | D_M
| D_lit (c : ascii)
| D_blank.

Definition format : Type := list directive.

(** ["%m/%d/%y, %H:%M"] *)
Definition month_first : format :=
  [D_m; D_lit "/"; D_d; D_lit "/"; D_y; D_lit ","; D_blank; D_H; D_lit ":";
   D_M].

(** ["%d/%m/%y, %H:%M"] *)
Definition day_first : format :=
  [D_d; D_lit "/"; D_m; D_lit "/"; D_y; D_lit ","; D_blank; D_H; D_lit ":";
   D_M].

Definition step (d : directive) (t : datetime) : parser datetime :=
  match d with
  | D_m => v <~ dir_m ;;
           ret (DateTime (dt_year t) v (dt_day t) (dt_hour t) (dt_minute t))
  | D_d => v <~ dir_d ;;
           ret (DateTime (dt_year t) (dt_month t) v (dt_hour t) (dt_minute t))
  | D_y => v <~ dir_y ;;
           ret (DateTime v (dt_month t) (dt_day t) (dt_hour t) (dt_minute t))
  | D_H => v <~ dir_H ;;
           ret (DateTime (dt_year t) (dt_month t) (dt_day t) v (dt_minute t))
  | D_M => v <~ dir_M ;;
           ret (DateTime (dt_year t) (dt_month t) (dt_day t) (dt_hour t) v)
  | D_lit c => _ <~ chr c ;; ret t
  | D_blank => _ <~ spaces1 ;; ret t
  end.

Fixpoint parse (f : format) (t : datetime) : parser datetime :=
  match f with
  | [] => ret t
  | d :: f' => t' <~ step d t ;; parse f' t'
  end.

(** The fields a format leaves out. *)
Definition epoch : datetime := DateTime 1900 1 1 0 0.

Definition strptime (f : format) (s : string) : result datetime :=
  match parse f epoch s with
  | [] => Raise (ValueError "time data doesn't match format")
  | (t, EmptyString) :: _ =>
      if dt_day t <=? days_in_month (dt_year t) (dt_month t) then OK t
      else Raise (ValueError "day is out of range for month")
  | (_, String _ _) :: _ => Raise (ValueError "unconverted data remains")
  end.

Definition to_datetime (f : format) (column : list string)
  : result (list datetime) :=
  mapM (strptime f) column.

End Strptime.

(* ================================================================= *)
(** ** The transcript table *)

Module Frame.

Import Calendar.

(** One record of the table [preprocess] returns, with its columns. *)
Record row : Type := Row {
  date : datetime;
  user : string;
  message_content : string;
  is_media : bool;
  year : Z;
  month : string;
  day : Z;
  hour : Z;
  minute : Z;
  day_of_week : string
}.

(** The table: its records, and the columns a helper has added to it
    since ([month_year], [day_name]), in the order they were added. *)
Record DataFrame : Type := Table {
  rows : list row;
  added : list (string * list string)
}.

(** [df[name] = column] on the added columns: an existing column is
    replaced in place, a new one goes last. *)
Fixpoint assign (name : string) (column : list string)
  (cols : list (string * list string)) : list (string * list string) :=
  match cols with
  | [] => [(name, column)]
  | (n, c) :: cols' =>
      if String.eqb n name then (n, column) :: cols'
      else (n, c) :: assign name column cols'
  end.

Fixpoint column (name : string) (cols : list (string * list string))
  : option (list string) :=
  match cols with
  | [] => None
  | (n, c) :: cols' => if String.eqb n name then Some c else column name cols'
  end.

(** Boolean indexing, [values[mask]]. *)
Fixpoint select {A : Type} (mask : list bool) (values : list A) : list A :=
  match mask, values with
  | b :: mask', v :: values' =>
      if b then v :: select mask' values' else select mask' values'
  | _, _ => []
  end.

(** [df[df['user'] == selected_user]]: a new table, the caller's one is
    left as it is. *)
Definition filter_user (selected_user : string) (df : DataFrame) : DataFrame :=
  let mask := map (fun r => String.eqb (user r) selected_user) (rows df) in
  Table (select mask (rows df))
    (map (fun nc => (fst nc, select mask (snd nc))) (added df)).

(** [len] of a boolean selection, [sum] of a boolean column. *)
Definition count {A : Type} (p : A -> bool) (l : list A) : nat :=
  List.length (filter p l).

Section GroupBy.

Variable K : Type.
Variable cmp : K -> K -> comparison.

Fixpoint bump (k : K) (groups : list (K * nat)) : list (K * nat) :=
  match groups with
  | [] => [(k, 1)]
  | (k', n) :: groups' =>
      match cmp k k' with
      | Eq => (k', S n) :: groups'
      | Lt => (k, 1) :: groups
      | Gt => (k', n) :: bump k groups'
      end
  end.

(** [groupby(keys).size()]: one row per distinct key, keys ascending,
    with the number of records of the group. *)
Definition groupby_size (keys : list K) : list (K * nat) :=
  fold_left (fun groups k => bump k groups) keys [].

(** [unique()]: the distinct values in order of first appearance. *)
Fixpoint unique_from (seen : list K) (l : list K) : list K :=
  match l with
  | [] => []
  | k :: l' =>
      if existsb (fun k' => match cmp k k' with Eq => true | _ => false end) seen
      then unique_from seen l'
      else k :: unique_from (k :: seen) l'
  end.

Definition unique (l : list K) : list K := unique_from [] l.

(** [list.sort()]. *)
Fixpoint insert_sorted (k : K) (l : list K) : list K :=
  match l with
  | [] => [k]
  | k' :: l' =>
      match cmp k k' with
      | Gt => k' :: insert_sorted k l'
      | _ => k :: l
      end
  end.

Definition sort (l : list K) : list K :=
  fold_right insert_sorted [] l.

End GroupBy.

Arguments bump {K} cmp k groups.
Arguments groupby_size {K} cmp keys.
Arguments unique {K} cmp l.
Arguments unique_from {K} cmp seen l.
Arguments insert_sorted {K} cmp k l.
Arguments sort {K} cmp l.

(** [groupby] on a [pd.Categorical] column: one row per category, in the
    order of the categories, whether or not a record falls in it. *)
Definition groupby_categorical (categories : list string) (values : list string)
  : list (string * nat) :=
  map (fun c => (c, count (String.eqb c) values)) categories.

(** A cell of a pivot table. *)
Inductive cell : Type :=
| Num (n : nat)
| NaN.

Record grid : Type := Grid {
  g_index : list string;
  g_columns : list Z;
  g_cells : list (list cell)
}.

(** [pivot_table(index=..., columns=..., aggfunc="count")]: the row and
    column labels are the values present, ascending; a pair of labels no
    record has gives [NaN]. *)
Definition pivot_count (keys : list (string * Z)) : grid :=
  let index := map fst (groupby_size String.compare (map fst keys)) in
  let columns := map fst (groupby_size Z.compare (map snd keys)) in
  Grid index columns
    (map (fun d =>
            map (fun h =>
                   match count (fun k => String.eqb (fst k) d && Z.eqb (snd k) h) keys with
                   | O => NaN
                   | n => Num n
                   end) columns) index).

Definition fillna (v : nat) (g : grid) : grid :=
  Grid (g_index g) (g_columns g)
    (map (map (fun c => match c with NaN => Num v | _ => c end)) (g_cells g)).

Fixpoint loc (label : string) (index : list string) (cells : list (list cell))
  : option (list cell) :=
  match index, cells with
  | l :: index', r :: cells' =>
      if String.eqb l label then Some r else loc label index' cells'
  | _, _ => None
  end.

(** [reindex(labels)]: the rows in the order of [labels]; a label the
    table does not have gives a row of [NaN]. *)
Definition reindex (labels : list string) (g : grid) : grid :=
  Grid labels (g_columns g)
    (map (fun l =>
            match loc l (g_index g) (g_cells g) with
            | Some r => r
            | None => map (fun _ => NaN) (g_columns g)
            end) labels).

End Frame.

(* ================================================================= *)
(** ** preprocessor.py *)

Module Preprocessor.

Import Calendar Frame.

(** [\d{1,2}/\d{1,2}/\d{2,4},\s\d{1,2}:\d{2}\s-\s] *)
Definition pattern : Re.regex :=
  [Re.rep Char.isdigit 1 2; Re.lit "/"; Re.rep Char.isdigit 1 2; Re.lit "/";
   Re.rep Char.isdigit 2 4; Re.lit ","; Re.cls Char.isspace;
   Re.rep Char.isdigit 1 2; Re.lit ":"; Re.rep Char.isdigit 2 2;
   Re.cls Char.isspace; Re.lit "-"; Re.cls Char.isspace].

(** [([\w\W]+?):\s] *)
Definition sender_pattern : Re.regex :=
  [Re.Atom Char.any 1 None Re.Lazy true; Re.lit ":"; Re.cls Char.isspace].

(** [<Media omitted>] *)
Definition media_pattern : Re.regex := Re.lits "<Media omitted>".

(** The [.str] accessor of a column the DataFrame constructor has built
    from a Python list.  The column of an empty list has the dtype
    [float64], which has no string accessor; a list of strings gives an
    [object] column. *)
Definition str_accessor (column : list string) : result (list string) :=
  match column with
  | [] => Raise (AttributeError "Can only use .str accessor with string values!")
  | _ => OK column
  end.

(** The columns [raw_message] and [date] before the dates are parsed:
    [re.split(pattern, data)[1:]] stripped, and [re.findall(pattern, data)]
    stripped of [" - "].  The constructor refuses columns of different
    lengths, and [.str.strip()] fails on the column of an empty list. *)
Definition tokenize (data : string) : result (list (string * string)) :=
  let messages := tl (Re.split pattern 0 data) in
  let dates := map (Str.strip_chars " - ") (Re.findall pattern data) in
  if List.length messages =? List.length dates
  then raw <- str_accessor messages ;; OK (combine (map Str.strip raw) dates)
  else Raise (ValueError "All arrays must be of the same length").

(** The nested [try] of the two date formats. *)
Definition parse_dates (dates : list string) : result (list datetime) :=
  match Strptime.to_datetime Strptime.month_first dates with
  | OK ds => OK ds
  | Raise (ValueError _) =>
      match Strptime.to_datetime Strptime.day_first dates with
      | OK ds => OK ds
      | Raise (ValueError _) =>
          Raise (ValueError
                   "Date format not recognized. Please ensure the chat export is in a standard format.")
      | Raise e => Raise e
      end
  | Raise e => Raise e
  end.

(** The body of the loop over [raw_message]: the sender and the content. *)
Definition classify (message : string) : result (string * string) :=
  let entry := Re.split sender_pattern 1 message in
  match entry with
  | [] => Raise IndexError
  | e0 :: [] => OK ("group_notification", e0)
  | _ :: e1 :: [] => Raise IndexError
  | _ :: e1 :: e2 :: _ => OK (e1, e2)
  end.

Definition build_row (t : datetime) (um : string * string) : row :=
  Row t (fst um) (snd um)
    (Re.search media_pattern (snd um))
    (dt_year t) (month_name t) (dt_day t) (dt_hour t) (dt_minute t)
    (day_name t).

Definition preprocess (data : string) : result DataFrame :=
  toks <- tokenize data ;;
  ds <- parse_dates (map snd toks) ;;
  ums <- mapM classify (map fst toks) ;;
  OK (Table (map (fun x => build_row (fst x) (snd x)) (combine ds ums)) []).

End Preprocessor.

(* ================================================================= *)
(** ** helper.py *)

Module Helper.

Import Calendar Frame.

(** [http[s]?://|www\.], one pattern per alternative. *)
Definition link_http : Re.regex :=
  (Re.lits "http" ++ [Re.opt "s"] ++ Re.lits "://")%list.
Definition link_www : Re.regex := Re.lits "www.".

Definition has_link (s : string) : bool :=
  Re.search link_http s || Re.search link_www s.

Definition Overall : string := "Overall".

(** The test [selected_user != 'Overall'] every helper starts with. *)
Definition specific (selected_user : string) : bool :=
  negb (String.eqb selected_user Overall).

Definition fetch_stats (selected_user : string) (df : DataFrame)
  : nat * nat * nat * nat :=
  let df := if specific selected_user then filter_user selected_user df else df in
  let num_messages := List.length (rows df) in
  let words := list_sum (map (fun r => Str.split_len (message_content r)) (rows df)) in
  let num_media_messages :=
    count (fun r => String.eqb (message_content r) "<Media omitted>") (rows df) in
  let num_links := count (fun r => has_link (message_content r)) (rows df) in
  (num_messages, words, num_media_messages, num_links).

Fixpoint remove_first (x : string) (l : list string) : list string :=
  match l with
  | [] => []
  | y :: l' => if String.eqb y x then l' else y :: remove_first x l'
  end.

Definition get_user_list (df : DataFrame) : list string :=
  let user_list := unique String.compare (map user (rows df)) in
  let user_list :=
    if existsb (String.eqb "group_notification") user_list
    then remove_first "group_notification" user_list else user_list in
  Overall :: sort String.compare user_list.

Section Emoji.

(** The table [emoji.EMOJI_DATA] of the [emoji] package, and the order
    [sort_values(by='Count', ascending=False)] leaves.  Characters are
    code points below 256: of the table only the entries in that range,
    such as the copyright sign, are read. *)
Variable EMOJI_DATA : ascii -> bool.
Variable sort_values : list (ascii * nat) -> list (ascii * nat).

Fixpoint extract_emojis (message : string) : list ascii :=
  match message with
  | EmptyString => []
  | String c s => if EMOJI_DATA c then c :: extract_emojis s else extract_emojis s
  end.

(** [Counter(emojis)]: the counts in order of first appearance. *)
Fixpoint tally (c : ascii) (counts : list (ascii * nat)) : list (ascii * nat) :=
  match counts with
  | [] => [(c, 1)]
  | (d, n) :: counts' =>
      if Ascii.eqb d c then (d, S n) :: counts' else (d, n) :: tally c counts'
  end.

Definition Counter (l : list ascii) : list (ascii * nat) :=
  fold_left (fun counts c => tally c counts) l [].

Definition emoji_analysis (df : DataFrame) (selected_user : string)
  : nat * list (ascii * nat) :=
  let df := if specific selected_user then filter_user selected_user df else df in
  let emojis := flat_map (fun r => extract_emojis (message_content r)) (rows df) in
  let emoji_counts := Counter emojis in
  (list_sum (map snd emoji_counts), sort_values emoji_counts).

End Emoji.

(** The functions below assign columns to [df].  When a sender is
    selected [df] is the filtered copy and the assignment stays local;
    for ["Overall"] it is the caller's table.  Each function returns its
    summary table and the caller's table as the call leaves it. *)

Definition plot_monthly_timeline (selected_user : string) (df : DataFrame)
  : list (string * nat) * DataFrame :=
  let work := if specific selected_user then filter_user selected_user df else df in
  let month_year :=
    map (fun r => strftime_Ym (dt_year (date r)) (dt_month (date r))) (rows work) in
  let work := Table (rows work) (assign "month_year" month_year (added work)) in
  let monthly_counts :=
    match column "month_year" (added work) with
    | Some keys => groupby_size String.compare keys
    | None => []
    end in
  (monthly_counts, if specific selected_user then df else work).

Definition plot_daily_timeline (selected_user : string) (df : DataFrame)
  : list (Z * Z * Z * nat) :=
  let df := if specific selected_user then filter_user selected_user df else df in
  groupby_size date_compare
    (map (fun r => (dt_year (date r), dt_month (date r), dt_day (date r))) (rows df)).

Definition plot_interactive_activity_analysis (df : DataFrame) (selected_user : string)
  : list (string * nat) * list (Z * nat) * DataFrame :=
  let work := if specific selected_user then filter_user selected_user df else df in
  let day_name_col := map (fun r => day_name (date r)) (rows work) in
  let work := Table (rows work) (assign "day_name" day_name_col (added work)) in
  let weekly_activity :=
    match column "day_name" (added work) with
    | Some values => groupby_categorical day_order values
    | None => []
    end in
  let hourly_activity :=
    groupby_size Z.compare (map (fun r => dt_hour (date r)) (rows work)) in
  (weekly_activity, hourly_activity, if specific selected_user then df else work).

Definition set_day_hour (r : row) : row :=
  Row (date r) (user r) (message_content r) (is_media r) (year r) (month r)
    (day r) (dt_hour (date r)) (minute r) (day_name (date r)).

Definition plot_activity_heatmap_matplotlib (df : DataFrame) : grid * DataFrame :=
  let df := Table (map set_day_hour (rows df)) (added df) in
  let heatmap_data :=
    fillna 0 (pivot_count (map (fun r => (day_of_week r, hour r)) (rows df))) in
  let heatmap_data := reindex day_order heatmap_data in
  (heatmap_data, df).

Section Busy.

(** The order [value_counts()] leaves its rows in: by count, the
    largest first. *)
Variable sort_counts : list (string * nat) -> list (string * nat).

Fixpoint tally_user (u : string) (counts : list (string * nat))
  : list (string * nat) :=
  match counts with
  | [] => [(u, 1)]
  | (v, n) :: counts' =>
      if String.eqb v u then (v, S n) :: counts'
      else (v, n) :: tally_user u counts'
  end.

(** [column.value_counts()] *)
Definition value_counts (column : list string) : list (string * nat) :=
  sort_counts (fold_left (fun counts u => tally_user u counts) column []).

(** The table of the chart, [df['user'].value_counts().head(5)]. *)
Definition plot_most_busy_users_interactive (df : DataFrame)
  : list (string * nat) :=
  firstn 5 (value_counts (map user (rows df))).

End Busy.

End Helper.

(* ================================================================= *)
(** ** Vocabulary of the statements *)

Module Spec.

Import Calendar Frame.

(** The pattern matches a non-empty text at the head of [s]. *)
Definition matches_at (r : Re.regex) (s : string) : bool :=
  match Re.match_here r s with
  | Some (String _ _, _, _) => true
  | _ => false
  end.

(** [Chunks r s pre ps]: [s] is [pre] followed by the chunks [ps], each a
    delimiter (a match of [r]) and the segment after it, and every
    delimiter is the leftmost match after the previous one: the pattern
    matches at no position inside [pre] or inside a segment. *)
Inductive Chunks (r : Re.regex) : string -> string -> list (string * string) -> Prop :=
| Chunks_end (s : string) :
    (forall n, n < String.length s -> matches_at r (Str.drop n s) = false) ->
    Chunks r s s []
| Chunks_cut (pre d rest seg : string) (gs : list string)
    (ps : list (string * string)) :
    (forall n, n < String.length pre ->
               matches_at r (Str.drop n (pre ++ d ++ rest)) = false) ->
    Re.match_here r (d ++ rest) = Some (d, gs, rest) ->
    d <> "" ->
    Chunks r rest seg ps ->
    Chunks r (pre ++ d ++ rest) pre ((d, seg) :: ps).

(** The text a list of chunks spells out. *)
Fixpoint spell (ps : list (string * string)) : string :=
  match ps with
  | [] => ""
  | (d, seg) :: ps' => d ++ seg ++ spell ps'
  end.

(** A timestamp delimiter, written out: one or two digits, a slash, one
    or two digits, a slash, two to four digits, a comma, a white-space
    character, one or two digits, a colon, two digits, a white-space
    character, a hyphen and a white-space character. *)
Inductive Stamp : string -> Prop :=
| Stamp_intro (d1 d2 y h m : string) (w1 w2 w3 : ascii) :
    Str.all Char.isdigit d1 = true -> 1 <= String.length d1 <= 2 ->
    Str.all Char.isdigit d2 = true -> 1 <= String.length d2 <= 2 ->
    Str.all Char.isdigit y = true -> 2 <= String.length y <= 4 ->
    Char.isspace w1 = true ->
    Str.all Char.isdigit h = true -> 1 <= String.length h <= 2 ->
    Str.all Char.isdigit m = true -> String.length m = 2 ->
    Char.isspace w2 = true -> Char.isspace w3 = true ->
    Stamp (d1 ++ "/" ++ d2 ++ "/" ++ y ++ ","
           ++ String w1 (h ++ ":" ++ m ++ String w2 ("-" ++ String w3 ""))).

(** A delimiter stands at the head of [s]. *)
Definition starts_with_stamp (s : string) : Prop :=
  exists d rest, s = d ++ rest /\ Stamp d.

(** [Delimited s pre ps]: the transcript [s] is the preamble [pre]
    followed by the chunks [ps], each a delimiter and the segment after
    it; no delimiter begins inside the preamble or inside a segment, so
    that every delimiter is the first one after the previous one. *)
Inductive Delimited : string -> string -> list (string * string) -> Prop :=
| Delimited_end (s : string) :
    (forall n, n < String.length s -> ~ starts_with_stamp (Str.drop n s)) ->
    Delimited s s []
| Delimited_cut (pre d rest seg : string) (ps : list (string * string)) :
    (forall n, n < String.length pre ->
               ~ starts_with_stamp (Str.drop n (pre ++ d ++ rest))) ->
    Stamp d ->
    Delimited rest seg ps ->
    Delimited (pre ++ d ++ rest) pre ((d, seg) :: ps).

(** No delimiter begins anywhere in [s]. *)
Definition no_stamp (s : string) : Prop :=
  forall n, ~ starts_with_stamp (Str.drop n s).

(** The pattern matches at the head of [s]. *)
Definition succeeds (r : Re.regex) (s : string) : Prop :=
  exists x, Re.match_here r s = Some x.

(** The scan of a string read as a preamble and chunks. *)
Fixpoint chunks_of (ms : list Re.found) (tl : string)
  : string * list (string * string) :=
  match ms with
  | [] => (tl, [])
  | m :: ms' =>
      let (seg, ps) := chunks_of ms' tl in
      (Re.m_pre m, (Re.m_text m, seg) :: ps)
  end.

Definition no_groups (r : Re.regex) : bool :=
  forallb (fun a => negb (Re.a_group a)) r.

(** A colon followed by a white-space character stands at offset [k]. *)
Definition boundary_at (k : nat) (s : string) : bool :=
  match Str.drop k s with
  | String c (String w _) => Ascii.eqb ":" c && Char.isspace w
  | _ => false
  end.

(** A colon followed by a space stands at offset [k]. *)
Definition colon_space_at (k : nat) (s : string) : bool :=
  match Str.drop k s with
  | String c (String w _) => Ascii.eqb ":" c && Ascii.eqb " " w
  | _ => false
  end.

(** The timestamp [s] does not parse under the format [f]. *)
Definition fails (f : Strptime.format) (s : string) : Prop :=
  exists e, Strptime.strptime f s = Raise e.

(** The timestamps [dates] all parse under [f], to the instants [ds]. *)
Definition parses (f : Strptime.format) (dates : list string)
  (ds : list datetime) : Prop :=
  Forall2 (fun s d => Strptime.strptime f s = OK d) dates ds.

(** The sentence "the body splits at its first colon-space, and has no
    sender when it has none", read for every message body. *)
Definition splits_at_first_colon_space : Prop :=
  forall message : string,
    (forall k,
        colon_space_at k message = true ->
        (forall j, j < k -> colon_space_at j message = false) ->
        Preprocessor.classify message
        = OK (Str.take k message, Str.drop (k + 2) message))
    /\ ((forall k, colon_space_at k message = false) ->
        Preprocessor.classify message = OK ("group_notification", message)).

(** Calendar order on months [(year, month)] and on dates
    [(year, month, day)]. *)
Definition month_before (a b : Z * Z) : Prop :=
  let '(y1, m1) := a in
  let '(y2, m2) := b in
  (y1 < y2 \/ (y1 = y2 /\ m1 < m2))%Z.

Definition date_before (a b : Z * Z * Z) : Prop :=
  let '(y1, m1, d1) := a in
  let '(y2, m2, d2) := b in
  (y1 < y2 \/ (y1 = y2 /\ (m1 < m2 \/ (m1 = m2 /\ d1 < d2))))%Z.

(** Rows of a summary table in strictly ascending key order. *)
Definition key_lt {K : Type} (cmp : K -> K -> comparison) (a b : K * nat) : Prop :=
  cmp (fst a) (fst b) = Lt.

Definition is_eq (c : comparison) : bool :=
  match c with Eq => true | _ => false end.

(** The count a summary table records for [k], zero when [k] has no row. *)
Fixpoint get {K : Type} (cmp : K -> K -> comparison) (k : K)
  (groups : list (K * nat)) : nat :=
  match groups with
  | [] => 0
  | (k', n) :: groups' => if is_eq (cmp k k') then n else get cmp k groups'
  end.

(** The number of keys equal to [k]. *)
Definition occ {K : Type} (cmp : K -> K -> comparison) (k : K) (keys : list K) : nat :=
  count (fun k' => is_eq (cmp k k')) keys.

(** The records a helper works on for a given choice in the selector. *)
Definition selected (selected_user : string) (df : DataFrame) : list row :=
  if Helper.specific selected_user
  then filter (fun r => String.eqb (user r) selected_user) (rows df)
  else rows df.

Definition month_of (r : row) : Z * Z := (dt_year (date r), dt_month (date r)).

Definition day_of (r : row) : Z * Z * Z :=
  (dt_year (date r), dt_month (date r), dt_day (date r)).

Definition hour_of (r : row) : Z := dt_hour (date r).

Definition weekday_of (r : row) : string := day_name (date r).

(** Every record holds a timestamp a [datetime64] column can hold. *)
Definition valid_table (df : DataFrame) : Prop :=
  Forall (fun r => Calendar.valid (date r) = true) (rows df).

(** What a record says: its timestamp, sender and content.  The other
    columns are derived from these. *)
Definition rec_of (r : row) : datetime * string * string :=
  (date r, user r, message_content r).

Definition records (df : DataFrame) : list (datetime * string * string) :=
  map rec_of (rows df).

Definition same_record (r' r : row) : Prop := rec_of r' = rec_of r.

(** A record as [preprocess] builds it. *)
Definition built (r : row) : Prop :=
  r = Preprocessor.build_row (date r) (user r, message_content r).

(** The media count and the number of flagged records a selection has. *)
Definition media_count (selected_user : string) (df : DataFrame) : nat :=
  snd (fst (Helper.fetch_stats selected_user df)).

Definition flagged (selected_user : string) (df : DataFrame) : nat :=
  count is_media (selected selected_user df).


(** The sentence "the media count is the number of records flagged
    [is_media]". *)
Definition media_count_is_flag_count : Prop :=
  forall (data : string) (df : DataFrame) (selected_user : string),
    Preprocessor.preprocess data = OK df ->
    media_count selected_user df = flagged selected_user df.

Definition weekly_activity (df : DataFrame) (selected_user : string) :=
  fst (fst (Helper.plot_interactive_activity_analysis df selected_user)).

Definition hourly_activity (df : DataFrame) (selected_user : string) :=
  snd (fst (Helper.plot_interactive_activity_analysis df selected_user)).

(** The sentence "seven weekday rows and twenty-four hour rows, whatever
    the data". *)
Definition activity_zero_filled : Prop :=
  forall (df : DataFrame) (selected_user : string),
    List.length (weekly_activity df selected_user) = 7
    /\ List.length (hourly_activity df selected_user) = 24.

Definition heatmap_data (df : DataFrame) : grid :=
  fst (Helper.plot_activity_heatmap_matplotlib df).

(** The sentence "a 7-by-24 matrix, Monday to Sunday by hour 0 to 23,
    with a count in every cell". *)
Definition heatmap_full : Prop :=
  forall df : DataFrame,
    g_index (heatmap_data df) = day_order
    /\ g_columns (heatmap_data df) = map Z.of_nat (seq 0 24)
    /\ Forall (fun r => List.length r = 24 /\ Forall (fun c => exists n, c = Num n) r)
         (g_cells (heatmap_data df)).

(** The cell of a grid in row [i] and column [j]. *)
Definition cell_at (g : grid) (i j : nat) : option cell :=
  nth_error (nth i (g_cells g) []) j.

(** The grouping keys of the heatmap. *)
Definition heat_keys (df : DataFrame) : list (string * Z) :=
  map (fun r => (weekday_of r, hour_of r)) (rows df).

(** The sentence "no helper changes the table it is given". *)
Definition helpers_leave_table : Prop :=
  forall (df : DataFrame) (selected_user : string),
    snd (Helper.plot_monthly_timeline selected_user df) = df
    /\ snd (Helper.plot_interactive_activity_analysis df selected_user) = df
    /\ snd (Helper.plot_activity_heatmap_matplotlib df) = df.

(** A small chat: a message before the turn of the year, one whose text
    contains the media placeholder, one from a sender called "Overall",
    and a media message. *)
Definition nl : string := String (ascii_of_nat 10) "".

Definition chat_winter : string :=
  "12/25/23, 10:00 - Alice: hi" ++ nl
  ++ "1/15/24, 9:07 - Bob: see www.x.y <Media omitted>" ++ nl
  ++ "2/1/24, 9:07 - Overall: yo" ++ nl
  ++ "2/1/24, 21:30 - Bob: <Media omitted>".

Definition table_winter : DataFrame :=
  Table
    [Row (DateTime 2023 12 25 10 0) "Alice" "hi" false
       2023 "December" 25 10 0 "Monday";
     Row (DateTime 2024 1 15 9 7) "Bob" "see www.x.y <Media omitted>" true
       2024 "January" 15 9 7 "Monday";
     Row (DateTime 2024 2 1 9 7) "Overall" "yo" false
       2024 "February" 1 9 7 "Thursday";
     Row (DateTime 2024 2 1 21 30) "Bob" "<Media omitted>" true
       2024 "February" 1 21 30 "Thursday"]
    [].

Definition string_lt (a b : string) : Prop := String.compare a b = Lt.

(** [part] occurs in [s]. *)
Definition contains (part s : string) : Prop :=
  exists a b, s = a ++ part ++ b.

(** Every column added to the table has one entry per record. *)
Definition aligned (df : DataFrame) : Prop :=
  Forall (fun nc => List.length (snd nc) = List.length (rows df)) (added df).

(** What is assumed of the order [value_counts] leaves: the same rows,
    counts descending. *)
Definition ranks_by_count (sort_counts : list (string * nat) -> list (string * nat))
  : Prop :=
  forall l, Permutation (sort_counts l) l
            /\ StronglySorted (fun a b => snd b <= snd a) (sort_counts l).

(** An order of that kind: insertion from the right, ties in order. *)
Fixpoint insert_desc (x : string * nat) (l : list (string * nat))
  : list (string * nat) :=
  match l with
  | [] => [x]
  | y :: l' => if snd y <=? snd x then x :: l else y :: insert_desc x l'
  end.

Definition sort_desc (l : list (string * nat)) : list (string * nat) :=
  fold_right insert_desc [] l.

(** The count a tally holds for a sender, zero when it has none. *)
Fixpoint tallied_user (u : string) (counts : list (string * nat)) : nat :=
  match counts with
  | [] => 0
  | (v, n) :: counts' => if String.eqb v u then n else tallied_user u counts'
  end.

(** The number of records of a sender. *)
Definition messages_of (u : string) (df : DataFrame) : nat :=
  count (fun r => String.eqb (user r) u) (rows df).

(** The ranges of the fields a timestamp format has set so far. *)
Definition in_ranges (t : datetime) : Prop :=
  ((dt_year t = 1900 \/ 1969 <= dt_year t <= 2068)
   /\ 1 <= dt_month t <= 12 /\ 1 <= dt_day t <= 31
   /\ 0 <= dt_hour t <= 23 /\ 0 <= dt_minute t <= 59)%Z.

Definition is_year (d : Strptime.directive) : bool :=
  match d with Strptime.D_y => true | _ => false end.

(** The years a two-digit year stands for. *)
Definition two_digit_year (t : datetime) : Prop :=
  (1969 <= dt_year t <= 2068)%Z.

(** A table of two senders and the notification sentinel. *)
Definition table_trio : DataFrame :=
  Table
    [Row (DateTime 2023 12 25 9 58) "group_notification"
       "Messages and calls are end-to-end encrypted." false
       2023 "December" 25 9 58 "Monday";
     Row (DateTime 2023 12 25 10 0) "Alice" "hi" false
       2023 "December" 25 10 0 "Monday";
     Row (DateTime 2024 1 15 9 7) "Bob" "see www.x.y <Media omitted>" true
       2024 "January" 15 9 7 "Monday";
     Row (DateTime 2024 2 1 21 30) "Bob" "<Media omitted>" true
       2024 "February" 1 21 30 "Thursday"]
    [].

(** A chat with a preamble and a message of two lines. *)
Definition chat_lines : string :=
  "Chat export" ++ nl
  ++ "12/25/23, 10:00 - Alice: hi" ++ nl ++ "  there  " ++ nl
  ++ "1/15/24, 9:07 - Bob joined".

End Spec.

(* ================================================================= *)
(** * Properties *)

(** ** Strings *)

Section StringFacts.

Import Str.

Lemma append_nil_r (s : string) : s ++ "" = s.
Proof. induction s as [|c s IH]; simpl; [reflexivity | now rewrite IH]. Qed.

Lemma append_assoc (a b c : string) : (a ++ b) ++ c = a ++ b ++ c.
Proof. induction a as [|x a IH]; simpl; [reflexivity | now rewrite IH]. Qed.

Lemma length_append (a b : string) :
  String.length (a ++ b) = String.length a + String.length b.
Proof. induction a as [|x a IH]; simpl; [reflexivity | now rewrite IH]. Qed.

Lemma take_drop (n : nat) (s : string) : take n s ++ drop n s = s.
Proof.
  revert s; induction n as [|n IH]; intros [|c s]; simpl; try reflexivity.
  now rewrite IH.
Qed.

Lemma drop_append_length (a b : string) : drop (String.length a) (a ++ b) = b.
Proof. induction a as [|x a IH]; simpl; [now destruct b | exact IH]. Qed.

Lemma drop_append_lt (n : nat) (a b : string) :
  n <= String.length a -> drop n (a ++ b) = drop n a ++ b.
Proof.
  revert a; induction n as [|n IH]; intros [|x a] H; simpl in *;
    try reflexivity; try lia.
  apply IH; lia.
Qed.

Lemma drop_all (n : nat) (s : string) : String.length s <= n -> drop n s = "".
Proof.
  revert s; induction n as [|n IH]; intros [|c s] H; simpl in *;
    try reflexivity; try lia.
  apply IH; lia.
Qed.

(** What [strip] removes is white space at both ends, and only that. *)
Lemma lstrip_spec (p : ascii -> bool) (s : string) :
  exists l, s = l ++ lstrip p s /\ all p l = true
            /\ first_ok p (lstrip p s) = false.
Proof.
  induction s as [|c s (l & E & A & F)]; simpl.
  - exists ""; auto.
  - destruct (p c) eqn:P.
    + exists (String c l); simpl; rewrite P, A; repeat split; auto.
      now rewrite <- E.
    + exists ""; simpl; auto.
Qed.

Lemma rstrip_spec (p : ascii -> bool) (s : string) :
  exists r, s = rstrip p s ++ r /\ all p r = true
            /\ last_ok p (rstrip p s) = false.
Proof.
  induction s as [|c s (r & E & A & L)]; simpl.
  - exists ""; auto.
  - destruct (rstrip p s) as [|d t] eqn:R.
    + simpl in E; subst r. destruct (p c) eqn:P.
      * exists (String c s); simpl; rewrite P, A; auto.
      * exists s; simpl; rewrite P; auto.
    + exists r; repeat split; auto.
      now rewrite E.
Qed.

Lemma rstrip_first (p : ascii -> bool) (s : string) :
  first_ok p s = false -> first_ok p (rstrip p s) = false.
Proof.
  destruct s as [|c s]; simpl; auto.
  intros P; destruct (rstrip p s); simpl; auto.
  now rewrite P.
Qed.

Lemma strip_by_spec (p : ascii -> bool) (s : string) :
  exists l r, s = l ++ strip_by p s ++ r
              /\ all p l = true /\ all p r = true
              /\ first_ok p (strip_by p s) = false
              /\ last_ok p (strip_by p s) = false.
Proof.
  unfold strip_by.
  destruct (lstrip_spec p s) as (l & E & A & F).
  destruct (rstrip_spec p (lstrip p s)) as (r & E' & A' & L).
  exists l, r; repeat split; auto.
  - now rewrite <- E'.
  - now apply rstrip_first.
Qed.

End StringFacts.

(** ** The matcher and the scanner *)

Section RegexFacts.

Import Re Str Spec.

Lemma first_some_inv {A B : Type} (f : A -> option B) (l : list A) (b : B) :
  first_some f l = Some b -> exists x, In x l /\ f x = Some b.
Proof.
  induction l as [|x l IH]; simpl; [discriminate|].
  destruct (f x) eqn:E; intros H.
  - exists x; split; [now left | congruence].
  - destruct (IH H) as (y & I & F); exists y; auto.
Qed.

Lemma first_some_none {A B : Type} (f : A -> option B) (l : list A) :
  (forall x, In x l -> f x = None) -> first_some f l = None.
Proof.
  induction l as [|x l IH]; simpl; intros H; [reflexivity|].
  rewrite (H x (or_introl eq_refl)); auto.
Qed.

Lemma match_here_sound (r : regex) (s txt rest : string) (gs : list string) :
  match_here r s = Some (txt, gs, rest) -> s = txt ++ rest.
Proof.
  revert s txt gs rest; induction r as [|a r IH]; simpl; intros s txt gs rest H.
  - now inversion H.
  - apply first_some_inv in H as (n & _ & H).
    destruct (match_here r (drop n s)) as [[[t g] u]|] eqn:E; [|discriminate].
    inversion H; subst; clear H.
    apply IH in E. rewrite append_assoc, <- E. symmetry; apply take_drop.
Qed.

Lemma match_here_no_groups (r : regex) (s txt rest : string) (gs : list string) :
  no_groups r = true -> match_here r s = Some (txt, gs, rest) -> gs = [].
Proof.
  revert s txt gs rest; induction r as [|a r IH]; simpl; intros s txt gs rest N H.
  - now inversion H.
  - apply andb_prop in N as [Na N].
    apply first_some_inv in H as (n & _ & H).
    destruct (match_here r (drop n s)) as [[[t g] u]|] eqn:E; [|discriminate].
    destruct (a_group a); [discriminate Na|].
    inversion H; subst. eapply IH; eauto.
Qed.

Lemma scan_skip (r : regex) (limit : option nat) (k : nat) (s : string) :
  scan r limit k s = scan r limit 0 (drop k s).
Proof.
  revert s; induction k as [|k IH]; intros s.
  - now destruct s.
  - destruct s as [|c s]; [reflexivity|]. simpl drop. rewrite <- IH. reflexivity.
Qed.

Lemma chunks_of_push (c : ascii) (ms : list found) (tl : string) :
  (let (ms', tl') := push c (ms, tl) in chunks_of ms' tl')
  = (String c (fst (chunks_of ms tl)), snd (chunks_of ms tl)).
Proof.
  destruct ms as [|m ms]; simpl; [reflexivity|].
  now destruct (chunks_of ms tl).
Qed.

Lemma Chunks_push (r : regex) (c : ascii) (s pre : string)
  (ps : list (string * string)) :
  matches_at r (String c s) = false ->
  Chunks r s pre ps -> Chunks r (String c s) (String c pre) ps.
Proof.
  intros M H; destruct H as [s H | pre d rest seg gs ps H Hm Hd Hc].
  - apply Chunks_end. intros [|n] L; simpl; [exact M | apply H; simpl in L; lia].
  - apply (Chunks_cut r (String c pre) d rest seg gs ps); auto.
    intros [|n] L; simpl; [exact M | apply H; simpl in L; lia].
Qed.

(** The scanner cuts the string at the leftmost matches. *)
Lemma scan_chunks (r : regex) (s : string) :
  let (ms, tl) := scan r None 0 s in
  Chunks r s (fst (chunks_of ms tl)) (snd (chunks_of ms tl)).
Proof.
  remember (String.length s) as n eqn:Hn.
  assert (L : String.length s <= n) by lia. clear Hn.
  revert s L; induction n as [|n IH]; intros s L.
  - destruct s; [|simpl in L; lia]. simpl. apply Chunks_end. intros n H; inversion H.
  - destruct s as [|c s]; [simpl; apply Chunks_end; intros k H; inversion H|].
    simpl in L. cbn [scan dec].
    destruct (match_here r (String c s)) as [[[txt gs] rest]|] eqn:M.
    + destruct txt as [|c0 t].
      * specialize (IH s ltac:(lia)).
        destruct (scan r None 0 s) as [ms tl].
        pose proof (chunks_of_push c ms tl) as P.
        destruct (push c (ms, tl)) as [ms' tl']. rewrite P; simpl.
        apply Chunks_push; auto. unfold matches_at; now rewrite M.
      * pose proof (match_here_sound _ _ _ _ _ M) as E.
        simpl in E. inversion E; subst c0 s.
        rewrite scan_skip, drop_append_length.
        assert (Lr : String.length rest <= n) by (rewrite length_append in L; lia).
        specialize (IH rest Lr).
        destruct (scan r None 0 rest) as [ms tl]. simpl.
        destruct (chunks_of ms tl) as [seg ps] eqn:C. simpl in *.
        apply (Chunks_cut r "" (String c t) rest seg gs ps); auto.
        -- intros k H; inversion H.
        -- discriminate.
    + specialize (IH s ltac:(lia)).
      destruct (scan r None 0 s) as [ms tl].
      pose proof (chunks_of_push c ms tl) as P.
      destruct (push c (ms, tl)) as [ms' tl']. rewrite P; simpl.
      apply Chunks_push; auto. unfold matches_at; now rewrite M.
Qed.

Lemma Chunks_spell (r : regex) (s pre : string) (ps : list (string * string)) :
  Chunks r s pre ps -> s = pre ++ spell ps.
Proof.
  induction 1 as [s H | pre d rest seg gs ps H Hm Hd Hc IH]; simpl.
  - now rewrite append_nil_r.
  - now rewrite IH at 1.
Qed.

(** [re.split] and [re.findall] read off the same chunks. *)
Lemma split_findall_chunks (r : regex) (s : string) :
  no_groups r = true ->
  exists pre ps,
    Chunks r s pre ps
    /\ split r 0 s = pre :: map snd ps
    /\ findall r s = map fst ps.
Proof.
  intros N. pose proof (scan_chunks r s) as C.
  unfold split, findall.
  destruct (scan r None 0 s) as [ms tl] eqn:E.
  exists (fst (chunks_of ms tl)), (snd (chunks_of ms tl)); split; [exact C|].
  assert (G : Forall (fun m => m_groups m = []) ms).
  { clear C. 
    remember (String.length s) as n eqn:Hn.
    assert (L : String.length s <= n) by lia. clear Hn.
    revert s ms tl L E; induction n as [|n IH]; intros s ms tl L E.
    - destruct s; [|simpl in L; lia]. inversion E; constructor.
    - destruct s as [|c s]; [inversion E; constructor|].
      simpl in L. cbn [scan dec] in E.
      assert (P : forall ms0 tl0, scan r None 0 s = (ms0, tl0) ->
                    push c (ms0, tl0) = (ms, tl) -> Forall (fun m => m_groups m = []) ms).
      { intros ms0 tl0 E0 P. apply IH in E0; [|lia].
        destruct ms0 as [|m0 ms0]; simpl in P; inversion P; subst; auto.
        inversion E0; subst. constructor; auto. }
      destruct (match_here r (String c s)) as [[[txt gs] rest]|] eqn:M.
      + destruct txt as [|c0 t].
        * destruct (scan r None 0 s) as [ms0 tl0] eqn:E0. eapply P; eauto.
        * pose proof (match_here_sound _ _ _ _ _ M) as Es.
          simpl in Es. inversion Es; subst c0 s.
          rewrite scan_skip, drop_append_length in E.
          destruct (scan r None 0 rest) as [ms0 tl0] eqn:E0.
          inversion E; subst. constructor.
          -- simpl. eapply match_here_no_groups; eauto.
          -- eapply IH; [|exact E0]. rewrite length_append in L; lia.
      + destruct (scan r None 0 s) as [ms0 tl0] eqn:E0. eapply P; eauto. }
  clear C E. induction G as [|m ms Hm G IH]; [simpl; auto|].
  cbn [flat_map map chunks_of fst snd app]. rewrite Hm.
  destruct (chunks_of ms tl) as [seg ps]. cbn [fst snd map app] in *.
  destruct IH as [IH1 IH2]. rewrite IH1, IH2. auto.
Qed.

End RegexFacts.

(** ** The delimiter pattern, atom by atom *)

Section AtomFacts.

Import Re Str Spec.

Lemma match_here_cons (a : atom) (r : regex) (s : string) :
  match_here (a :: r) s
  = first_some
      (fun n =>
         match match_here r (drop n s) with
         | Some (txt, gs, rest) =>
             Some (take n s ++ txt,
                   (if a_group a then take n s :: gs else gs), rest)
         | None => None
         end)
      (counts a s).
Proof. reflexivity. Qed.

(** An atom that takes exactly one character of its class. *)
Lemma match_one (p : ascii -> bool) (r : regex) (u : string) :
  match_here (Atom p 1 (Some 1) Greedy false :: r) u
  = match u with
    | String c u' =>
        if p c then
          match match_here r u' with
          | Some (txt, gs, rest) => Some (String c txt, gs, rest)
          | None => None
          end
        else None
    | EmptyString => None
    end.
Proof.
  destruct u as [|c u']; [reflexivity|].
  assert (Z : forall u, run p (Some 0) u = 0)
    by (intros [|x u]; simpl; [|destruct (p x)]; reflexivity).
  cbn [match_here]. unfold counts. cbn [a_class a_max a_min a_greed a_group run].
  destruct (p c); [|reflexivity].
  rewrite Z. cbn. destruct (match_here r u') as [[[t g] w]|]; reflexivity.
Qed.

Lemma match_one_iff (p : ascii -> bool) (r : regex) (s : string) :
  succeeds (Atom p 1 (Some 1) Greedy false :: r) s
  <-> exists c s', s = String c s' /\ p c = true /\ succeeds r s'.
Proof.
  unfold succeeds. rewrite match_one. split.
  - destruct s as [|c s']; [intros (x & H); discriminate|].
    destruct (p c) eqn:P; [|intros (x & H); discriminate].
    destruct (match_here r s') as [y|] eqn:M; [|intros (x & H); discriminate].
    intros _. exists c, s'. eauto.
  - intros (c & s' & -> & P & (y & M)). rewrite P, M.
    destruct y as [[t g] w]. eauto.
Qed.

Lemma match_one_inv (p : ascii -> bool) (r : regex) (s txt rest : string)
  (gs : list string) :
  match_here (Atom p 1 (Some 1) Greedy false :: r) s = Some (txt, gs, rest) ->
  exists c u txt',
    s = String c u /\ p c = true
    /\ match_here r u = Some (txt', gs, rest) /\ txt = String c txt'.
Proof.
  rewrite match_one. destruct s as [|c u]; [discriminate|].
  destruct (p c) eqn:P; [|discriminate].
  destruct (match_here r u) as [[[t g] w]|] eqn:M; [|discriminate].
  intros H; inversion H; subst. exists c, u, t. auto.
Qed.

(** The run of a class at the head of a string, against its prefixes. *)
Lemma run_prefix (p : ascii -> bool) (hi n : nat) (s : string) :
  n <= run p (Some hi) s <->
  n <= hi /\ String.length (take n s) = n /\ all p (take n s) = true.
Proof.
  revert hi s; induction n as [|n IH]; intros hi s.
  - simpl. split; [intros _; repeat split; lia | lia].
  - destruct s as [|c s]; simpl.
    + split; [lia | intros (_ & H & _); discriminate].
    + destruct (p c) eqn:P; simpl.
      * destruct hi as [|hi].
        -- split; [lia | intros (H & _); lia].
        -- rewrite <- Nat.succ_le_mono, IH. split.
           ++ intros (H1 & H2 & H3). repeat split; auto; lia.
           ++ intros (H1 & H2 & H3). repeat split; auto; lia.
      * split; [lia | intros (_ & _ & H); discriminate].
Qed.

Lemma counts_greedy (p : ascii -> bool) (lo hi n : nat) (s : string) :
  In n (counts (rep p lo hi) s) <-> lo <= n <= run p (Some hi) s.
Proof.
  unfold counts, rep. cbn [a_class a_max a_min a_greed].
  destruct (Nat.ltb_spec (run p (Some hi) s) lo) as [L|L].
  - split; [intros [] | lia].
  - rewrite <- in_rev, in_seq. lia.
Qed.

Lemma first_some_exists {A B : Type} (f : A -> option B) (l : list A) (x : A) (b : B) :
  In x l -> f x = Some b -> exists b', first_some f l = Some b'.
Proof.
  induction l as [|y l IH]; simpl; [tauto|].
  destruct (f y) eqn:F; [eauto|].
  intros [->|I] H; [congruence | eauto].
Qed.

Lemma take_append_length (a b : string) : take (String.length a) (a ++ b) = a.
Proof. induction a as [|x a IH]; simpl; [now destruct b | now rewrite IH]. Qed.

(** A bounded repetition: what a match of it is made of. *)
Lemma rep_inv (p : ascii -> bool) (lo hi : nat) (r : regex) (s txt rest : string)
  (gs : list string) :
  match_here (rep p lo hi :: r) s = Some (txt, gs, rest) ->
  exists d u txt',
    s = d ++ u /\ all p d = true /\ lo <= String.length d <= hi
    /\ match_here r u = Some (txt', gs, rest) /\ txt = d ++ txt'.
Proof.
  rewrite match_here_cons. intros H.
  apply first_some_inv in H as (n & I & H).
  apply counts_greedy in I as [Lo Hi].
  apply run_prefix in Hi as (Hi & Ln & Al).
  destruct (match_here r (drop n s)) as [[[t g] w]|] eqn:M; [|discriminate].
  cbn [rep a_group] in H. inversion H; subst.
  exists (take n s), (drop n s), t. rewrite take_drop, Ln. auto 10.
Qed.

Lemma rep_succeeds (p : ascii -> bool) (lo hi : nat) (r : regex) (d u : string) :
  all p d = true -> lo <= String.length d <= hi -> succeeds r u ->
  succeeds (rep p lo hi :: r) (d ++ u).
Proof.
  intros Al [Lo Hi] ([[t g] w] & M). unfold succeeds. rewrite match_here_cons.
  apply (first_some_exists _ _ (String.length d)
           (d ++ t, (if a_group (rep p lo hi) then d :: g else g), w)).
  - apply counts_greedy. split; [exact Lo|]. apply run_prefix.
    rewrite take_append_length. auto.
  - now rewrite drop_append_length, take_append_length, M.
Qed.

End AtomFacts.

Section StampFacts.

Import Re Str Spec Preprocessor.

Lemma Stamp_nonempty (d : string) : Stamp d -> d <> "".
Proof.
  intros [d1 d2 y h m w1 w2 w3 A1 [L1 _] _ _ _ _ _ _ _ _ _ _ _].
  destruct d1; [simpl in L1; lia | discriminate].
Qed.

(** What the delimiter pattern matches is a delimiter as written out. *)
Lemma pattern_sound (s txt rest : string) (gs : list string) :
  match_here pattern s = Some (txt, gs, rest) -> Stamp txt.
Proof.
  unfold pattern, lit, cls. intros H.
  apply rep_inv in H as (d1 & u1 & t1 & -> & A1 & L1 & H & ->).
  apply match_one_inv in H as (c1 & u2 & t2 & -> & C1 & H & ->).
  apply rep_inv in H as (d2 & u3 & t3 & -> & A2 & L2 & H & ->).
  apply match_one_inv in H as (c2 & u4 & t4 & -> & C2 & H & ->).
  apply rep_inv in H as (y & u5 & t5 & -> & A3 & L3 & H & ->).
  apply match_one_inv in H as (c3 & u6 & t6 & -> & C3 & H & ->).
  apply match_one_inv in H as (w1 & u7 & t7 & -> & W1 & H & ->).
  apply rep_inv in H as (h & u8 & t8 & -> & A4 & L4 & H & ->).
  apply match_one_inv in H as (c4 & u9 & t9 & -> & C4 & H & ->).
  apply rep_inv in H as (m & u10 & t10 & -> & A5 & L5 & H & ->).
  apply match_one_inv in H as (w2 & u11 & t11 & -> & W2 & H & ->).
  apply match_one_inv in H as (c5 & u12 & t12 & -> & C5 & H & ->).
  apply match_one_inv in H as (w3 & u13 & t13 & -> & W3 & H & ->).
  cbn [match_here] in H. inversion H; subst.
  apply Ascii.eqb_eq in C1, C2, C3, C4, C5. subst.
  apply (Stamp_intro d1 d2 y h m w1 w2 w3); auto; lia.
Qed.

(** Where a delimiter stands the pattern matches. *)
Lemma pattern_complete (d rest : string) :
  Stamp d -> succeeds pattern (d ++ rest).
Proof.
  intros [d1 d2 y h m w1 w2 w3 A1 L1 A2 L2 A3 L3 W1 A4 L4 A5 L5 W2 W3].
  unfold pattern, lit, cls.
  repeat (rewrite !append_assoc; cbn [append]).
  apply rep_succeeds; auto. apply match_one_iff. do 2 eexists.
  split; [reflexivity|]. split; [apply Ascii.eqb_refl|].
  apply rep_succeeds; auto. apply match_one_iff. do 2 eexists.
  split; [reflexivity|]. split; [apply Ascii.eqb_refl|].
  apply rep_succeeds; auto. apply match_one_iff. do 2 eexists.
  split; [reflexivity|]. split; [apply Ascii.eqb_refl|].
  apply match_one_iff. do 2 eexists.
  split; [reflexivity|]. split; [exact W1|].
  apply rep_succeeds; auto. apply match_one_iff. do 2 eexists.
  split; [reflexivity|]. split; [apply Ascii.eqb_refl|].
  apply rep_succeeds; [exact A5 | lia |]. apply match_one_iff. do 2 eexists.
  split; [reflexivity|]. split; [exact W2|].
  apply match_one_iff. do 2 eexists.
  split; [reflexivity|]. split; [apply Ascii.eqb_refl|].
  apply match_one_iff. do 2 eexists.
  split; [reflexivity|]. split; [exact W3|].
  unfold succeeds. cbn [match_here]. eauto.
Qed.

(** The pattern matches at the head of a string exactly when a
    delimiter stands there. *)
Lemma matches_at_stamp (s : string) :
  matches_at pattern s = true <-> starts_with_stamp s.
Proof.
  unfold matches_at, starts_with_stamp. split.
  - destruct (match_here pattern s) as [[[txt gs] rest]|] eqn:M; [|discriminate].
    intros _. exists txt, rest. split.
    + eapply match_here_sound; eauto.
    + eapply pattern_sound; eauto.
  - intros (d & rest & -> & St).
    destruct (pattern_complete d rest St) as ([[txt gs] w] & M). rewrite M.
    pose proof (Stamp_nonempty _ (pattern_sound _ _ _ _ M)) as N.
    destruct txt; [now elim N | reflexivity].
Qed.

Lemma matches_at_no_stamp (s : string) :
  matches_at pattern s = false <-> ~ starts_with_stamp s.
Proof.
  rewrite <- matches_at_stamp. destruct (matches_at pattern s); split;
    congruence.
Qed.

(** The chunks the scanner cuts are delimited by written-out
    delimiters. *)
Lemma Chunks_Delimited (s pre : string) (ps : list (string * string)) :
  Chunks pattern s pre ps -> Delimited s pre ps.
Proof.
  induction 1 as [s H | pre d rest seg gs ps H Hm Hd Hc IH].
  - apply Delimited_end. intros n L. apply matches_at_no_stamp. now apply H.
  - apply Delimited_cut; [|eapply pattern_sound; eauto | exact IH].
    intros n L. apply matches_at_no_stamp. now apply H.
Qed.

End StampFacts.

(** ** The tokenizer *)

Section TokenizerFacts.

Import Re Str Spec Frame Preprocessor.

Lemma combine_map_map {A B C : Type} (f : A -> B) (g : A -> C) (l : list A) :
  combine (map f l) (map g l) = map (fun x => (f x, g x)) l.
Proof. induction l as [|x l IH]; simpl; [reflexivity | now rewrite IH]. Qed.

Lemma scan_no_match (r : regex) (limit : option nat) (s : string) :
  (forall n, n < String.length s -> matches_at r (drop n s) = false) ->
  scan r limit 0 s = ([], s).
Proof.
  induction s as [|c s IH]; intros H; [reflexivity|].
  cbn [scan]. destruct limit as [[|l]|]; [reflexivity| |].
  - pose proof (H 0 ltac:(simpl; lia)) as H0. unfold matches_at in H0; simpl drop in H0.
    rewrite IH; [|intros n L; apply (H (S n)); simpl; lia].
    destruct (match_here r (String c s)) as [[[[|c0 t] gs] rest]|];
      try reflexivity; discriminate.
  - pose proof (H 0 ltac:(simpl; lia)) as H0. unfold matches_at in H0; simpl drop in H0.
    rewrite IH; [|intros n L; apply (H (S n)); simpl; lia].
    destruct (match_here r (String c s)) as [[[[|c0 t] gs] rest]|];
      try reflexivity; discriminate.
Qed.






Lemma Chunks_some_stamp (s pre : string) (ps : list (string * string)) :
  Chunks pattern s pre ps -> ps = [] -> no_stamp s.
Proof.
  intros C E. destruct C as [s H | pre d rest seg gs ps H Hm Hd Hc];
    [|discriminate].
  intros n. apply matches_at_no_stamp.
  destruct (Nat.lt_ge_cases n (String.length s)) as [L|L]; [now apply H|].
  rewrite drop_all by exact L. reflexivity.
Qed.

(** The positions before [k] checked one by one. *)
Lemma no_stamp_before (k : nat) (s : string) :
  forallb (fun n => negb (matches_at pattern (drop n s))) (seq 0 k) = true ->
  forall n, n < k -> ~ starts_with_stamp (drop n s).
Proof.
  intros H n L. apply matches_at_no_stamp.
  rewrite forallb_forall in H. specialize (H n).
  rewrite in_seq in H. apply negb_true_iff, H. lia.
Qed.

End TokenizerFacts.

(** The tokenizer's pairs are read off the chunks of the transcript; with
    no chunk the string accessor fails. *)
Lemma tokenize_pairs (data : string) :
  exists (preamble : string) (ps : list (string * string)),
    Spec.Chunks Preprocessor.pattern data preamble ps
    /\ Preprocessor.tokenize data
       = match ps with
         | [] => Raise (AttributeError "Can only use .str accessor with string values!")
         | _ => OK (map (fun p => (Str.strip (snd p), Str.strip_chars " - " (fst p))) ps)
         end.
Proof.
  destruct (split_findall_chunks Preprocessor.pattern data eq_refl)
    as (pre & ps & C & S & F).
  exists pre, ps. split; [exact C|].
  unfold Preprocessor.tokenize. rewrite S, F. cbn [tl].
  rewrite !length_map, Nat.eqb_refl.
  destruct ps as [|p ps]; [reflexivity|].
  unfold Preprocessor.str_accessor. cbn [map bind]. f_equal.
  change (combine (map Str.strip (map snd (p :: ps)))
            (map (Str.strip_chars " - ") (map fst (p :: ps)))
          = map (fun p => (Str.strip (snd p), Str.strip_chars " - " (fst p)))
              (p :: ps)).
  rewrite !map_map.
  apply (combine_map_map (fun p => Str.strip (snd p))
           (fun p => Str.strip_chars " - " (fst p))).
Qed.


Lemma tokenize_raises (data : string) (e : exn) :
  Preprocessor.tokenize data = Raise e ->
  e = AttributeError "Can only use .str accessor with string values!"
  /\ Spec.no_stamp data.
Proof.
  intros H. destruct (tokenize_pairs data) as (pre & ps & C & T).
  rewrite T in H. destruct ps as [|p ps]; [|discriminate].
  split; [congruence | now apply (Chunks_some_stamp _ _ _ C)].
Qed.

(** C7. Whenever the tokenizer returns, it returns one pair per delimiter,
    in order of occurrence: the transcript is a preamble followed by
    chunks, each a delimiter (digits, slashes, comma, colon, hyphen and
    white space as the pattern writes them, standing at the first position
    after the previous chunk's delimiter where one can stand) and the
    segment up to the next delimiter or the end; the pair of a chunk is its
    segment stripped of white space at both ends (and of nothing else, so
    that the newlines inside it stay) with its delimiter stripped of
    [" - "]; the preamble gives no pair.  The delimiters are those the
    pattern matches. *)
Theorem tokenize_chunks (data : string) (toks : list (string * string)) :
  Preprocessor.tokenize data = OK toks ->
  exists (preamble : string) (ps : list (string * string)),
    Spec.Delimited data preamble ps
    /\ Spec.Chunks Preprocessor.pattern data preamble ps
    /\ data = preamble ++ Spec.spell ps
    /\ toks = map (fun p => (Str.strip (snd p), Str.strip_chars " - " (fst p))) ps
    /\ Forall (fun p =>
                 exists l r,
                   snd p = l ++ Str.strip (snd p) ++ r
                   /\ Str.all Char.isspace l = true
                   /\ Str.all Char.isspace r = true
                   /\ Str.first_ok Char.isspace (Str.strip (snd p)) = false
                   /\ Str.last_ok Char.isspace (Str.strip (snd p)) = false) ps.
Proof.
  intros H. destruct (tokenize_pairs data) as (pre & ps & C & T).
  exists pre, ps. split; [now apply Chunks_Delimited|].
  split; [exact C|].
  split; [now apply Chunks_spell with (r := Preprocessor.pattern)|].
  split.
  - rewrite T in H. destruct ps as [|p ps]; [discriminate|]. congruence.
  - apply Forall_forall. intros p _. apply strip_by_spec.
Qed.

(** A transcript of four lines: a title, a message of two lines and a
    notice.  The title gives no pair and the second line stays in the
    first message. *)
Example tokenize_chat_lines :
  Preprocessor.tokenize Spec.chat_lines
  = OK [("Alice: hi" ++ Spec.nl ++ "  there", "12/25/23, 10:00");
        ("Bob joined", "1/15/24, 9:07")].
Proof. reflexivity. Qed.

(** Its preamble and its two chunks. *)
Example chat_lines_delimited :
  Spec.Delimited Spec.chat_lines ("Chat export" ++ Spec.nl)
    [("12/25/23, 10:00 - ", "Alice: hi" ++ Spec.nl ++ "  there  " ++ Spec.nl);
     ("1/15/24, 9:07 - ", "Bob joined")].
Proof.
  apply (Spec.Delimited_cut ("Chat export" ++ Spec.nl) "12/25/23, 10:00 - "
           ("Alice: hi" ++ Spec.nl ++ "  there  " ++ Spec.nl
            ++ "1/15/24, 9:07 - " ++ "Bob joined")).
  - apply no_stamp_before. vm_compute. reflexivity.
  - apply (Spec.Stamp_intro "12" "25" "23" "10" "00" " " " " " ");
      try reflexivity; simpl; lia.
  - apply (Spec.Delimited_cut
             ("Alice: hi" ++ Spec.nl ++ "  there  " ++ Spec.nl)
             "1/15/24, 9:07 - " "Bob joined").
    + apply no_stamp_before. vm_compute. reflexivity.
    + apply (Spec.Stamp_intro "1" "15" "24" "9" "07" " " " " " ");
        try reflexivity; simpl; lia.
    + apply Spec.Delimited_end. apply no_stamp_before. vm_compute. reflexivity.
Qed.

Lemma tokenize_chunks_witness :
  Preprocessor.tokenize Spec.chat_lines
  = OK [("Alice: hi" ++ Spec.nl ++ "  there", "12/25/23, 10:00");
        ("Bob joined", "1/15/24, 9:07")]
  /\ exists (preamble : string) (ps : list (string * string)),
       Spec.Delimited Spec.chat_lines preamble ps
       /\ Spec.Chunks Preprocessor.pattern Spec.chat_lines preamble ps
       /\ Spec.chat_lines = preamble ++ Spec.spell ps
       /\ [("Alice: hi" ++ Spec.nl ++ "  there", "12/25/23, 10:00");
           ("Bob joined", "1/15/24, 9:07")]
          = map (fun p => (Str.strip (snd p), Str.strip_chars " - " (fst p))) ps
       /\ Forall (fun p =>
                    exists l r,
                      snd p = l ++ Str.strip (snd p) ++ r
                      /\ Str.all Char.isspace l = true
                      /\ Str.all Char.isspace r = true
                      /\ Str.first_ok Char.isspace (Str.strip (snd p)) = false
                      /\ Str.last_ok Char.isspace (Str.strip (snd p)) = false) ps.
Proof.
  split; [reflexivity|].
  apply (tokenize_chunks Spec.chat_lines). reflexivity.
Defined.




(** ** The classifier *)

Section ClassifierFacts.

Import Re Str Spec Preprocessor.

Lemma drop_add (a b : nat) (s : string) : drop (a + b) s = drop b (drop a s).
Proof.
  revert s; induction a as [|a IH]; intros s; simpl; [reflexivity|].
  destruct s as [|c s]; [now destruct b | apply IH].
Qed.

Lemma run_any (s : string) : run Char.any None s = String.length s.
Proof. induction s as [|c s IH]; simpl; [reflexivity | now rewrite IH]. Qed.

(** The end of the sender pattern, [:\s], at the head of [u]. *)
Lemma colon_space_here (u : string) :
  match_here [lit ":"; cls Char.isspace] u
  = match u with
    | String c1 (String c2 rest) =>
        if Ascii.eqb ":" c1 && Char.isspace c2
        then Some (String c1 (String c2 ""), [], rest) else None
    | _ => None
    end.
Proof.
  unfold lit, cls. rewrite match_one.
  destruct u as [|c1 u]; [reflexivity|]. rewrite match_one.
  destruct (Ascii.eqb ":" c1); [|now destruct u].
  destruct u as [|c2 rest]; [reflexivity|].
  cbn [andb match_here]. destruct (Char.isspace c2); reflexivity.
Qed.

Lemma boundary_tail (k : nat) (s : string) :
  match_here [lit ":"; cls Char.isspace] (drop k s)
  = if boundary_at k s
    then Some (take 2 (drop k s), [], drop (k + 2) s) else None.
Proof.
  rewrite colon_space_here, drop_add. unfold boundary_at.
  destruct (drop k s) as [|c1 [|c2 rest]]; reflexivity.
Qed.

Lemma first_some_seq {B : Type} (f : nat -> option B) (a len k : nat) (b : B) :
  a <= k < a + len -> f k = Some b ->
  (forall j, a <= j < k -> f j = None) ->
  first_some f (seq a len) = Some b.
Proof.
  revert a; induction len as [|len IH]; intros a R F N; simpl; [lia|].
  destruct (Nat.eq_dec a k) as [->|D]; [now rewrite F|].
  rewrite (N a) by lia. apply IH; auto; [lia|]. intros j H; apply N; lia.
Qed.

Lemma boundary_in_range (k : nat) (s : string) :
  boundary_at k s = true -> k + 2 <= String.length s.
Proof.
  unfold boundary_at. intros H.
  destruct (Nat.le_gt_cases (String.length s) (k + 1)) as [L|L]; [|lia].
  exfalso. rewrite <- (take_drop k s) in L. rewrite length_append in L.
  assert (T : String.length (take k s) = k \/ drop k s = "").
  { clear. revert s; induction k as [|k IH]; intros [|c s]; simpl; auto.
    destruct (IH s); auto. }
  destruct T as [T|T]; [|now rewrite T in H].
  destruct (drop k s) as [|c1 [|c2 rest]]; try discriminate.
  simpl in L; lia.
Qed.

Lemma sender_match (s : string) (k : nat) :
  1 <= k -> boundary_at k s = true ->
  (forall j, 1 <= j < k -> boundary_at j s = false) ->
  match_here sender_pattern s
  = Some (take k s ++ take 2 (drop k s), [take k s], drop (k + 2) s).
Proof.
  intros K B N. pose proof (boundary_in_range k s B) as R.
  unfold sender_pattern. rewrite match_here_cons. unfold counts.
  cbn [a_class a_max a_min a_greed a_group]. rewrite run_any.
  destruct (Nat.ltb_spec (String.length s) 1) as [L|L]; [lia|].
  apply first_some_seq with (k := k); [lia | |].
  - change (match_here [lit ":"; cls Char.isspace] (drop k s))
      with (match_here [lit ":"; cls Char.isspace] (drop k s)).
    rewrite boundary_tail, B. reflexivity.
  - intros j J. rewrite boundary_tail, (N j J). reflexivity.
Qed.

Lemma sender_no_match (s : string) :
  (forall k, 1 <= k -> boundary_at k s = false) ->
  match_here sender_pattern s = None.
Proof.
  intros N. unfold sender_pattern. rewrite match_here_cons. apply first_some_none.
  intros n I. unfold counts in I. cbn [a_class a_max a_min a_greed] in I.
  destruct (run Char.any None s <? 1); [destruct I|].
  apply in_seq in I. rewrite boundary_tail, N by lia. reflexivity.
Qed.

Lemma scan_stop (r : regex) (s : string) : scan r (Some 0) 0 s = ([], s).
Proof. now destruct s. Qed.

(** With [maxsplit=1] the scan stops after the first match. *)
Lemma scan_first (r : regex) (s txt rest : string) (gs : list string) :
  match_here r s = Some (txt, gs, rest) -> txt <> "" ->
  scan r (Some 1) 0 s = ([Found "" txt gs], rest).
Proof.
  intros M T. pose proof (match_here_sound _ _ _ _ _ M) as E.
  destruct txt as [|c0 t]; [now elim T|].
  destruct s as [|c s]; [discriminate E|].
  cbn [scan]. rewrite M. simpl in E. inversion E; subst c0 s.
  cbn [dec pred]. rewrite scan_skip, drop_append_length, scan_stop. reflexivity.
Qed.

Lemma boundary_drop (j k : nat) (s : string) :
  boundary_at k (drop j s) = boundary_at (j + k) s.
Proof. unfold boundary_at. now rewrite drop_add. Qed.

End ClassifierFacts.

(** The body splits at the first colon followed by white space that has
    text before it. *)
Lemma classify_split (message : string) (k : nat) :
  1 <= k ->
  Spec.boundary_at k message = true ->
  (forall j, 1 <= j < k -> Spec.boundary_at j message = false) ->
  Preprocessor.classify message
  = OK (Str.take k message, Str.drop (k + 2) message).
Proof.
  intros K B N. unfold Preprocessor.classify, Re.split.
  pose proof (sender_match message k K B N) as M.
  pose proof (boundary_in_range k message B) as R.
  rewrite (scan_first _ _ _ _ _ M); [reflexivity|].
  destruct message as [|c s]; [simpl in R; lia|].
  destruct k as [|k]; [lia | discriminate].
Qed.

(** Without such a boundary the body is a group notification. *)
Lemma classify_whole (message : string) :
  (forall k, 1 <= k -> Spec.boundary_at k message = false) ->
  Preprocessor.classify message = OK ("group_notification", message).
Proof.
  intros N. unfold Preprocessor.classify, Re.split.
  rewrite scan_no_match; [reflexivity|].
  intros n _. unfold Spec.matches_at.
  rewrite sender_no_match; [reflexivity|].
  intros k K. rewrite boundary_drop. apply N; lia.
Qed.

(** C6, as the code has it.  The classifier splits a message body at the
    leftmost colon that is followed by a white-space character and has at
    least one character before it: the sender is the text before that
    colon, the content the text after the white-space character.  When no
    colon at offset 1 or later is followed by white space, the sender is
    ["group_notification"] and the content is the whole body. *)
Theorem classify_leftmost (message : string) :
  (forall k,
      1 <= k ->
      Spec.boundary_at k message = true ->
      (forall j, 1 <= j < k -> Spec.boundary_at j message = false) ->
      Preprocessor.classify message
      = OK (Str.take k message, Str.drop (k + 2) message))
  /\ ((forall k, 1 <= k -> Spec.boundary_at k message = false) ->
      Preprocessor.classify message = OK ("group_notification", message)).
Proof.
  split; [intros k; apply classify_split | apply classify_whole].
Qed.

Lemma classify_leftmost_witness :
  Preprocessor.classify "Alice: hello: world" = OK ("Alice", "hello: world")
  /\ Preprocessor.classify "Messages and calls are end-to-end encrypted."
     = OK ("group_notification", "Messages and calls are end-to-end encrypted.").
Proof.
  split.
  - apply (proj1 (classify_leftmost "Alice: hello: world") 5);
      [lia | reflexivity |].
    intros j H. do 5 (destruct j as [|j]; [first [reflexivity | lia]|]). lia.
  - apply (proj2 (classify_leftmost "Messages and calls are end-to-end encrypted.")).
    intros k _.
    do 44 (destruct k as [|k]; [reflexivity|]).
    unfold Spec.boundary_at. rewrite drop_all; [reflexivity | simpl; lia].
Defined.

(** C6, as the claim words it, fails: the body [": hi"] has a colon-space
    at its start, and yet it is classified as a group notification with
    the whole body as content. *)
Lemma classify_not_first_colon_space : ~ Spec.splits_at_first_colon_space.
Proof.
  intros H. destruct (H ": hi") as [H1 _].
  specialize (H1 0 eq_refl). simpl in H1.
  assert (E : Preprocessor.classify ": hi" = OK ("", "hi"))
    by (apply H1; intros j L; lia).
  vm_compute in E. discriminate E.
Qed.

(** A colon followed by a tab splits as well, although the body has no
    colon-space. *)
Example classify_colon_tab :
  let body := "Alice:" ++ String (ascii_of_nat 9) "hi" in
  Preprocessor.classify body = OK ("Alice", "hi").
Proof. reflexivity. Qed.

(** ** The two date formats *)

Section DateFacts.

Import Calendar Frame Preprocessor Spec.

Lemma mapM_OK {A B : Type} (f : A -> result B) (l : list A) (bs : list B) :
  mapM f l = OK bs <-> Forall2 (fun a b => f a = OK b) l bs.
Proof.
  revert bs; induction l as [|a l IH]; intros bs; simpl.
  - split; intros H; [inversion H; constructor | now inversion H].
  - destruct (f a) as [b|e] eqn:F; simpl.
    + destruct (mapM f l) as [bs'|e] eqn:M; simpl.
      * split; intros H.
        -- inversion H; subst. constructor; [exact F | now apply IH].
        -- inversion H as [|? b0 ? bs0 Fa Fl]; subst.
           apply IH in Fl. congruence.
      * split; intros H; [discriminate|].
        inversion H as [|? b0 ? bs0 Fa Fl]; subst. apply IH in Fl. discriminate.
    + split; intros H; [discriminate|]. inversion H; congruence.
Qed.

Lemma mapM_Raise {A B : Type} (f : A -> result B) (l : list A) :
  Exists (fun a => exists e, f a = Raise e) l -> exists e, mapM f l = Raise e.
Proof.
  induction 1 as [a l (e & F) | a l H (e & IH)]; simpl.
  - rewrite F; simpl; eauto.
  - destruct (f a); simpl; [rewrite IH; simpl|]; eauto.
Qed.

Lemma mapM_all_OK {A B : Type} (f : A -> result B) (l : list A) :
  (forall a, exists b, f a = OK b) ->
  exists bs, mapM f l = OK bs /\ List.length bs = List.length l.
Proof.
  intros T; induction l as [|a l (bs & M & L)]; simpl; [exists []; auto|].
  destruct (T a) as (b & F). rewrite F, M; simpl. exists (b :: bs); simpl; auto.
Qed.

(** [pd.to_datetime] raises nothing but [ValueError]. *)
Lemma strptime_raises (f : Strptime.format) (s : string) (e : exn) :
  Strptime.strptime f s = Raise e -> exists msg, e = ValueError msg.
Proof.
  unfold Strptime.strptime.
  destruct (Strptime.parse f Strptime.epoch s) as [|[t [|c r]] l].
  - intros H; inversion H; eauto.
  - destruct (_ <=? _)%Z; intros H; inversion H; eauto.
  - intros H; inversion H; eauto.
Qed.

Lemma to_datetime_raises (f : Strptime.format) (l : list string) (e : exn) :
  Strptime.to_datetime f l = Raise e -> exists msg, e = ValueError msg.
Proof.
  unfold Strptime.to_datetime. induction l as [|s l IH]; simpl; [discriminate|].
  destruct (Strptime.strptime f s) eqn:F; simpl.
  - destruct (mapM (Strptime.strptime f) l); simpl; [discriminate|].
    intros H; inversion H; subst; auto.
  - intros H; inversion H; subst. eapply strptime_raises; eauto.
Qed.

(** The classifier never raises. *)
Lemma leftmost_boundary (s : string) (n : nat) :
  (exists k, 1 <= k < n /\ boundary_at k s = true
             /\ forall j, 1 <= j < k -> boundary_at j s = false)
  \/ (forall k, 1 <= k < n -> boundary_at k s = false).
Proof.
  induction n as [|n [(k & K & B & N) | N]].
  - right; intros k K; lia.
  - left; exists k; repeat split; auto; lia.
  - destruct (boundary_at n s) eqn:B.
    + destruct n as [|n]; [right; intros k K; lia|].
      left; exists (S n); repeat split; auto; try lia.
    + right; intros k K. destruct (Nat.eq_dec k n) as [->|D]; auto.
      apply N; lia.
Qed.

Lemma classify_total (message : string) :
  exists um, classify message = OK um.
Proof.
  destruct (leftmost_boundary message (String.length message))
    as [(k & K & B & N) | N].
  - eexists. apply (classify_split message k); auto; lia.
  - eexists. apply (classify_whole message).
    intros k K. destruct (Nat.lt_ge_cases k (String.length message)) as [L|L].
    + apply N; lia.
    + destruct (boundary_at k message) eqn:B; [|reflexivity].
      apply boundary_in_range in B. lia.
Qed.

Lemma build_rows_dates (ds : list datetime) (ums : list (string * string)) :
  List.length ums = List.length ds ->
  map date (map (fun x => build_row (fst x) (snd x)) (combine ds ums)) = ds.
Proof.
  revert ums; induction ds as [|d ds IH]; intros [|um ums] L; simpl in *;
    try reflexivity; try discriminate.
  f_equal. apply IH. lia.
Qed.

(** Once the dates are parsed the table is built, one record per date. *)
Lemma preprocess_built (data : string) (toks : list (string * string))
  (ds : list datetime) :
  tokenize data = OK toks ->
  parse_dates (map snd toks) = OK ds ->
  exists df, preprocess data = OK df /\ map date (rows df) = ds.
Proof.
  intros T P. unfold preprocess. rewrite T; simpl. rewrite P; simpl.
  destruct (mapM_all_OK classify (map fst toks) classify_total) as (ums & M & L).
  rewrite M; simpl. eexists; split; [reflexivity|]. simpl.
  apply build_rows_dates.
  assert (List.length ds = List.length (map snd toks)).
  { unfold parse_dates, Strptime.to_datetime in P.
    destruct (mapM (Strptime.strptime Strptime.month_first) (map snd toks))
      as [ds1|[m|m|]] eqn:M1; try discriminate.
    - inversion P; subst. apply mapM_OK in M1. symmetry. eapply Forall2_length; eauto.
    - destruct (mapM (Strptime.strptime Strptime.day_first) (map snd toks))
        as [ds2|[m2|m2|]] eqn:M2; try discriminate.
      inversion P; subst. apply mapM_OK in M2. symmetry. eapply Forall2_length; eauto. }
  rewrite !length_map in *. lia.
Qed.

End DateFacts.

(** C5. For the batch of timestamps the tokenizer returns: they are
    parsed month first, and when all parse that way every record carries
    its month-first date; if one of them fails, the whole batch is parsed
    again day first, and when all parse that way every record carries its
    day-first date; if one fails day first as well, [preprocess] raises
    the format error and returns no table. *)
Theorem preprocess_date_fallback (data : string) (toks : list (string * string)) :
  Preprocessor.tokenize data = OK toks ->
  (forall ds,
      Spec.parses Strptime.month_first (map snd toks) ds ->
      exists df, Preprocessor.preprocess data = OK df
                 /\ map Frame.date (Frame.rows df) = ds)
  /\ (forall ds,
         Exists (Spec.fails Strptime.month_first) (map snd toks) ->
         Spec.parses Strptime.day_first (map snd toks) ds ->
         exists df, Preprocessor.preprocess data = OK df
                    /\ map Frame.date (Frame.rows df) = ds)
  /\ (Exists (Spec.fails Strptime.month_first) (map snd toks) ->
      Exists (Spec.fails Strptime.day_first) (map snd toks) ->
      Preprocessor.preprocess data
      = Raise (ValueError
                 "Date format not recognized. Please ensure the chat export is in a standard format.")).
Proof.
  intros T. split; [|split].
  - intros ds P. apply (preprocess_built data toks ds T).
    unfold Preprocessor.parse_dates, Strptime.to_datetime.
    apply mapM_OK in P. now rewrite P.
  - intros ds F P. apply (preprocess_built data toks ds T).
    unfold Preprocessor.parse_dates.
    destruct (mapM_Raise _ _ F) as (e & M).
    destruct (to_datetime_raises _ _ _ M) as (msg & ->).
    unfold Strptime.to_datetime at 1. rewrite M.
    unfold Strptime.to_datetime. apply mapM_OK in P. now rewrite P.
  - intros F1 F2. unfold Preprocessor.preprocess. rewrite T; simpl.
    unfold Preprocessor.parse_dates.
    destruct (mapM_Raise _ _ F1) as (e1 & M1).
    destruct (to_datetime_raises _ _ _ M1) as (m1 & ->).
    destruct (mapM_Raise _ _ F2) as (e2 & M2).
    destruct (to_datetime_raises _ _ _ M2) as (m2 & ->).
    unfold Strptime.to_datetime. rewrite M1, M2. reflexivity.
Qed.

Lemma preprocess_date_fallback_witness :
  Preprocessor.tokenize "31/01/24, 10:00 - Alice: hi"
  = OK [("Alice: hi", "31/01/24, 10:00")]
  /\ Exists (Spec.fails Strptime.month_first) ["31/01/24, 10:00"]
  /\ Spec.parses Strptime.day_first ["31/01/24, 10:00"]
       [Calendar.DateTime 2024 1 31 10 0]
  /\ exists df,
       Preprocessor.preprocess "31/01/24, 10:00 - Alice: hi" = OK df
       /\ map Frame.date (Frame.rows df) = [Calendar.DateTime 2024 1 31 10 0].
Proof.
  assert (F : Exists (Spec.fails Strptime.month_first) ["31/01/24, 10:00"])
    by (constructor; eexists; vm_compute; reflexivity).
  assert (P : Spec.parses Strptime.day_first ["31/01/24, 10:00"]
                [Calendar.DateTime 2024 1 31 10 0])
    by (constructor; [reflexivity | constructor]).
  split; [reflexivity|]. split; [exact F|]. split; [exact P|].
  exact (proj1 (proj2 (preprocess_date_fallback
                         "31/01/24, 10:00 - Alice: hi"
                         [("Alice: hi", "31/01/24, 10:00")] eq_refl))
           [Calendar.DateTime 2024 1 31 10 0] F P).
Defined.

(** The batch of the specification's example: its one timestamp has no
    month-first reading and is taken day first. *)
Example preprocess_day_first :
  Preprocessor.preprocess "31/01/24, 10:00 - Alice: hi"
  = OK (Frame.Table
          [Frame.Row (Calendar.DateTime 2024 1 31 10 0) "Alice" "hi" false
             2024 "January" 31 10 0 "Wednesday"] []).
Proof. reflexivity. Qed.

(** A batch that has no reading at all: the first stamp is day first
    only, the second month first only. *)
Example preprocess_mixed_batch :
  Preprocessor.preprocess
    ("31/01/24, 10:00 - Alice: hi" ++ String (ascii_of_nat 10) "01/31/24, 10:01 - Bob: ho")
  = Raise (ValueError
             "Date format not recognized. Please ensure the chat export is in a standard format.").
Proof. reflexivity. Qed.

(** ** Grouping *)

Section GroupByFacts.

Import Frame.

Variable K : Type.
Variable cmp : K -> K -> comparison.
Hypothesis cmp_eq : forall a b, cmp a b = Eq <-> a = b.
Hypothesis cmp_antisym : forall a b, cmp a b = CompOpp (cmp b a).
Hypothesis cmp_trans : forall a b c, cmp a b = Lt -> cmp b c = Lt -> cmp a c = Lt.

Local Abbreviation key_lt := (Spec.key_lt cmp).
Local Abbreviation get := (Spec.get cmp).
Local Abbreviation occ := (Spec.occ cmp).
Local Abbreviation is_eq := Spec.is_eq.

Lemma cmp_refl (a : K) : cmp a a = Eq.
Proof. now apply cmp_eq. Qed.

Lemma cmp_gt_lt (a b : K) : cmp a b = Gt -> cmp b a = Lt.
Proof. intros H. rewrite cmp_antisym, H. reflexivity. Qed.

Lemma bump_keys (k : K) (l : list (K * nat)) (x : K * nat) :
  In x (bump cmp k l) -> fst x = k \/ exists y, In y l /\ fst y = fst x.
Proof.
  induction l as [|[k' n] l IH]; simpl.
  - intros [<-|[]]; auto.
  - destruct (cmp k k') eqn:C; simpl.
    + intros [<-|I]; right; [exists (k', n) | exists x]; simpl; auto.
    + intros [<-|[<-|I]]; auto; right; [exists (k', n) | exists x]; simpl; auto.
    + intros [<-|I]; [right; exists (k', n); simpl; auto|].
      destruct (IH I) as [E|(y & Iy & E)]; auto. right; exists y; auto.
Qed.

Lemma bump_sorted (k : K) (l : list (K * nat)) :
  StronglySorted key_lt l -> StronglySorted key_lt (bump cmp k l).
Proof.
  induction l as [|[k' n] l IH]; simpl; intros S.
  - repeat constructor.
  - inversion S as [|? ? S' F]; subst.
    destruct (cmp k k') eqn:C.
    + constructor; auto.
    + constructor; auto. constructor; [exact C|].
      eapply Forall_impl; [|exact F]. intros y Hy. unfold key_lt in *; simpl in *.
      eapply cmp_trans; eauto.
    + constructor; auto. apply Forall_forall. intros x I.
      destruct (bump_keys _ _ _ I) as [E|(y & Iy & E)]; unfold key_lt; simpl.
      * rewrite E. now apply cmp_gt_lt.
      * rewrite <- E. rewrite Forall_forall in F. apply (F y Iy).
Qed.

Lemma get_above (k : K) (l : list (K * nat)) :
  Forall (fun x => cmp k (fst x) = Lt) l -> get k l = 0.
Proof.
  induction 1 as [|[k' n] l H F IH]; simpl; [reflexivity|].
  simpl in H. now rewrite H.
Qed.

Lemma get_bump (k k' : K) (l : list (K * nat)) :
  StronglySorted key_lt l ->
  get k (bump cmp k' l) = get k l + (if is_eq (cmp k k') then 1 else 0).
Proof.
  induction l as [|[k0 n] l IH]; simpl; intros S.
  - destruct (cmp k k'); simpl; lia.
  - inversion S as [|? ? S' F]; subst.
    destruct (cmp k' k0) eqn:C; simpl.
    + apply cmp_eq in C; subst k0. destruct (cmp k k'); simpl; lia.
    + destruct (cmp k k') eqn:C1; simpl; try lia.
      apply cmp_eq in C1; subst k'. rewrite C; simpl.
      rewrite get_above; [lia|].
      eapply Forall_impl; [|exact F]. intros y Hy. unfold key_lt in Hy; simpl in Hy.
      eapply cmp_trans; eauto.
    + destruct (cmp k k0) eqn:C0; simpl.
      * apply cmp_eq in C0; subst k0. rewrite cmp_antisym, C; simpl. lia.
      * auto.
      * auto.
Qed.

Lemma bump_positive (k : K) (l : list (K * nat)) :
  Forall (fun x => 1 <= snd x) l -> Forall (fun x => 1 <= snd x) (bump cmp k l).
Proof.
  induction 1 as [|[k' n] l H F IH]; simpl.
  - repeat constructor.
  - destruct (cmp k k'); repeat constructor; simpl in *; auto; lia.
Qed.

Lemma fold_bump (keys : list K) (acc : list (K * nat)) :
  StronglySorted key_lt acc -> Forall (fun x => 1 <= snd x) acc ->
  let out := fold_left (fun groups k => bump cmp k groups) keys acc in
  StronglySorted key_lt out
  /\ Forall (fun x => 1 <= snd x) out
  /\ forall k, get k out = get k acc + occ k keys.
Proof.
  revert acc; induction keys as [|k' keys IH]; intros acc S P; simpl.
  - split; [exact S|]. split; [exact P|].
    intros k; unfold occ, count; simpl; lia.
  - destruct (IH (bump cmp k' acc) (bump_sorted _ _ S) (bump_positive _ _ P))
      as (S' & P' & G).
    split; [exact S'|]. split; [exact P'|].
    intros k. rewrite G, get_bump by auto.
    unfold occ, count; simpl. destruct (cmp k k'); simpl; lia.
Qed.

Lemma get_in (k : K) (n : nat) (l : list (K * nat)) :
  StronglySorted key_lt l -> In (k, n) l -> get k l = n.
Proof.
  induction l as [|[k0 n0] l IH]; simpl; intros S I; [destruct I|].
  inversion S as [|? ? S' F]; subst.
  destruct I as [E|I].
  - inversion E; subst. now rewrite cmp_refl.
  - rewrite Forall_forall in F. specialize (F _ I). unfold key_lt in F; simpl in F.
    rewrite cmp_antisym, F; simpl. auto.
Qed.

Lemma in_get (k : K) (l : list (K * nat)) :
  get k l <> 0 -> In (k, get k l) l.
Proof.
  induction l as [|[k0 n0] l IH]; simpl; intros H; [now elim H|].
  destruct (cmp k k0) eqn:C; simpl in *; auto.
  apply cmp_eq in C; subst; auto.
Qed.

(** [groupby(keys).size()]: the keys strictly ascending, one row for each
    key that occurs, with the number of its occurrences. *)
Lemma groupby_size_spec (keys : list K) :
  StronglySorted key_lt (groupby_size cmp keys)
  /\ forall k n, In (k, n) (groupby_size cmp keys) <-> n = occ k keys /\ 1 <= n.
Proof.
  destruct (fold_bump keys [] (SSorted_nil _) (Forall_nil _)) as (S & P & G).
  change (fold_left (fun groups k => bump cmp k groups) keys []) with (groupby_size cmp keys) in *. split; [exact S|].
  intros k n; split.
  - intros I. split.
    + rewrite <- (get_in k n _ S I). rewrite G. reflexivity.
    + rewrite Forall_forall in P. apply (P _ I).
  - intros [-> H]. specialize (G k); simpl in G. rewrite <- G.
    apply in_get. rewrite G. lia.
Qed.

End GroupByFacts.

(** ** The orders on keys *)

Section OrderFacts.

Import Calendar Spec.
Local Open Scope Z_scope.

Lemma Z_cmp_eq (a b : Z) : (a ?= b) = Eq <-> a = b.
Proof. apply Z.compare_eq_iff. Qed.

Lemma Z_cmp_antisym (a b : Z) : (a ?= b) = CompOpp (b ?= a).
Proof. apply Z.compare_antisym. Qed.

Lemma Z_cmp_trans (a b c : Z) : (a ?= b) = Lt -> (b ?= c) = Lt -> (a ?= c) = Lt.
Proof. rewrite !Z.compare_lt_iff; lia. Qed.

Lemma month_cmp_eq (a b : Z * Z) : month_compare a b = Eq <-> a = b.
Proof.
  destruct a as [y1 m1], b as [y2 m2]; simpl.
  destruct (Z.compare_spec y1 y2); [destruct (Z.compare_spec m1 m2)| |];
    split; intros H'; try discriminate; try congruence;
    inversion H'; lia.
Qed.

Lemma month_cmp_antisym (a b : Z * Z) :
  month_compare a b = CompOpp (month_compare b a).
Proof.
  destruct a as [y1 m1], b as [y2 m2]; simpl.
  rewrite (Z.compare_antisym y1 y2), (Z.compare_antisym m1 m2).
  destruct (y1 ?= y2), (m1 ?= m2); reflexivity.
Qed.

Lemma month_cmp_lt (a b : Z * Z) : month_compare a b = Lt <-> month_before a b.
Proof.
  destruct a as [y1 m1], b as [y2 m2]; unfold month_before; simpl.
  destruct (Z.compare_spec y1 y2); [destruct (Z.compare_spec m1 m2)| |];
    split; intros H'; try discriminate; try reflexivity; lia.
Qed.

Lemma month_cmp_trans (a b c : Z * Z) :
  month_compare a b = Lt -> month_compare b c = Lt -> month_compare a c = Lt.
Proof.
  rewrite !month_cmp_lt.
  destruct a as [y1 m1], b as [y2 m2], c as [y3 m3]; unfold month_before; lia.
Qed.

Lemma date_cmp_eq (a b : Z * Z * Z) : date_compare a b = Eq <-> a = b.
Proof.
  destruct a as [[y1 m1] d1], b as [[y2 m2] d2]; simpl.
  destruct (Z.compare_spec y1 y2);
    [destruct (Z.compare_spec m1 m2); [destruct (Z.compare_spec d1 d2)| |]| |];
    split; intros H'; try discriminate; try congruence;
    inversion H'; lia.
Qed.

Lemma date_cmp_antisym (a b : Z * Z * Z) :
  date_compare a b = CompOpp (date_compare b a).
Proof.
  destruct a as [[y1 m1] d1], b as [[y2 m2] d2]; simpl.
  rewrite (Z.compare_antisym y1 y2), (Z.compare_antisym m1 m2),
    (Z.compare_antisym d1 d2).
  destruct (y1 ?= y2), (m1 ?= m2), (d1 ?= d2); reflexivity.
Qed.

Lemma date_cmp_lt (a b : Z * Z * Z) : date_compare a b = Lt <-> date_before a b.
Proof.
  destruct a as [[y1 m1] d1], b as [[y2 m2] d2]; unfold date_before; simpl.
  destruct (Z.compare_spec y1 y2);
    [destruct (Z.compare_spec m1 m2); [destruct (Z.compare_spec d1 d2)| |]| |];
    split; intros H'; try discriminate; try reflexivity; lia.
Qed.

Lemma date_cmp_trans (a b c : Z * Z * Z) :
  date_compare a b = Lt -> date_compare b c = Lt -> date_compare a c = Lt.
Proof.
  rewrite !date_cmp_lt.
  destruct a as [[y1 m1] d1], b as [[y2 m2] d2], c as [[y3 m3] d3].
  unfold date_before; lia.
Qed.

End OrderFacts.

Section StringOrder.

Import Calendar.

Lemma ascii_cmp_refl (a : ascii) : Ascii.compare a a = Eq.
Proof. apply N.compare_refl. Qed.

Lemma string_cmp_refl (s : string) : String.compare s s = Eq.
Proof.
  induction s as [|c s IH]; simpl; [reflexivity|]. now rewrite ascii_cmp_refl.
Qed.

Lemma string_cmp_eq (a b : string) : String.compare a b = Eq <-> a = b.
Proof.
  split; [apply String.compare_eq_iff | intros ->; apply string_cmp_refl].
Qed.

Lemma string_cmp_trans (a b c : string) :
  String.compare a b = Lt -> String.compare b c = Lt -> String.compare a c = Lt.
Proof.
  revert b c; induction a as [|x a IH]; intros [|y b] [|z c]; simpl;
    try discriminate; auto.
  destruct (Ascii.compare x y) eqn:XY; try discriminate;
    destruct (Ascii.compare y z) eqn:YZ; try discriminate; intros H1 H2.
  - apply Ascii.compare_eq_iff in XY, YZ; subst. rewrite ascii_cmp_refl. eauto.
  - apply Ascii.compare_eq_iff in XY; subst. now rewrite YZ.
  - apply Ascii.compare_eq_iff in YZ; subst. now rewrite XY.
  - unfold Ascii.compare in *. rewrite N.compare_lt_iff in *.
    rewrite (proj2 (N.compare_lt_iff _ _)); [reflexivity | lia].
Qed.

Local Open Scope Z_scope.

Lemma digit_compare (a b : Z) :
  0 <= a <= 9 -> 0 <= b <= 9 -> Ascii.compare (digit a) (digit b) = (a ?= b).
Proof.
  intros A B.
  assert (Ha : a = 0 \/ a = 1 \/ a = 2 \/ a = 3 \/ a = 4 \/ a = 5 \/ a = 6
               \/ a = 7 \/ a = 8 \/ a = 9) by lia.
  assert (Hb : b = 0 \/ b = 1 \/ b = 2 \/ b = 3 \/ b = 4 \/ b = 5 \/ b = 6
               \/ b = 7 \/ b = 8 \/ b = 9) by lia.
  repeat (destruct Ha as [->|Ha]); try subst a;
    repeat (destruct Hb as [->|Hb]); try subst b; reflexivity.
Qed.

Lemma string_cmp_cons (a b : ascii) (s t : string) :
  String.compare (String a s) (String b t)
  = match Ascii.compare a b with
    | Eq => String.compare s t
    | c => c
    end.
Proof. simpl. now destruct (Ascii.compare a b). Qed.

Lemma mod10_digit (x : Z) : 0 <= x mod 10 <= 9.
Proof. pose proof (Z.mod_pos_bound x 10); lia. Qed.

Lemma digits4 (y : Z) :
  0 <= y < 10000 ->
  y = 1000 * (y / 1000 mod 10) + 100 * (y / 100 mod 10)
      + 10 * (y / 10 mod 10) + y mod 10.
Proof. intros H. Z.div_mod_to_equations. lia. Qed.

Lemma digits2 (m : Z) :
  0 <= m < 100 -> m = 10 * (m / 10 mod 10) + m mod 10.
Proof. intros H. Z.div_mod_to_equations. lia. Qed.

Ltac settle_compare :=
  repeat match goal with
    | |- context [?a ?= ?b] =>
        first [ rewrite (proj2 (Z.compare_eq_iff a b)) by lia
              | rewrite (proj2 (Z.compare_lt_iff a b)) by lia
              | rewrite (proj2 (Z.compare_gt_iff a b)) by lia ]
    end.

(** On four-digit years text order of ["%Y-%m"] is calendar order. *)
Lemma strftime_compare (y1 m1 y2 m2 : Z) :
  0 <= y1 < 10000 -> 0 <= y2 < 10000 -> 0 <= m1 < 100 -> 0 <= m2 < 100 ->
  String.compare (strftime_Ym y1 m1) (strftime_Ym y2 m2)
  = month_compare (y1, m1) (y2, m2).
Proof.
  intros Y1 Y2 M1 M2. unfold strftime_Ym, month_compare.
  rewrite !string_cmp_cons, ascii_cmp_refl.
  rewrite !digit_compare by apply mod10_digit.
  pose proof (digits4 y1 Y1) as E1. pose proof (digits4 y2 Y2) as E2.
  pose proof (digits2 m1 M1) as F1. pose proof (digits2 m2 M2) as F2.
  pose proof (mod10_digit (y1 / 1000)). pose proof (mod10_digit (y1 / 100)).
  pose proof (mod10_digit (y1 / 10)). pose proof (mod10_digit y1).
  pose proof (mod10_digit (y2 / 1000)). pose proof (mod10_digit (y2 / 100)).
  pose proof (mod10_digit (y2 / 10)). pose proof (mod10_digit y2).
  pose proof (mod10_digit (m1 / 10)). pose proof (mod10_digit m1).
  pose proof (mod10_digit (m2 / 10)). pose proof (mod10_digit m2).
  revert E1 E2 F1 F2.
  generalize dependent (y1 / 1000 mod 10). generalize dependent (y1 / 100 mod 10).
  generalize dependent (y1 / 10 mod 10). generalize dependent (y1 mod 10).
  generalize dependent (y2 / 1000 mod 10). generalize dependent (y2 / 100 mod 10).
  generalize dependent (y2 / 10 mod 10). generalize dependent (y2 mod 10).
  generalize dependent (m1 / 10 mod 10). generalize dependent (m1 mod 10).
  generalize dependent (m2 / 10 mod 10). generalize dependent (m2 mod 10).
  intros. subst y1 y2 m1 m2.
  destruct (Z.compare_spec z10 z6); [|settle_compare; reflexivity ..].
  destruct (Z.compare_spec z9 z5); [|settle_compare; reflexivity ..].
  destruct (Z.compare_spec z8 z4); [|settle_compare; reflexivity ..].
  destruct (Z.compare_spec z7 z3); [|settle_compare; reflexivity ..].
  destruct (Z.compare_spec z2 z0); [|settle_compare; reflexivity ..].
  destruct (Z.compare_spec z1 z); settle_compare; reflexivity.
Qed.

End StringOrder.

(** ** The helpers *)

Section HelperFacts.

Import Calendar Frame Helper Spec.

Lemma StronglySorted_weaken {A : Type} (R Q : A -> A -> Prop) (l : list A) :
  (forall a b, R a b -> Q a b) -> StronglySorted R l -> StronglySorted Q l.
Proof.
  intros W; induction 1 as [|a l S IH F]; constructor; auto.
  eapply Forall_impl; [|exact F]. auto.
Qed.

Lemma select_filter {A : Type} (p : A -> bool) (l : list A) :
  select (map p l) l = filter p l.
Proof.
  induction l as [|a l IH]; simpl; [reflexivity|].
  destruct (p a); now rewrite IH.
Qed.

Lemma rows_filter_user (selected_user : string) (df : DataFrame) :
  rows (filter_user selected_user df)
  = filter (fun r => String.eqb (user r) selected_user) (rows df).
Proof. unfold filter_user; simpl. apply select_filter. Qed.

Lemma work_rows (selected_user : string) (df : DataFrame) :
  rows (if specific selected_user then filter_user selected_user df else df)
  = selected selected_user df.
Proof.
  unfold selected. destruct (specific selected_user); [apply rows_filter_user | reflexivity].
Qed.

Lemma column_assign (name : string) (c : list string)
  (cols : list (string * list string)) :
  column name (assign name c cols) = Some c.
Proof.
  induction cols as [|[n c'] cols IH]; simpl.
  - now rewrite String.eqb_refl.
  - destruct (String.eqb n name) eqn:E; simpl; rewrite E; auto.
Qed.

Lemma bump_embed {A B : Type} (cmpA : A -> A -> comparison)
  (cmpB : B -> B -> comparison) (f : A -> B) (P : A -> Prop) :
  (forall a b, P a -> P b -> cmpB (f a) (f b) = cmpA a b) ->
  forall k l, P k -> Forall (fun x => P (fst x)) l ->
    bump cmpB (f k) (map (fun x => (f (fst x), snd x)) l)
    = map (fun x => (f (fst x), snd x)) (bump cmpA k l).
Proof.
  intros E k l Pk; induction 1 as [|[k' n] l Pk' F IH]; simpl; [reflexivity|].
  simpl in Pk'. rewrite (E k k' Pk Pk').
  destruct (cmpA k k'); simpl; try reflexivity. now rewrite IH.
Qed.

Lemma bump_keep {A : Type} (cmpA : A -> A -> comparison) (P : A -> Prop) (k : A)
  (l : list (A * nat)) :
  P k -> Forall (fun x => P (fst x)) l -> Forall (fun x => P (fst x)) (bump cmpA k l).
Proof.
  intros Pk F. apply Forall_forall. intros x I.
  destruct (bump_keys _ _ _ _ _ I) as [->|(y & Iy & <-)]; auto.
  rewrite Forall_forall in F. now apply F.
Qed.

(** Grouping by keys whose order mirrors the order of what they stand
    for is grouping by what they stand for. *)
Lemma groupby_size_embed {A B : Type} (cmpA : A -> A -> comparison)
  (cmpB : B -> B -> comparison) (f : A -> B) (P : A -> Prop) :
  (forall a b, P a -> P b -> cmpB (f a) (f b) = cmpA a b) ->
  forall keys, Forall P keys ->
    groupby_size cmpB (map f keys)
    = map (fun x => (f (fst x), snd x)) (groupby_size cmpA keys).
Proof.
  intros E keys F. unfold groupby_size.
  change (@nil (B * nat)) with (map (fun x : A * nat => (f (fst x), snd x)) []).
  assert (G : Forall (fun x : A * nat => P (fst x)) []) by constructor.
  revert G. generalize (@nil (A * nat)) as acc.
  induction F as [|k keys Pk F IH]; intros acc G; simpl; [reflexivity|].
  rewrite (bump_embed cmpA cmpB f P E) by auto.
  apply IH. now apply bump_keep.
Qed.

Lemma groupby_Z (keys : list Z) :
  StronglySorted (key_lt Z.compare) (groupby_size Z.compare keys)
  /\ forall k n,
      In (k, n) (groupby_size Z.compare keys) <->
      n = occ Z.compare k keys /\ 1 <= n.
Proof.
  apply groupby_size_spec; [apply Z_cmp_eq | apply Z_cmp_antisym | apply Z_cmp_trans].
Qed.

Lemma groupby_month (keys : list (Z * Z)) :
  StronglySorted (key_lt month_compare) (groupby_size month_compare keys)
  /\ forall k n,
      In (k, n) (groupby_size month_compare keys) <->
      n = occ month_compare k keys /\ 1 <= n.
Proof.
  apply groupby_size_spec;
    [apply month_cmp_eq | apply month_cmp_antisym | apply month_cmp_trans].
Qed.

Lemma groupby_date (keys : list (Z * Z * Z)) :
  StronglySorted (key_lt date_compare) (groupby_size date_compare keys)
  /\ forall k n,
      In (k, n) (groupby_size date_compare keys) <->
      n = occ date_compare k keys /\ 1 <= n.
Proof.
  apply groupby_size_spec;
    [apply date_cmp_eq | apply date_cmp_antisym | apply date_cmp_trans].
Qed.

Lemma groupby_string (keys : list string) :
  StronglySorted (key_lt String.compare) (groupby_size String.compare keys)
  /\ forall k n,
      In (k, n) (groupby_size String.compare keys) <->
      n = occ String.compare k keys /\ 1 <= n.
Proof.
  apply groupby_size_spec;
    [apply string_cmp_eq | apply String.compare_antisym | apply string_cmp_trans].
Qed.

Lemma selected_valid (selected_user : string) (df : DataFrame) :
  valid_table df ->
  Forall (fun r => Calendar.valid (date r) = true) (selected selected_user df).
Proof.
  unfold valid_table, selected. intros V.
  destruct (specific selected_user); [|exact V].
  apply Forall_forall. intros r I. apply filter_In in I as [I _].
  rewrite Forall_forall in V. now apply V.
Qed.

Lemma monthly_counts_months (selected_user : string) (df : DataFrame) :
  valid_table df ->
  fst (plot_monthly_timeline selected_user df)
  = map (fun x => (strftime_Ym (fst (fst x)) (snd (fst x)), snd x))
      (groupby_size month_compare (map month_of (selected selected_user df))).
Proof.
  intros V. unfold plot_monthly_timeline. cbn [fst added]. rewrite column_assign, work_rows.
  pose proof (selected_valid selected_user df V) as Vs.
  rewrite <- (groupby_size_embed month_compare String.compare
                (fun ym => strftime_Ym (fst ym) (snd ym))
                (fun ym => (0 <= fst ym < 10000 /\ 0 <= snd ym < 100)%Z)).
  - now rewrite map_map.
  - intros [y1 m1] [y2 m2] [Y1 M1] [Y2 M2]; cbn [fst snd] in *.
    now apply strftime_compare.
  - apply Forall_map. eapply Forall_impl; [|exact Vs].
    intros r Hr. unfold month_of, Calendar.valid in Hr |- *; cbn [fst snd].
    rewrite !andb_true_iff, !Z.leb_le in Hr. lia.
Qed.

End HelperFacts.

(** C8. For every table of valid timestamps and every choice in the
    selector, the rows of the monthly summary are the calendar months that
    occur, rendered ["%Y-%m"], in strictly increasing calendar order, and
    the rows of the daily summary are the dates that occur in strictly
    increasing calendar order, each with the number of its records. *)
Theorem timelines_chronological (selected_user : string) (df : Frame.DataFrame) :
  Spec.valid_table df ->
  (exists months : list (Z * Z * nat),
      fst (Helper.plot_monthly_timeline selected_user df)
      = map (fun x => (Calendar.strftime_Ym (fst (fst x)) (snd (fst x)), snd x)) months
      /\ StronglySorted (fun a b => Spec.month_before (fst a) (fst b)) months
      /\ forall ym n,
          In (ym, n) months <->
          n = Spec.occ Calendar.month_compare ym
                (map Spec.month_of (Spec.selected selected_user df))
          /\ 1 <= n)
  /\ StronglySorted (fun a b => Spec.date_before (fst a) (fst b))
       (Helper.plot_daily_timeline selected_user df)
  /\ forall d n,
      In (d, n) (Helper.plot_daily_timeline selected_user df) <->
      n = Spec.occ Calendar.date_compare d
            (map Spec.day_of (Spec.selected selected_user df))
      /\ 1 <= n.
Proof.
  intros V. split; [|split].
  - exists (Frame.groupby_size Calendar.month_compare
              (map Spec.month_of (Spec.selected selected_user df))).
    split; [now apply monthly_counts_months|].
    destruct (groupby_month (map Spec.month_of (Spec.selected selected_user df)))
      as [S I].
    split; [|exact I].
    eapply StronglySorted_weaken; [|exact S].
    intros a b H. now apply month_cmp_lt.
  - unfold Helper.plot_daily_timeline. rewrite work_rows.
    destruct (groupby_date (map Spec.day_of (Spec.selected selected_user df)))
      as [S _].
    eapply StronglySorted_weaken; [|exact S].
    intros a b H. now apply date_cmp_lt.
  - unfold Helper.plot_daily_timeline. rewrite work_rows.
    apply (groupby_date (map Spec.day_of (Spec.selected selected_user df))).
Qed.
Example preprocess_chat_winter :
  Preprocessor.preprocess Spec.chat_winter = OK Spec.table_winter.
Proof. reflexivity. Qed.

Lemma timelines_chronological_witness :
  Spec.valid_table Spec.table_winter
  /\ map fst (fst (Helper.plot_monthly_timeline "Overall" Spec.table_winter))
     = ["2023-12"; "2024-01"; "2024-02"]
  /\ StronglySorted (fun a b => Spec.date_before (fst a) (fst b))
       (Helper.plot_daily_timeline "Overall" Spec.table_winter).
Proof.
  split; [repeat constructor|]. split; [reflexivity|].
  apply (timelines_chronological "Overall" Spec.table_winter).
  repeat constructor.
Defined.

Section ActivityFacts.

Import Calendar Frame Helper Spec.

Variable K : Type.
Variable cmp : K -> K -> comparison.
Hypothesis cmp_eq : forall a b, cmp a b = Eq <-> a = b.

Lemma occ_positive (k : K) (keys : list K) :
  1 <= occ cmp k keys <-> In k keys.
Proof.
  unfold occ, count. induction keys as [|k' keys IH]; simpl; [split; [lia | tauto]|].
  destruct (cmp k k') eqn:C; simpl.
  - apply cmp_eq in C; subst. split; [auto | lia].
  - rewrite IH. split; [auto | intros [E|I]; auto].
    subst. rewrite (proj2 (cmp_eq k k) eq_refl) in C. discriminate.
  - rewrite IH. split; [auto | intros [E|I]; auto].
    subst. rewrite (proj2 (cmp_eq k k) eq_refl) in C. discriminate.
Qed.

End ActivityFacts.

Section ActivityRows.

Import Calendar Frame Helper Spec.

Lemma sorted_keys_Z (l : list (Z * nat)) :
  StronglySorted (key_lt Z.compare) l ->
  StronglySorted (fun a b => (fst a < fst b)%Z) l.
Proof.
  apply StronglySorted_weaken. intros a b H. now apply Z.compare_lt_iff.
Qed.

End ActivityRows.

(** C2, as the code has it.  The weekday summary has exactly seven rows,
    Monday to Sunday, each with the number of selected records on that
    weekday, zero included.  The hour summary has one row for each hour of
    the day that occurs among the selected records, hours ascending, with
    the number of its records; an hour without records has no row. *)
Theorem activity_rows (df : Frame.DataFrame) (selected_user : string) :
  map fst (Spec.weekly_activity df selected_user) = Calendar.day_order
  /\ List.length (Spec.weekly_activity df selected_user) = 7
  /\ (forall d n,
         In (d, n) (Spec.weekly_activity df selected_user) ->
         n = Frame.count (String.eqb d)
               (map Spec.weekday_of (Spec.selected selected_user df)))
  /\ StronglySorted (fun a b => (fst a < fst b)%Z)
       (Spec.hourly_activity df selected_user)
  /\ (forall h n,
         In (h, n) (Spec.hourly_activity df selected_user) <->
         n = Spec.occ Z.compare h (map Spec.hour_of (Spec.selected selected_user df))
         /\ 1 <= n).
Proof.
  unfold Spec.weekly_activity, Spec.hourly_activity,
    Helper.plot_interactive_activity_analysis.
  cbn [fst snd Frame.added Frame.rows]. rewrite column_assign, work_rows.
  split; [reflexivity|]. split; [reflexivity|]. split; [|split].
  - intros d n I. unfold Frame.groupby_categorical in I.
    apply in_map_iff in I as (c & E & _). now inversion E.
  - apply sorted_keys_Z.
    apply (groupby_Z (map Spec.hour_of (Spec.selected selected_user df))).
  - apply (groupby_Z (map Spec.hour_of (Spec.selected selected_user df))).
Qed.

(** C2, as the claim words it, fails: the hour summary of a chat with
    messages at 9, 10 and 21 o'clock has three rows. *)
Lemma activity_not_zero_filled : ~ Spec.activity_zero_filled.
Proof.
  intros H. destruct (H Spec.table_winter "Overall") as [_ H24].
  vm_compute in H24. discriminate H24.
Qed.

Section MediaFacts.

Import Calendar Frame Helper Preprocessor Spec.

Lemma combine_built (ds : list datetime) (ums : list (string * string)) :
  Forall built (map (fun x => build_row (fst x) (snd x)) (combine ds ums)).
Proof.
  revert ums; induction ds as [|d ds IH]; intros [|[u m] ums]; simpl;
    constructor; auto. reflexivity.
Qed.

(** Every record [preprocess] returns has its derived columns computed
    from its timestamp and content, and no column has been added. *)
Lemma preprocess_built_rows (data : string) (df : DataFrame) :
  preprocess data = OK df -> Forall built (rows df) /\ added df = [].
Proof.
  unfold preprocess. destruct (tokenize data) as [toks|]; simpl; [|discriminate].
  destruct (parse_dates (map snd toks)) as [ds|]; simpl; [|discriminate].
  destruct (mapM classify (map fst toks)) as [ums|]; simpl; [|discriminate].
  intros H; inversion H; subst; simpl. split; [apply combine_built | reflexivity].
Qed.

Lemma count_le {A : Type} (p q : A -> bool) (l : list A) :
  Forall (fun a => p a = true -> q a = true) l -> count p l <= count q l.
Proof.
  unfold count. induction 1 as [|a l H F IH]; simpl; [lia|].
  destruct (p a); [rewrite H by reflexivity; simpl; lia|].
  destruct (q a); simpl; lia.
Qed.

Lemma selected_incl (selected_user : string) (df : DataFrame) (r : row) :
  In r (selected selected_user df) -> In r (rows df).
Proof.
  unfold selected. destruct (specific selected_user); auto.
  intros I. now apply filter_In in I.
Qed.

Lemma built_placeholder (r : row) :
  built r -> message_content r = "<Media omitted>" -> is_media r = true.
Proof. intros B E. rewrite B. simpl. rewrite E. reflexivity. Qed.

End MediaFacts.

(** C1, as the code has it.  On a table [preprocess] returns, the media
    count of [fetch_stats] is the number of selected records whose content
    is exactly the placeholder; each of them is flagged [is_media], so the
    media count is at most the number of flagged records. *)
Theorem media_count_exact (data : string) (df : Frame.DataFrame)
  (selected_user : string) :
  Preprocessor.preprocess data = OK df ->
  Spec.media_count selected_user df
  = Frame.count (fun r => String.eqb (Frame.message_content r) "<Media omitted>")
      (Spec.selected selected_user df)
  /\ Forall (fun r => Frame.message_content r = "<Media omitted>" ->
                      Frame.is_media r = true) (Frame.rows df)
  /\ Spec.media_count selected_user df <= Spec.flagged selected_user df.
Proof.
  intros P. apply preprocess_built_rows in P as [B _].
  assert (M : Spec.media_count selected_user df
              = Frame.count (fun r => String.eqb (Frame.message_content r) "<Media omitted>")
                  (Spec.selected selected_user df)).
  { unfold Spec.media_count, Helper.fetch_stats. cbn [fst snd]. now rewrite work_rows. }
  split; [exact M|]. split.
  - eapply Forall_impl; [|exact B]. intros r Br. now apply built_placeholder.
  - rewrite M. unfold Spec.flagged. apply count_le. apply Forall_forall.
    intros r I E. apply String.eqb_eq in E. apply built_placeholder; auto.
    rewrite Forall_forall in B. apply B. eapply selected_incl; eauto.
Qed.

Lemma media_count_exact_witness :
  Preprocessor.preprocess Spec.chat_winter = OK Spec.table_winter
  /\ Spec.media_count "Bob" Spec.table_winter <= Spec.flagged "Bob" Spec.table_winter.
Proof.
  split; [reflexivity|].
  apply (media_count_exact Spec.chat_winter Spec.table_winter "Bob"). reflexivity.
Defined.

(** C1, as the claim words it, fails: a message whose text contains the
    placeholder among other words is flagged [is_media] and is not counted
    as media. *)
Lemma media_count_not_flag_count : ~ Spec.media_count_is_flag_count.
Proof.
  intros H. specialize (H Spec.chat_winter Spec.table_winter "Overall" eq_refl).
  vm_compute in H. discriminate H.
Qed.

Section GridFacts.

Import Calendar Frame Helper Spec.

Lemma groupby_keys {K : Type} (cmp : K -> K -> comparison) (keys : list K) (k : K) :
  (forall a b, cmp a b = Eq <-> a = b) ->
  (forall a b, cmp a b = CompOpp (cmp b a)) ->
  (forall a b c, cmp a b = Lt -> cmp b c = Lt -> cmp a c = Lt) ->
  In k (map fst (groupby_size cmp keys)) <-> In k keys.
Proof.
  intros E A T. destruct (groupby_size_spec K cmp E A T keys) as [_ I].
  split.
  - intros H. apply in_map_iff in H as ([k' n] & <- & H).
    apply I in H as [-> H]. now apply (occ_positive K cmp E).
  - intros H. apply (occ_positive K cmp E) in H.
    apply in_map_iff. exists (k, occ cmp k keys). split; [reflexivity|].
    apply I. auto.
Qed.

Lemma sorted_fst {K : Type} (R : K -> K -> Prop) (l : list (K * nat)) :
  StronglySorted (fun a b => R (fst a) (fst b)) l -> StronglySorted R (map fst l).
Proof.
  induction 1 as [|a l S IH F]; simpl; constructor; auto.
  apply Forall_map. exact F.
Qed.

Lemma loc_map (F : string -> list cell) (d : string) (index : list string) :
  In d index -> loc d index (map F index) = Some (F d).
Proof.
  induction index as [|l index IH]; simpl; [tauto|].
  destruct (String.eqb_spec l d) as [->|N]; [reflexivity|].
  intros [E|I]; [now elim N | auto].
Qed.

Lemma loc_in (d : string) (index : list string) (cells : list (list cell))
  (r : list cell) :
  loc d index cells = Some r -> In r cells.
Proof.
  revert cells; induction index as [|l index IH]; intros [|c cells]; simpl;
    try discriminate.
  destruct (String.eqb l d); [intros H; inversion H; auto | eauto].
Qed.

Lemma count_map {A B : Type} (f : A -> B) (p : B -> bool) (l : list A) :
  count p (map f l) = count (fun a => p (f a)) l.
Proof.
  unfold count. induction l as [|a l IH]; simpl; [reflexivity|].
  destruct (p (f a)); simpl; now rewrite IH.
Qed.

Lemma heatmap_unfold (df : DataFrame) :
  heatmap_data df = reindex day_order (fillna 0 (pivot_count (heat_keys df))).
Proof.
  unfold heatmap_data, plot_activity_heatmap_matplotlib, heat_keys.
  cbn [fst rows]. now rewrite map_map.
Qed.

Lemma heat_columns (df : DataFrame) :
  g_columns (heatmap_data df)
  = map fst (groupby_size Z.compare (map hour_of (rows df))).
Proof.
  rewrite heatmap_unfold. unfold heat_keys. cbn. now rewrite map_map.
Qed.

Lemma heat_index (df : DataFrame) (d : string) :
  In d (g_index (pivot_count (heat_keys df))) <-> In d (map weekday_of (rows df)).
Proof.
  unfold pivot_count, heat_keys; cbn [g_index]. rewrite map_map. cbn [fst].
  apply groupby_keys;
    [apply string_cmp_eq | apply String.compare_antisym | apply string_cmp_trans].
Qed.

Lemma fill_row (keys : list (string * Z)) (d : string) (columns : list Z) :
  map (fun c => match c with NaN => Num 0 | _ => c end)
    (map (fun h =>
            match count (fun k => String.eqb (fst k) d && Z.eqb (snd k) h) keys with
            | O => NaN
            | n => Num n
            end) columns)
  = map (fun h => Num (count (fun k => String.eqb (fst k) d && Z.eqb (snd k) h) keys))
      columns.
Proof.
  rewrite map_map. apply map_ext. intros h.
  now destruct (count _ keys).
Qed.

Lemma heat_row (df : DataFrame) (d : string) :
  In d (map weekday_of (rows df)) ->
  loc d (g_index (fillna 0 (pivot_count (heat_keys df))))
    (g_cells (fillna 0 (pivot_count (heat_keys df))))
  = Some (map (fun h =>
                 Num (count (fun r => String.eqb (weekday_of r) d
                                      && Z.eqb (hour_of r) h) (rows df)))
            (g_columns (heatmap_data df))).
Proof.
  intros I. apply heat_index in I.
  rewrite heatmap_unfold. unfold fillna, reindex. cbn [g_index g_cells g_columns].
  unfold pivot_count in *. cbn [g_index g_cells g_columns] in *.
  rewrite map_map.
  rewrite (loc_map _ d _ I). f_equal. rewrite fill_row.
  apply map_ext. intros h. f_equal. unfold heat_keys. now rewrite count_map.
Qed.

End GridFacts.

(** C3, as the code has it.  The heatmap grid has seven rows labelled
    Monday to Sunday; its columns are the hours that occur in the table,
    ascending; every row has one cell per column; and in the row of a
    weekday that occurs in the table every cell holds the number of
    records of that weekday and hour, zero when there is none. *)
Theorem heatmap_grid (df : Frame.DataFrame) :
  Frame.g_index (Spec.heatmap_data df) = Calendar.day_order
  /\ List.length (Frame.g_cells (Spec.heatmap_data df)) = 7
  /\ StronglySorted Z.lt (Frame.g_columns (Spec.heatmap_data df))
  /\ (forall h, In h (Frame.g_columns (Spec.heatmap_data df)) <->
                In h (map Spec.hour_of (Frame.rows df)))
  /\ Forall (fun r => List.length r = List.length (Frame.g_columns (Spec.heatmap_data df)))
       (Frame.g_cells (Spec.heatmap_data df))
  /\ (forall i j d h,
         nth_error Calendar.day_order i = Some d ->
         nth_error (Frame.g_columns (Spec.heatmap_data df)) j = Some h ->
         In d (map Spec.weekday_of (Frame.rows df)) ->
         Spec.cell_at (Spec.heatmap_data df) i j
         = Some (Frame.Num
                   (Frame.count (fun r => String.eqb (Spec.weekday_of r) d
                                          && Z.eqb (Spec.hour_of r) h)
                      (Frame.rows df)))).
Proof.
  split; [now rewrite heatmap_unfold|].
  split; [now rewrite heatmap_unfold|].
  split; [|split; [|split]].
  - rewrite heat_columns. apply sorted_fst.
    destruct (groupby_Z (map Spec.hour_of (Frame.rows df))) as [S _].
    eapply StronglySorted_weaken; [|exact S].
    intros a b H. now apply Z.compare_lt_iff.
  - intros h. rewrite heat_columns.
    apply groupby_keys; [apply Z_cmp_eq | apply Z_cmp_antisym | apply Z_cmp_trans].
  - rewrite heatmap_unfold. unfold Frame.reindex. cbn [Frame.g_cells Frame.g_columns].
    apply Forall_map. apply Forall_forall. intros l _.
    destruct (Frame.loc l _ _) as [r|] eqn:L; [|now rewrite length_map].
    apply loc_in in L. unfold Frame.fillna, Frame.pivot_count in L.
    cbn [Frame.g_cells Frame.g_columns Frame.g_index] in L |- *.
    rewrite map_map in L. apply in_map_iff in L as (d & <- & _).
    unfold Frame.fillna, Frame.pivot_count. cbn [Frame.g_columns].
    rewrite !length_map. reflexivity.
  - intros i j d h Hd Hh I. unfold Spec.cell_at.
    pose proof (heat_row df d I) as R.
    assert (E : nth i (Frame.g_cells (Spec.heatmap_data df)) []
                = map (fun h =>
                         Frame.Num (Frame.count
                                      (fun r => String.eqb (Spec.weekday_of r) d
                                                && Z.eqb (Spec.hour_of r) h)
                                      (Frame.rows df)))
                    (Frame.g_columns (Spec.heatmap_data df))).
    { rewrite heatmap_unfold at 1. unfold Frame.reindex at 1. cbn [Frame.g_cells].
      apply nth_error_nth. rewrite nth_error_map, Hd. cbn [option_map].
      now rewrite R. }
    rewrite E, nth_error_map, Hh. reflexivity.
Qed.

Lemma heatmap_grid_witness :
  Spec.cell_at (Spec.heatmap_data Spec.table_winter) 3 0 = Some (Frame.Num 1)
  /\ Spec.cell_at (Spec.heatmap_data Spec.table_winter) 3 1 = Some (Frame.Num 0).
Proof.
  split.
  - apply (proj2 (proj2 (proj2 (proj2 (proj2 (heatmap_grid Spec.table_winter)))))
             3 0 "Thursday" 9%Z); [reflexivity | reflexivity |].
    vm_compute. tauto.
  - apply (proj2 (proj2 (proj2 (proj2 (proj2 (heatmap_grid Spec.table_winter)))))
             3 1 "Thursday" 10%Z); [reflexivity | reflexivity |].
    vm_compute. tauto.
Defined.

(** C3, as the claim words it, fails: the grid of a chat with messages at
    9, 10 and 21 o'clock has three columns, not twenty-four. *)
Lemma heatmap_not_full : ~ Spec.heatmap_full.
Proof.
  intros H. destruct (H Spec.table_winter) as (_ & C & _).
  vm_compute in C. discriminate C.
Qed.

(** The rows of the weekdays the chat has no message on hold no count. *)
Example heatmap_absent_weekday :
  nth 1 (Frame.g_cells (Spec.heatmap_data Spec.table_winter)) []
  = [Frame.NaN; Frame.NaN; Frame.NaN].
Proof. reflexivity. Qed.

Section RecordFacts.

Import Calendar Frame Helper Spec.

Lemma records_Forall2 (df' df : DataFrame) :
  records df' = records df -> Forall2 same_record (rows df') (rows df).
Proof.
  unfold records. generalize (rows df) as l. generalize (rows df') as l'.
  induction l' as [|a l' IH]; intros [|b l] E; simpl in E; try discriminate.
  - constructor.
  - assert (Ea : rec_of a = rec_of b) by congruence.
    assert (El : map rec_of l' = map rec_of l) by congruence.
    constructor; [exact Ea | now apply IH].
Qed.

Lemma filter_Forall2 {A : Type} (R : A -> A -> Prop) (p : A -> bool) (l' l : list A) :
  (forall a b, R a b -> p a = p b) ->
  Forall2 R l' l -> Forall2 R (filter p l') (filter p l).
Proof.
  intros P; induction 1 as [|a b l' l H F IH]; simpl; [constructor|].
  rewrite (P a b H). destruct (p b); auto.
Qed.

Lemma selected_Forall2 (s : string) (df' df : DataFrame) :
  records df' = records df ->
  Forall2 same_record (selected s df') (selected s df).
Proof.
  intros E. apply records_Forall2 in E. unfold selected.
  destruct (specific s); [|exact E].
  apply filter_Forall2; [|exact E].
  intros a b H. unfold same_record, rec_of in H. now inversion H.
Qed.

Lemma map_Forall2 {A B : Type} (R : A -> A -> Prop) (f : A -> B) (l' l : list A) :
  Forall2 R l' l -> (forall a b, R a b -> f a = f b) -> map f l' = map f l.
Proof.
  intros F P; induction F as [|a b l' l H F IH]; simpl; [reflexivity|].
  now rewrite (P a b H), IH.
Qed.

Lemma count_Forall2 {A : Type} (R : A -> A -> Prop) (p : A -> bool) (l' l : list A) :
  Forall2 R l' l -> (forall a b, R a b -> p a = p b) -> count p l' = count p l.
Proof.
  intros F P; induction F as [|a b l' l H F IH]; unfold count in *; simpl; [reflexivity|].
  rewrite (P a b H). destruct (p b); simpl; now rewrite IH.
Qed.

Lemma flat_map_Forall2 {A B : Type} (R : A -> A -> Prop) (f : A -> list B)
  (l' l : list A) :
  Forall2 R l' l -> (forall a b, R a b -> f a = f b) -> flat_map f l' = flat_map f l.
Proof.
  intros F P; induction F as [|a b l' l H F IH]; simpl; [reflexivity|].
  now rewrite (P a b H), IH.
Qed.

Ltac by_record :=
  let a := fresh in let b := fresh in let H := fresh in
  intros a b H; unfold same_record, rec_of in H; inversion H;
  unfold weekday_of, hour_of, day_of, month_of; congruence.

Lemma fetch_stats_records (s : string) (df' df : DataFrame) :
  records df' = records df -> fetch_stats s df' = fetch_stats s df.
Proof.
  intros E. pose proof (selected_Forall2 s df' df E) as F.
  unfold fetch_stats. rewrite !work_rows.
  rewrite (Forall2_length F).
  rewrite (map_Forall2 same_record _ _ _ F) by by_record.
  rewrite (count_Forall2 same_record
             (fun r => String.eqb (message_content r) "<Media omitted>") _ _ F)
    by by_record.
  rewrite (count_Forall2 same_record (fun r => has_link (message_content r)) _ _ F)
    by by_record.
  reflexivity.
Qed.

Lemma get_user_list_records (df' df : DataFrame) :
  records df' = records df -> get_user_list df' = get_user_list df.
Proof.
  intros E. apply records_Forall2 in E. unfold get_user_list.
  now rewrite (map_Forall2 same_record user _ _ E) by by_record.
Qed.

Lemma emoji_analysis_records (E : ascii -> bool)
  (S : list (ascii * nat) -> list (ascii * nat)) (s : string) (df' df : DataFrame) :
  records df' = records df -> emoji_analysis E S df' s = emoji_analysis E S df s.
Proof.
  intros H. pose proof (selected_Forall2 s df' df H) as F.
  unfold emoji_analysis. rewrite !work_rows.
  now rewrite (flat_map_Forall2 same_record _ _ _ F) by by_record.
Qed.

Lemma monthly_records (s : string) (df' df : DataFrame) :
  records df' = records df ->
  fst (plot_monthly_timeline s df') = fst (plot_monthly_timeline s df).
Proof.
  intros H. pose proof (selected_Forall2 s df' df H) as F.
  unfold plot_monthly_timeline. cbn [fst added]. rewrite !column_assign, !work_rows.
  now rewrite (map_Forall2 same_record _ _ _ F) by by_record.
Qed.

Lemma daily_records (s : string) (df' df : DataFrame) :
  records df' = records df ->
  plot_daily_timeline s df' = plot_daily_timeline s df.
Proof.
  intros H. pose proof (selected_Forall2 s df' df H) as F.
  unfold plot_daily_timeline. rewrite !work_rows.
  now rewrite (map_Forall2 same_record _ _ _ F) by by_record.
Qed.

Lemma activity_records (s : string) (df' df : DataFrame) :
  records df' = records df ->
  fst (plot_interactive_activity_analysis df' s)
  = fst (plot_interactive_activity_analysis df s).
Proof.
  intros H. pose proof (selected_Forall2 s df' df H) as F.
  unfold plot_interactive_activity_analysis. cbn [fst added rows].
  rewrite !column_assign, !work_rows.
  rewrite (map_Forall2 same_record _ _ _ F) by by_record.
  now rewrite (map_Forall2 same_record _ _ _ F) by by_record.
Qed.

Lemma heatmap_records (df' df : DataFrame) :
  records df' = records df -> heatmap_data df' = heatmap_data df.
Proof.
  intros H. apply records_Forall2 in H. rewrite !heatmap_unfold. unfold heat_keys.
  now rewrite (map_Forall2 same_record _ _ _ H) by by_record.
Qed.

Lemma set_day_hour_records (l : list row) :
  map rec_of (map set_day_hour l) = map rec_of l.
Proof. rewrite map_map. now apply map_ext. Qed.

End RecordFacts.

(** C4, as the code has it.  With a sender selected no helper changes the
    table it is given.  With ["Overall"] the monthly timeline, the
    activity analysis and the heatmap write columns into it, yet no call
    ever changes what a record says -
    its timestamp, sender and content - and the summary every helper
    returns depends on the table through those alone: a call repeated,
    or made after any other call, returns the same summary. *)
Theorem helpers_on_records (df : Frame.DataFrame) (selected_user : string) :
  (Helper.specific selected_user = true ->
   snd (Helper.plot_monthly_timeline selected_user df) = df
   /\ snd (Helper.plot_interactive_activity_analysis df selected_user) = df)
  /\ Spec.records (snd (Helper.plot_monthly_timeline selected_user df))
     = Spec.records df
  /\ Spec.records (snd (Helper.plot_interactive_activity_analysis df selected_user))
     = Spec.records df
  /\ Spec.records (snd (Helper.plot_activity_heatmap_matplotlib df))
     = Spec.records df
  /\ forall df' : Frame.DataFrame,
      Spec.records df' = Spec.records df ->
      forall s : string,
        Helper.fetch_stats s df' = Helper.fetch_stats s df
        /\ Helper.get_user_list df' = Helper.get_user_list df
        /\ (forall E S, Helper.emoji_analysis E S df' s = Helper.emoji_analysis E S df s)
        /\ fst (Helper.plot_monthly_timeline s df')
           = fst (Helper.plot_monthly_timeline s df)
        /\ Helper.plot_daily_timeline s df' = Helper.plot_daily_timeline s df
        /\ fst (Helper.plot_interactive_activity_analysis df' s)
           = fst (Helper.plot_interactive_activity_analysis df s)
        /\ fst (Helper.plot_activity_heatmap_matplotlib df')
           = fst (Helper.plot_activity_heatmap_matplotlib df).
Proof.
  split; [|split; [|split; [|split]]].
  - intros S. unfold Helper.plot_monthly_timeline,
      Helper.plot_interactive_activity_analysis. cbn [snd]. now rewrite S.
  - unfold Helper.plot_monthly_timeline. cbn [snd].
    destruct (Helper.specific selected_user); reflexivity.
  - unfold Helper.plot_interactive_activity_analysis. cbn [snd].
    destruct (Helper.specific selected_user); reflexivity.
  - unfold Helper.plot_activity_heatmap_matplotlib, Spec.records. cbn [snd Frame.rows].
    apply set_day_hour_records.
  - intros df' E s. repeat split.
    + now apply fetch_stats_records.
    + now apply get_user_list_records.
    + intros. now apply emoji_analysis_records.
    + now apply monthly_records.
    + now apply daily_records.
    + now apply activity_records.
    + now apply heatmap_records.
Qed.

Lemma helpers_on_records_witness :
  snd (Helper.plot_monthly_timeline "Bob" Spec.table_winter) = Spec.table_winter
  /\ fst (Helper.plot_monthly_timeline "Overall"
            (snd (Helper.plot_monthly_timeline "Overall" Spec.table_winter)))
     = fst (Helper.plot_monthly_timeline "Overall" Spec.table_winter).
Proof.
  destruct (helpers_on_records Spec.table_winter "Bob") as (H1 & _).
  destruct (helpers_on_records Spec.table_winter "Overall") as (_ & R & _ & _ & H5).
  split.
  - apply H1. reflexivity.
  - apply (H5 _ R "Overall").
Defined.

(** C4, as the claim words it, fails: on ["Overall"] the monthly timeline
    leaves a [month_year] column in the table it was given. *)
Lemma helpers_change_table : ~ Spec.helpers_leave_table.
Proof.
  intros H. destruct (H Spec.table_winter "Overall") as [M _].
  apply (f_equal Frame.added) in M. vm_compute in M. discriminate M.
Qed.

Section UserListFacts.

Import Calendar Frame Helper Spec.

Lemma existsb_eq_In (k : string) (seen : list string) :
  existsb (fun k' => match String.compare k k' with Eq => true | _ => false end) seen
  = true <-> In k seen.
Proof.
  rewrite existsb_exists. split.
  - intros (x & I & E). destruct (String.compare k x) eqn:C; try discriminate.
    apply String.compare_eq_iff in C. now subst.
  - intros I. exists k. split; [exact I|]. now rewrite string_cmp_refl.
Qed.

Lemma unique_from_In (x : string) (seen l : list string) :
  In x (unique_from String.compare seen l) <-> In x l /\ ~ In x seen.
Proof.
  revert seen; induction l as [|k l IH]; intros seen; simpl; [tauto|].
  destruct (existsb _ seen) eqn:E.
  - apply existsb_eq_In in E. rewrite IH. split.
    + intros [I N]; auto.
    + intros [[->|I] N]; [contradiction | auto].
  - assert (N : ~ In k seen) by (rewrite <- existsb_eq_In; congruence).
    simpl. rewrite IH. simpl. split.
    + intros [->|[I M]]; auto.
    + intros [[->|I] M]; auto.
      destruct (string_dec k x) as [->|D]; auto.
      right. split; auto. intros [E'|S]; auto.
Qed.

Lemma unique_In (x : string) (l : list string) :
  In x (unique String.compare l) <-> In x l.
Proof. unfold unique. rewrite unique_from_In. simpl. tauto. Qed.

Lemma unique_from_NoDup (seen l : list string) :
  NoDup (unique_from String.compare seen l)
  /\ forall x, In x (unique_from String.compare seen l) -> ~ In x seen.
Proof.
  split; [|intros x I; now apply unique_from_In in I].
  revert seen; induction l as [|k l IH]; intros seen; simpl; [constructor|].
  destruct (existsb _ seen); [apply IH|].
  constructor; [|apply IH].
  intros I. apply unique_from_In in I as [_ N]. apply N. now left.
Qed.

Lemma insert_sorted_In (x k : string) (l : list string) :
  In x (insert_sorted String.compare k l) <-> x = k \/ In x l.
Proof.
  induction l as [|k' l IH]; simpl; [intuition|].
  destruct (String.compare k k'); simpl; rewrite ?IH; intuition.
Qed.

Lemma sort_In (x : string) (l : list string) :
  In x (sort String.compare l) <-> In x l.
Proof.
  induction l as [|k l IH]; simpl; [tauto|].
  rewrite insert_sorted_In, IH. intuition.
Qed.

Lemma remove_first_In (x y : string) (l : list string) :
  x <> y -> (In x (remove_first y l) <-> In x l).
Proof.
  intros D; induction l as [|k l IH]; simpl; [tauto|].
  destruct (String.eqb_spec k y) as [->|N]; simpl; [|rewrite IH]; intuition congruence.
Qed.

Lemma remove_first_NoDup (y : string) (l : list string) :
  NoDup l -> ~ In y (remove_first y l).
Proof.
  induction 1 as [|k l N D IH]; simpl; [tauto|].
  destruct (String.eqb_spec k y) as [->|E]; [exact N|].
  simpl. intros [->|I]; [now elim E | auto].
Qed.

(** The names below the synthetic first entry of the selector: the
    senders of the table, the notification sentinel left out. *)
Lemma user_list_names (df : DataFrame) (x : string) :
  In x (tl (get_user_list df)) <->
  In x (map user (rows df)) /\ x <> "group_notification".
Proof.
  unfold get_user_list. cbn [tl]. rewrite sort_In.
  pose proof (proj1 (unique_from_NoDup [] (map user (rows df)))) as ND.
  fold (unique String.compare (map user (rows df))) in ND.
  destruct (existsb (String.eqb "group_notification") _) eqn:E.
  - destruct (string_dec x "group_notification") as [->|D].
    + split; [|tauto]. intros I. now apply remove_first_NoDup in I.
    + rewrite remove_first_In, unique_In by exact D. tauto.
  - rewrite unique_In. split; [|tauto]. intros I; split; [exact I|].
    intros ->. apply unique_In in I.
    assert (existsb (String.eqb "group_notification")
              (unique String.compare (map user (rows df))) = true).
    { apply existsb_exists. eexists; split; [exact I | reflexivity]. }
    congruence.
Qed.

End UserListFacts.

(** C10.  On ["Overall"] every helper works on all the records of the
    table, whatever their senders are called.  When the table has a sender
    called "Overall" beside another sender, no choice in the selector
    makes a helper work on that sender's records alone; and the selector
    list then holds the name twice, first as the synthetic entry and again
    among the senders. *)
Theorem overall_is_whole_table (df : Frame.DataFrame) :
  Helper.fetch_stats "Overall" df
  = (List.length (Frame.rows df),
     list_sum (map (fun r => Str.split_len (Frame.message_content r)) (Frame.rows df)),
     Frame.count (fun r => String.eqb (Frame.message_content r) "<Media omitted>")
       (Frame.rows df),
     Frame.count (fun r => Helper.has_link (Frame.message_content r)) (Frame.rows df))
  /\ (forall E S,
         Helper.emoji_analysis E S df "Overall"
         = (list_sum
              (map snd
                 (Helper.Counter
                    (flat_map (fun r => Helper.extract_emojis E (Frame.message_content r))
                       (Frame.rows df)))),
            S (Helper.Counter
                 (flat_map (fun r => Helper.extract_emojis E (Frame.message_content r))
                    (Frame.rows df)))))
  /\ fst (Helper.plot_monthly_timeline "Overall" df)
     = Frame.groupby_size String.compare
         (map (fun r => Calendar.strftime_Ym (fst (Spec.month_of r)) (snd (Spec.month_of r)))
            (Frame.rows df))
  /\ Helper.plot_daily_timeline "Overall" df
     = Frame.groupby_size Calendar.date_compare (map Spec.day_of (Frame.rows df))
  /\ fst (Helper.plot_interactive_activity_analysis df "Overall")
     = (Frame.groupby_categorical Calendar.day_order (map Spec.weekday_of (Frame.rows df)),
        Frame.groupby_size Z.compare (map Spec.hour_of (Frame.rows df)))
  /\ (In "Overall" (map Frame.user (Frame.rows df)) ->
      (exists r, In r (Frame.rows df) /\ Frame.user r <> "Overall") ->
      forall s : string,
        Frame.rows (if Helper.specific s then Frame.filter_user s df else df)
        <> filter (fun r => String.eqb (Frame.user r) "Overall") (Frame.rows df))
  /\ hd_error (Helper.get_user_list df) = Some "Overall"
  /\ (In "Overall" (map Frame.user (Frame.rows df)) ->
      In "Overall" (tl (Helper.get_user_list df))).
Proof.
  repeat split.
  - unfold Helper.plot_monthly_timeline. cbn [fst Frame.added Helper.specific].
    now rewrite column_assign.
  - unfold Helper.plot_interactive_activity_analysis.
    cbn [fst Frame.added Frame.rows]. now rewrite column_assign.
  - intros I (r & Ir & Nr) s E. rewrite work_rows in E. unfold Spec.selected in E.
    apply in_map_iff in I as (o & Uo & Io).
    destruct (Helper.specific s) eqn:S.
    + assert (F : In o (filter (fun r => String.eqb (Frame.user r) "Overall") (Frame.rows df)))
        by (apply filter_In; split; [exact Io | now apply String.eqb_eq]).
      rewrite <- E in F. apply filter_In in F as [_ F]. apply String.eqb_eq in F.
      unfold Helper.specific, Helper.Overall in S. rewrite <- F, Uo in S.
      discriminate S.
    + rewrite E in Ir. apply filter_In in Ir as [_ Ir]. apply String.eqb_eq in Ir.
      contradiction.
  - intros I. apply user_list_names. split; [exact I | discriminate].
Qed.

Lemma overall_is_whole_table_witness :
  In "Overall" (tl (Helper.get_user_list Spec.table_winter))
  /\ forall s : string,
      Frame.rows (if Helper.specific s then Frame.filter_user s Spec.table_winter
                  else Spec.table_winter)
      <> filter (fun r => String.eqb (Frame.user r) "Overall")
           (Frame.rows Spec.table_winter).
Proof.
  destruct (overall_is_whole_table Spec.table_winter)
    as (_ & _ & _ & _ & _ & H6 & _ & H8).
  split.
  - apply H8. simpl. tauto.
  - apply H6.
    + simpl. tauto.
    + eexists. split; [left; reflexivity | discriminate].
Defined.

(* ================================================================= *)
(** * Further properties of the parser *)

Section ParserFacts.

Import Calendar Frame Preprocessor Spec.

Lemma OK_inj {A : Type} (x y : A) : OK x = OK y -> x = y.
Proof. intros H; now injection H. Qed.

Lemma tokenize_length (data : string) (toks : list (string * string)) :
  tokenize data = OK toks ->
  List.length toks = List.length (Re.findall pattern data).
Proof.
  unfold tokenize.
  destruct (Nat.eqb_spec (List.length (tl (Re.split pattern 0 data)))
              (List.length (map (Str.strip_chars " - ") (Re.findall pattern data))))
    as [E|N]; [|discriminate].
  unfold str_accessor.
  destruct (tl (Re.split pattern 0 data)) as [|m ms]; [discriminate|].
  cbn [bind]. intros H. apply OK_inj in H. subst toks.
  rewrite length_combine, !length_map. rewrite length_map in E.
  rewrite <- E. apply Nat.min_id.
Qed.

Lemma mapM_Raise_inv {A B : Type} (f : A -> result B) (l : list A) (e : exn) :
  mapM f l = Raise e -> Exists (fun a => exists e', f a = Raise e') l.
Proof.
  induction l as [|a l IH]; simpl; [discriminate|].
  destruct (f a) as [b|e'] eqn:F; simpl.
  - destruct (mapM f l) as [bs|e'']; simpl; [discriminate|].
    intros H. apply Exists_cons_tl, IH, H.
  - intros _. apply Exists_cons_hd. eauto.
Qed.

Lemma parse_dates_fails (dates : list string) (e : exn) :
  parse_dates dates = Raise e ->
  Exists (fails Strptime.month_first) dates
  /\ Exists (fails Strptime.day_first) dates.
Proof.
  unfold parse_dates.
  destruct (Strptime.to_datetime Strptime.month_first dates) as [ds1|e1] eqn:M1;
    [discriminate|].
  destruct (to_datetime_raises _ _ _ M1) as (m1 & ->).
  destruct (Strptime.to_datetime Strptime.day_first dates) as [ds2|e2] eqn:M2;
    [discriminate|].
  intros _. unfold Strptime.to_datetime in M1, M2.
  split; eapply mapM_Raise_inv; eauto.
Qed.

Lemma parse_dates_length (dates : list string) (ds : list datetime) :
  parse_dates dates = OK ds -> List.length ds = List.length dates.
Proof.
  unfold parse_dates, Strptime.to_datetime.
  destruct (mapM (Strptime.strptime Strptime.month_first) dates)
    as [ds1|[m|m|]] eqn:M1; try discriminate.
  - intros H; inversion H; subst. apply mapM_OK in M1.
    symmetry. eapply Forall2_length; eauto.
  - destruct (mapM (Strptime.strptime Strptime.day_first) dates)
      as [ds2|[m2|m2|]] eqn:M2; try discriminate.
    intros H; inversion H; subst. apply mapM_OK in M2.
    symmetry. eapply Forall2_length; eauto.
Qed.

Lemma parse_dates_raises (dates : list string) (e : exn) :
  parse_dates dates = Raise e ->
  e = ValueError
        "Date format not recognized. Please ensure the chat export is in a standard format.".
Proof.
  unfold parse_dates.
  destruct (Strptime.to_datetime Strptime.month_first dates) as [ds1|e1] eqn:M1;
    [discriminate|].
  destruct (to_datetime_raises _ _ _ M1) as (m1 & ->).
  destruct (Strptime.to_datetime Strptime.day_first dates) as [ds2|e2] eqn:M2;
    [discriminate|].
  destruct (to_datetime_raises _ _ _ M2) as (m2 & ->).
  intros H; now inversion H.
Qed.

Lemma boundary_shape (k : nat) (message : string) :
  boundary_at k message = true ->
  exists w, Char.isspace w = true
            /\ Str.drop k message = String ":" (String w (Str.drop (k + 2) message)).
Proof.
  unfold boundary_at. rewrite drop_add.
  destruct (Str.drop k message) as [|c [|w r]]; try discriminate.
  intros H. apply andb_prop in H as [C W]. apply Ascii.eqb_eq in C. subst c.
  exists w. split; [exact W | reflexivity].
Qed.

End ParserFacts.

(** X1. [preprocess] raises two errors and no other.  It raises the
    error of the string accessor when no delimiter stands anywhere in the
    input; it raises the format error when the tokenizer has returned and
    some timestamp of the batch fails month first and some timestamp fails
    day first.  Neither the indexing in the classifier loop nor the
    column-length check of the DataFrame constructor can fail. *)
Theorem preprocess_raises (data : string) (e : exn) :
  Preprocessor.preprocess data = Raise e ->
  (e = AttributeError "Can only use .str accessor with string values!"
   /\ Spec.no_stamp data)
  \/ (e = ValueError
            "Date format not recognized. Please ensure the chat export is in a standard format."
      /\ exists toks,
           Preprocessor.tokenize data = OK toks
           /\ Exists (Spec.fails Strptime.month_first) (map snd toks)
           /\ Exists (Spec.fails Strptime.day_first) (map snd toks)).
Proof.
  unfold Preprocessor.preprocess.
  destruct (Preprocessor.tokenize data) as [toks|e0] eqn:T; cbn [bind].
  - destruct (Preprocessor.parse_dates (map snd toks)) as [ds|e'] eqn:P; cbn [bind].
    + destruct (mapM_all_OK Preprocessor.classify (map fst toks) classify_total)
        as (ums & -> & _).
      discriminate.
    + intros H; inversion H; subst. right.
      split; [now apply parse_dates_raises in P|].
      exists toks. split; [reflexivity|]. now apply parse_dates_fails in P.
  - intros H; inversion H; subst. left. now apply tokenize_raises.
Qed.

Lemma preprocess_raises_witness :
  Preprocessor.preprocess "31/02/24, 10:00 - Alice: hi"
  = Raise (ValueError
             "Date format not recognized. Please ensure the chat export is in a standard format.")
  /\ Preprocessor.preprocess "1/2/24, 7:5 - a: b"
     = Raise (AttributeError "Can only use .str accessor with string values!")
  /\ ((ValueError
         "Date format not recognized. Please ensure the chat export is in a standard format."
       = AttributeError "Can only use .str accessor with string values!"
       /\ Spec.no_stamp "31/02/24, 10:00 - Alice: hi")
      \/ (ValueError
            "Date format not recognized. Please ensure the chat export is in a standard format."
          = ValueError
              "Date format not recognized. Please ensure the chat export is in a standard format."
          /\ exists toks,
               Preprocessor.tokenize "31/02/24, 10:00 - Alice: hi" = OK toks
               /\ Exists (Spec.fails Strptime.month_first) (map snd toks)
               /\ Exists (Spec.fails Strptime.day_first) (map snd toks))).
Proof.
  split; [reflexivity|]. split; [reflexivity|].
  apply (preprocess_raises "31/02/24, 10:00 - Alice: hi"). reflexivity.
Defined.

(** X2. The table [preprocess] returns has one record per match of the
    delimiter pattern, and that number is the message count [fetch_stats]
    reports for ["Overall"]. *)
Theorem message_count_conserved (data : string) (df : Frame.DataFrame) :
  Preprocessor.preprocess data = OK df ->
  List.length (Frame.rows df) = List.length (Re.findall Preprocessor.pattern data)
  /\ fst (fst (fst (Helper.fetch_stats "Overall" df)))
     = List.length (Re.findall Preprocessor.pattern data).
Proof.
  intros P.
  assert (L : List.length (Frame.rows df)
              = List.length (Re.findall Preprocessor.pattern data)).
  { unfold Preprocessor.preprocess in P.
    destruct (Preprocessor.tokenize data) as [toks|] eqn:T; [|discriminate].
    cbn [bind] in P.
    destruct (Preprocessor.parse_dates (map snd toks)) as [ds|] eqn:D; [|discriminate].
    cbn [bind] in P.
    destruct (mapM Preprocessor.classify (map fst toks)) as [ums|] eqn:M; [|discriminate].
    cbn [bind] in P. inversion P; subst; clear P. cbn [Frame.rows].
    apply tokenize_length in T. apply parse_dates_length in D.
    apply mapM_OK in M. apply Forall2_length in M.
    rewrite length_map, length_combine. rewrite !length_map in *. lia. }
  split; [exact L|]. rewrite <- L. reflexivity.
Qed.

Lemma message_count_conserved_witness :
  List.length (Frame.rows Spec.table_winter) = 4
  /\ fst (fst (fst (Helper.fetch_stats "Overall" Spec.table_winter))) = 4.
Proof.
  exact (message_count_conserved Spec.chat_winter Spec.table_winter eq_refl).
Defined.

(** X3. The classifier never raises and never returns an empty sender,
    and what it returns recomposes to the body: either the sender is the
    notification sentinel and the content is the body, or the body is the
    sender, a colon, one white-space character and the content. *)
Theorem classify_recomposes (message : string) :
  exists sender content,
    Preprocessor.classify message = OK (sender, content)
    /\ sender <> ""
    /\ ((sender = "group_notification" /\ content = message)
        \/ exists w, Char.isspace w = true
                     /\ message = sender ++ String ":" (String w content)).
Proof.
  destruct (leftmost_boundary message (String.length message))
    as [(k & K & B & N) | N].
  - exists (Str.take k message), (Str.drop (k + 2) message).
    split; [apply classify_split; auto; lia|].
    destruct (boundary_shape k message B) as (w & W & D).
    split.
    + destruct message as [|c s]; [simpl in K; lia|].
      destruct k as [|k]; [lia | discriminate].
    + right. exists w. split; [exact W|]. rewrite <- D. symmetry. apply take_drop.
  - exists "group_notification", message. split; [|split; [discriminate | auto]].
    apply classify_whole. intros k K.
    destruct (Nat.lt_ge_cases k (String.length message)) as [L|L]; [apply N; lia|].
    destruct (Spec.boundary_at k message) eqn:B; [|reflexivity].
    apply boundary_in_range in B. lia.
Qed.

Section StrptimeFacts.

Import Calendar Strptime Spec.
Local Open Scope Z_scope.

Lemma in_ret {A : Type} (a : A) (s : string) (x : A * string) :
  In x (ret a s) -> x = (a, s).
Proof. intros [<-|[]]. reflexivity. Qed.

Lemma in_pbind {A B : Type} (p : parser A) (k : A -> parser B) (s : string)
  (x : B * string) :
  In x (pbind p k s) -> exists a s', In (a, s') (p s) /\ In x (k a s').
Proof.
  unfold pbind. intros H. apply in_flat_map in H as ([a s'] & I & H).
  exists a, s'. auto.
Qed.

Lemma in_alt {A : Type} (p q : parser A) (s : string) (x : A * string) :
  In x (alt p q s) -> In x (p s) \/ In x (q s).
Proof. unfold alt. apply in_app_or. Qed.

Lemma in_digit_in (lo hi v : Z) (s r : string) :
  In (v, r) (digit_in lo hi s) -> lo <= v <= hi.
Proof.
  unfold digit_in. destruct s as [|c s]; [intros []|].
  destruct (Char.isdigit c && (lo <=? Z.of_nat (Char.code c) - 48)
            && (Z.of_nat (Char.code c) - 48 <=? hi)) eqn:E; [|intros []].
  intros [H|[]]. inversion H; subst.
  apply andb_prop in E as [E Hi]. apply andb_prop in E as [_ Lo]. lia.
Qed.

Ltac parse_inv :=
  repeat match goal with
    | H : In _ (alt _ _ _) |- _ => apply in_alt in H as [H|H]
    | H : In _ (pbind _ _ _) |- _ =>
        let a := fresh "a" in let s' := fresh "s" in let I := fresh "I" in
        apply in_pbind in H as (a & s' & I & H); cbv beta in H
    | H : In _ (ret _ _) |- _ =>
        apply in_ret in H; apply pair_equal_spec in H; destruct H; subst
    | H : In (_, _) (digit_in _ _ _) |- _ => apply in_digit_in in H
    end.

Lemma dir_m_range (v : Z) (s r : string) : In (v, r) (dir_m s) -> 1 <= v <= 12.
Proof. unfold dir_m. intros H. parse_inv; lia. Qed.

Lemma dir_d_range (v : Z) (s r : string) : In (v, r) (dir_d s) -> 1 <= v <= 31.
Proof. unfold dir_d. intros H. parse_inv; lia. Qed.

Lemma dir_y_range (v : Z) (s r : string) : In (v, r) (dir_y s) -> 1969 <= v <= 2068.
Proof.
  unfold dir_y. intros H. parse_inv.
  destruct (10 * a + a0 <=? 68) eqn:E; lia.
Qed.

Lemma dir_H_range (v : Z) (s r : string) : In (v, r) (dir_H s) -> 0 <= v <= 23.
Proof. unfold dir_H. intros H. parse_inv; lia. Qed.

Lemma dir_M_range (v : Z) (s r : string) : In (v, r) (dir_M s) -> 0 <= v <= 59.
Proof. unfold dir_M. intros H. parse_inv; lia. Qed.

Lemma step_ranges (d : directive) (t t' : datetime) (s r : string) :
  in_ranges t -> In (t', r) (step d t s) -> in_ranges t'.
Proof.
  unfold in_ranges. intros R H. destruct d; cbn [step] in H;
    apply in_pbind in H as (v & s' & I & H); apply in_ret in H;
    apply pair_equal_spec in H; destruct H; subst; cbn [dt_year dt_month dt_day dt_hour dt_minute];
    try tauto.
  - apply dir_m_range in I. tauto.
  - apply dir_d_range in I. tauto.
  - apply dir_y_range in I. tauto.
  - apply dir_H_range in I. tauto.
  - apply dir_M_range in I. tauto.
Qed.

Lemma parse_ranges (f : format) (t t' : datetime) (s r : string) :
  in_ranges t -> In (t', r) (parse f t s) -> in_ranges t'.
Proof.
  revert t s; induction f as [|d f IH]; intros t s R H; cbn [parse] in H.
  - apply in_ret in H. apply pair_equal_spec in H. destruct H; now subst.
  - apply in_pbind in H as (t1 & s1 & I & H).
    eapply IH; [|exact H]. eapply step_ranges; eauto.
Qed.

Lemma step_year (d : directive) (t t' : datetime) (s r : string) :
  In (t', r) (step d t s) ->
  if is_year d then two_digit_year t' else dt_year t' = dt_year t.
Proof.
  intros H. destruct d; cbn [step] in H;
    apply in_pbind in H as (v & s' & I & H); apply in_ret in H;
    apply pair_equal_spec in H; destruct H; subst; cbn; try reflexivity.
  unfold two_digit_year; cbn. now apply dir_y_range in I.
Qed.

Lemma parse_year (f : format) (t t' : datetime) (s r : string) :
  In (t', r) (parse f t s) ->
  if existsb is_year f then two_digit_year t' else dt_year t' = dt_year t.
Proof.
  revert t s; induction f as [|d f IH]; intros t s H; cbn [parse] in H.
  - apply in_ret in H. apply pair_equal_spec in H. destruct H; now subst.
  - apply in_pbind in H as (t1 & s1 & I & H).
    specialize (IH _ _ H). apply step_year in I. cbn [existsb].
    destruct (is_year d), (existsb is_year f); cbn; auto;
      unfold two_digit_year in *; [rewrite IH; exact I | congruence].
Qed.

(** A timestamp [pd.to_datetime] accepts is a date of the calendar. *)
Lemma strptime_valid (f : format) (s : string) (t : datetime) :
  strptime f s = OK t -> valid t = true.
Proof.
  unfold strptime.
  destruct (parse f epoch s) as [|[t' [|c r]] l] eqn:P; try discriminate.
  destruct (dt_day t' <=? days_in_month (dt_year t') (dt_month t')) eqn:D;
    [|discriminate].
  intros H; inversion H; subst; clear H.
  assert (R : in_ranges t).
  { apply (parse_ranges f epoch t s ""); [unfold in_ranges; cbn; lia|].
    rewrite P. now left. }
  unfold in_ranges in R. unfold valid.
  rewrite !andb_true_iff, !Z.leb_le. apply Z.leb_le in D. lia.
Qed.

Lemma strptime_year (f : format) (s : string) (t : datetime) :
  existsb is_year f = true -> strptime f s = OK t -> two_digit_year t.
Proof.
  unfold strptime. intros Y.
  destruct (parse f epoch s) as [|[t' [|c r]] l] eqn:P; try discriminate.
  destruct (dt_day t' <=? days_in_month (dt_year t') (dt_month t')); [|discriminate].
  intros H; inversion H; subst; clear H.
  assert (I : In (t, "") (parse f epoch s)) by (rewrite P; now left).
  apply parse_year in I. now rewrite Y in I.
Qed.

Lemma to_datetime_valid (f : format) (dates : list string) (ds : list datetime) :
  existsb is_year f = true ->
  to_datetime f dates = OK ds ->
  Forall (fun t => valid t = true /\ two_digit_year t) ds.
Proof.
  unfold to_datetime. intros Y H. apply mapM_OK in H.
  induction H as [|s t dates ds H F IH]; constructor; auto.
  split; [eapply strptime_valid | eapply strptime_year]; eauto.
Qed.

End StrptimeFacts.

(** X4. Every record of a table [preprocess] returns carries a timestamp
    that exists in the calendar - month 1 to 12, a day the month has, hour
    0 to 23, minute 0 to 59 - with a year between 1969 and 2068, as the
    two-digit year of the formats is read; a timestamp such as 31/02/24 or
    10:75 never enters a table. *)
Theorem preprocess_valid_dates (data : string) (df : Frame.DataFrame) :
  Preprocessor.preprocess data = OK df ->
  Spec.valid_table df
  /\ Forall (fun r => Spec.two_digit_year (Frame.date r)) (Frame.rows df).
Proof.
  unfold Preprocessor.preprocess, Spec.valid_table.
  destruct (Preprocessor.tokenize data) as [toks|] eqn:T; [|discriminate].
  cbn [bind].
  destruct (Preprocessor.parse_dates (map snd toks)) as [ds|] eqn:D; [|discriminate].
  cbn [bind].
  destruct (mapM Preprocessor.classify (map fst toks)) as [ums|] eqn:M; [|discriminate].
  cbn [bind]. intros H; inversion H; subst; clear H. cbn [Frame.rows].
  assert (V : Forall (fun t => Calendar.valid t = true /\ Spec.two_digit_year t) ds).
  { unfold Preprocessor.parse_dates in D.
    destruct (Strptime.to_datetime Strptime.month_first (map snd toks)) as [d1|[m|m|]] eqn:M1;
      try discriminate.
    - inversion D; subst. eapply to_datetime_valid; [|exact M1]. reflexivity.
    - destruct (Strptime.to_datetime Strptime.day_first (map snd toks)) as [d2|[m2|m2|]] eqn:M2;
        try discriminate.
      inversion D; subst. eapply to_datetime_valid; [|exact M2]. reflexivity. }
  clear -V. revert ums. induction V as [|d ds [Vd Yd] V IH]; intros [|um ums];
    cbn [combine map]; try (split; constructor; fail).
  destruct (IH ums) as [IH1 IH2].
  split; constructor; solve [exact Vd | exact Yd | exact IH1 | exact IH2].
Qed.

Lemma preprocess_valid_dates_witness :
  Spec.valid_table Spec.table_winter
  /\ Forall (fun r => Spec.two_digit_year (Frame.date r)) (Frame.rows Spec.table_winter).
Proof.
  exact (preprocess_valid_dates Spec.chat_winter Spec.table_winter eq_refl).
Defined.

(* ================================================================= *)
(** * Further properties of the helpers *)

Section SummaryFacts.

Import Calendar Frame Helper Spec.

Lemma bump_sum {K : Type} (cmp : K -> K -> comparison) (k : K) (l : list (K * nat)) :
  list_sum (map snd (bump cmp k l)) = S (list_sum (map snd l)).
Proof.
  induction l as [|[k' n] l IH]; simpl; [reflexivity|].
  destruct (cmp k k'); simpl; [reflexivity | reflexivity | rewrite IH; lia].
Qed.

(** The sizes of the groups add up to the number of keys. *)
Lemma groupby_size_sum {K : Type} (cmp : K -> K -> comparison) (keys : list K) :
  list_sum (map snd (groupby_size cmp keys)) = List.length keys.
Proof.
  unfold groupby_size.
  assert (G : forall acc,
             list_sum (map snd (fold_left (fun groups k => bump cmp k groups) keys acc))
             = list_sum (map snd acc) + List.length keys).
  { induction keys as [|k keys IH]; intros acc; simpl; [lia|].
    rewrite IH, bump_sum. lia. }
  now rewrite G.
Qed.

Lemma dayofweek_range (y m d : Z) : (0 <= dayofweek y m d < 7)%Z.
Proof. unfold dayofweek. apply Z.mod_pos_bound. lia. Qed.

Lemma day_name_in_order (t : datetime) : In (day_name t) day_order.
Proof.
  unfold day_name. apply nth_In.
  pose proof (dayofweek_range (dt_year t) (dt_month t) (dt_day t)).
  change (List.length day_order) with 7. lia.
Qed.

Lemma day_hits (v : string) :
  In v day_order ->
  list_sum (map (fun c => if String.eqb c v then 1 else 0) day_order) = 1.
Proof.
  intros I. repeat (destruct I as [<-|I]; [reflexivity|]). destruct I.
Qed.

Lemma list_sum_map_add {A : Type} (f g : A -> nat) (l : list A) :
  list_sum (map (fun a => f a + g a) l) = list_sum (map f l) + list_sum (map g l).
Proof. induction l as [|a l IH]; simpl; [reflexivity | rewrite IH; lia]. Qed.

Lemma count_cons {A : Type} (p : A -> bool) (a : A) (l : list A) :
  count p (a :: l) = (if p a then 1 else 0) + count p l.
Proof. unfold count; simpl. now destruct (p a). Qed.

Lemma categorical_sum (values : list string) :
  Forall (fun v => In v day_order) values ->
  list_sum (map snd (groupby_categorical day_order values)) = List.length values.
Proof.
  unfold groupby_categorical. rewrite map_map. cbn [snd].
  induction 1 as [|v values I F IH]; [reflexivity|].
  rewrite (map_ext _ (fun c => (if String.eqb c v then 1 else 0)
                               + count (String.eqb c) values))
    by (intros c; apply count_cons).
  rewrite list_sum_map_add, IH, (day_hits v I). reflexivity.
Qed.

End SummaryFacts.

(** X5. Every time-bucketed summary accounts for each selected record
    exactly once: the message counts of the monthly, daily, weekday and
    hourly rows each add up to the message count [fetch_stats] returns
    for the same selection. *)
Theorem summaries_add_up (df : Frame.DataFrame) (selected_user : string) :
  let total := fst (fst (fst (Helper.fetch_stats selected_user df))) in
  list_sum (map snd (fst (Helper.plot_monthly_timeline selected_user df))) = total
  /\ list_sum (map snd (Helper.plot_daily_timeline selected_user df)) = total
  /\ list_sum (map snd (Spec.weekly_activity df selected_user)) = total
  /\ list_sum (map snd (Spec.hourly_activity df selected_user)) = total.
Proof.
  cbv zeta. unfold Helper.fetch_stats. cbn [fst]. rewrite work_rows.
  repeat split.
  - unfold Helper.plot_monthly_timeline. cbn [fst Frame.added Frame.rows].
    rewrite column_assign, work_rows, groupby_size_sum. apply length_map.
  - unfold Helper.plot_daily_timeline.
    rewrite work_rows, groupby_size_sum. apply length_map.
  - unfold Spec.weekly_activity, Helper.plot_interactive_activity_analysis.
    cbn [fst Frame.added Frame.rows]. rewrite column_assign, work_rows.
    rewrite categorical_sum; [apply length_map|].
    apply Forall_map. apply Forall_forall. intros r _. apply day_name_in_order.
  - unfold Spec.hourly_activity, Helper.plot_interactive_activity_analysis.
    cbn [fst snd Frame.added Frame.rows].
    rewrite work_rows, groupby_size_sum. apply length_map.
Qed.

Section SelectorFacts.

Import Calendar Frame Helper Spec.

Lemma insert_sorted_strict (k : string) (l : list string) :
  StronglySorted string_lt l -> ~ In k l ->
  StronglySorted string_lt (insert_sorted String.compare k l).
Proof.
  induction l as [|k' l IH]; simpl; intros S N.
  - repeat constructor.
  - inversion S as [|? ? S' F]; subst.
    destruct (String.compare k k') eqn:C.
    + apply String.compare_eq_iff in C. subst. elim N. now left.
    + constructor; [exact S|]. constructor; [exact C|].
      eapply Forall_impl; [|exact F]. intros y Hy. eapply string_cmp_trans; eauto.
    + constructor; [apply IH; auto|].
      apply Forall_forall. intros x I. apply insert_sorted_In in I as [->|I].
      * unfold string_lt. rewrite String.compare_antisym, C. reflexivity.
      * rewrite Forall_forall in F. now apply F.
Qed.

Lemma sort_strict (l : list string) :
  NoDup l -> StronglySorted string_lt (sort String.compare l).
Proof.
  induction 1 as [|k l N D IH]; simpl; [constructor|].
  apply insert_sorted_strict; [exact IH|]. now rewrite sort_In.
Qed.

Lemma remove_first_subset (x y : string) (l : list string) :
  In x (remove_first y l) -> In x l.
Proof.
  induction l as [|k l IH]; simpl; [tauto|].
  destruct (String.eqb k y); simpl; intuition.
Qed.

Lemma remove_first_keeps_NoDup (y : string) (l : list string) :
  NoDup l -> NoDup (remove_first y l).
Proof.
  induction 1 as [|k l N D IH]; simpl; [constructor|].
  destruct (String.eqb k y); [exact D|].
  constructor; [|exact IH]. intros I. apply N. eapply remove_first_subset; eauto.
Qed.

Lemma unique_NoDup (l : list string) : NoDup (unique String.compare l).
Proof. apply (unique_from_NoDup [] l). Qed.

Lemma filter_user_count (u : string) (l : list row) :
  In u (map user l) ->
  1 <= List.length (filter (fun r => String.eqb (user r) u) l).
Proof.
  induction l as [|r l IH]; simpl; [tauto|].
  destruct (String.eqb_spec (user r) u) as [E|N]; simpl; [lia|].
  intros [E|I]; [contradiction | auto].
Qed.

Lemma filter_user_none (u : string) (l : list row) :
  ~ In u (map user l) -> filter (fun r => String.eqb (user r) u) l = [].
Proof.
  induction l as [|r l IH]; simpl; [reflexivity|]. intros N.
  destruct (String.eqb_spec (user r) u) as [E|D]; [elim N; now left|].
  apply IH. tauto.
Qed.

End SelectorFacts.

(** X6. The selector list is the entry "Overall" followed by the senders
    of the table other than the notification sentinel, in strictly
    ascending text order, each once. *)
Theorem user_list_sorted (df : Frame.DataFrame) :
  hd_error (Helper.get_user_list df) = Some "Overall"
  /\ StronglySorted (fun a b => String.compare a b = Lt) (tl (Helper.get_user_list df))
  /\ NoDup (tl (Helper.get_user_list df))
  /\ forall x,
      In x (tl (Helper.get_user_list df)) <->
      In x (map Frame.user (Frame.rows df)) /\ x <> "group_notification".
Proof.
  assert (S : StronglySorted (fun a b => String.compare a b = Lt)
                (tl (Helper.get_user_list df))).
  { unfold Helper.get_user_list. cbn [tl]. apply sort_strict.
    destruct (existsb _ _); [apply remove_first_keeps_NoDup|]; apply unique_NoDup. }
  split; [reflexivity|]. split; [exact S|]. split; [|apply user_list_names].
  clear -S. induction S as [|a l S IH F]; constructor; auto.
  intros I. rewrite Forall_forall in F. specialize (F a I).
  rewrite string_cmp_refl in F. discriminate.
Qed.

(** X7. On a table that has records, every entry of the selector list
    selects at least one message: no choice the dashboard offers leads to
    an empty selection. *)
Theorem user_list_entries_select (df : Frame.DataFrame) (entry : string) :
  Frame.rows df <> [] ->
  In entry (Helper.get_user_list df) ->
  1 <= fst (fst (fst (Helper.fetch_stats entry df))).
Proof.
  intros NE I. unfold Helper.fetch_stats. cbn [fst]. rewrite work_rows.
  unfold Spec.selected. destruct (Helper.specific entry) eqn:S.
  - destruct (Helper.get_user_list df) as [|h t] eqn:G; [destruct I|].
    assert (Hh : h = "Overall") by (unfold Helper.get_user_list in G; now inversion G).
    destruct I as [<-|I].
    + subst h. discriminate S.
    + assert (I' : In entry (tl (Helper.get_user_list df))) by now rewrite G.
      apply user_list_names in I' as [I' _]. now apply filter_user_count.
  - destruct (Frame.rows df); [now elim NE | simpl; lia].
Qed.

Lemma user_list_entries_select_witness :
  Frame.rows Spec.table_winter <> []
  /\ In "Bob" (Helper.get_user_list Spec.table_winter)
  /\ 1 <= fst (fst (fst (Helper.fetch_stats "Bob" Spec.table_winter))).
Proof.
  assert (NE : Frame.rows Spec.table_winter <> []) by discriminate.
  assert (I : In "Bob" (Helper.get_user_list Spec.table_winter))
    by (vm_compute; tauto).
  split; [exact NE|]. split; [exact I|].
  exact (user_list_entries_select Spec.table_winter "Bob" NE I).
Defined.

(** X8. A name that is not "Overall" and is no sender of the table selects
    nothing, and no helper fails on it: the statistics are all zero, the
    monthly, daily and hourly summaries have no rows, the weekday summary
    has its seven rows with count zero, and no emoji is counted. *)
Theorem unknown_sender_is_empty (df : Frame.DataFrame) (name : string) :
  Helper.specific name = true ->
  ~ In name (map Frame.user (Frame.rows df)) ->
  Helper.fetch_stats name df = (0, 0, 0, 0)
  /\ fst (Helper.plot_monthly_timeline name df) = []
  /\ Helper.plot_daily_timeline name df = []
  /\ Spec.hourly_activity df name = []
  /\ Spec.weekly_activity df name = map (fun d => (d, 0)) Calendar.day_order
  /\ forall E S, Helper.emoji_analysis E S df name = (0, S []).
Proof.
  intros Sp N.
  assert (R : Spec.selected name df = []).
  { unfold Spec.selected. rewrite Sp. now apply filter_user_none. }
  repeat split.
  - unfold Helper.fetch_stats. now rewrite work_rows, R.
  - unfold Helper.plot_monthly_timeline. cbn [fst Frame.added Frame.rows].
    now rewrite column_assign, work_rows, R.
  - unfold Helper.plot_daily_timeline. now rewrite work_rows, R.
  - unfold Spec.hourly_activity, Helper.plot_interactive_activity_analysis.
    cbn [fst snd Frame.rows]. now rewrite work_rows, R.
  - unfold Spec.weekly_activity, Helper.plot_interactive_activity_analysis.
    cbn [fst snd Frame.rows Frame.added]. now rewrite column_assign, work_rows, R.
  - intros E S. unfold Helper.emoji_analysis. now rewrite work_rows, R.
Qed.

Lemma unknown_sender_is_empty_witness :
  Helper.fetch_stats "Carol" Spec.table_winter = (0, 0, 0, 0)
  /\ fst (Helper.plot_monthly_timeline "Carol" Spec.table_winter) = [].
Proof.
  destruct (unknown_sender_is_empty Spec.table_winter "Carol") as (H1 & H2 & _).
  - reflexivity.
  - simpl. intros [H|[H|[H|[H|[]]]]]; discriminate H.
  - split; [exact H1 | exact H2].
Defined.

Section ContainsFacts.

Import Re Str Spec.

(** A literal pattern followed by [r] matches where the literal stands
    and [r] matches after it. *)
Lemma match_lits_iff (part : string) (r : regex) (s : string) :
  succeeds (lits part ++ r)%list s <-> exists b, s = part ++ b /\ succeeds r b.
Proof.
  revert s; induction part as [|c part IH]; intros s; cbn [lits app].
  - split; [intros H; exists s; auto | intros (b & -> & H); exact H].
  - unfold lit. rewrite match_one_iff. split.
    + intros (d & s' & -> & E & H). apply Ascii.eqb_eq in E. subst d.
      apply IH in H as (b & -> & H). exists b. auto.
    + intros (b & -> & H). exists c, (part ++ b). split; [reflexivity|].
      split; [apply Ascii.eqb_refl|]. apply IH. eauto.
Qed.

Lemma succeeds_nil (s : string) : succeeds [] s.
Proof. unfold succeeds; simpl; eauto. Qed.

(** An optional character: taken when it is there and the rest matches
    after it, left out otherwise. *)
Lemma match_opt (c : ascii) (r : regex) (s : string) :
  match_here (opt c :: r) s
  = match s with
    | String d s' =>
        if Ascii.eqb c d then
          match match_here r s' with
          | Some (t, g, w) => Some (String d t, g, w)
          | None =>
              match match_here r s with
              | Some (t, g, w) => Some (t, g, w)
              | None => None
              end
          end
        else
          match match_here r s with
          | Some (t, g, w) => Some (t, g, w)
          | None => None
          end
    | EmptyString =>
        match match_here r "" with
        | Some (t, g, w) => Some (t, g, w)
        | None => None
        end
    end.
Proof.
  assert (Z0 : forall u, run (Ascii.eqb c) (Some 0) u = 0)
    by (intros [|x u]; simpl; [|destruct (Ascii.eqb c x)]; reflexivity).
  unfold opt. rewrite match_here_cons. unfold counts.
  cbn [a_class a_max a_min a_greed a_group].
  destruct s as [|d s']; cbn [run].
  - cbn. destruct (match_here r "") as [[[t g] w]|]; reflexivity.
  - destruct (Ascii.eqb c d).
    + rewrite Z0. cbn.
      destruct (match_here r s') as [[[t g] w]|]; [reflexivity|].
      destruct (match_here r (String d s')) as [[[t g] w]|]; reflexivity.
    + cbn. destruct (match_here r (String d s')) as [[[t g] w]|]; reflexivity.
Qed.

Lemma match_opt_iff (c : ascii) (r : regex) (s : string) :
  succeeds (opt c :: r) s
  <-> succeeds r s \/ exists s', s = String c s' /\ succeeds r s'.
Proof.
  unfold succeeds. rewrite match_opt. destruct s as [|d s'].
  - destruct (match_here r "") as [[[t g] w]|]; split.
    + intros _. left. eauto.
    + eauto.
    + intros (x & H). discriminate H.
    + intros [(x & H)|(s' & H & _)]; discriminate H.
  - destruct (Ascii.eqb_spec c d) as [<-|N].
    + destruct (match_here r s') as [[[t g] w]|] eqn:M1.
      * split; [intros _; right; exists s'; eauto | eauto].
      * destruct (match_here r (String c s')) as [[[t g] w]|] eqn:M0; split.
        -- intros _. left. eauto.
        -- eauto.
        -- intros (x & H). discriminate H.
        -- intros [(x & H)|(s2 & H & (x & H2))]; [discriminate H|].
           inversion H; subst. congruence.
    + destruct (match_here r (String d s')) as [[[t g] w]|] eqn:M0; split.
      * intros _. left. eauto.
      * eauto.
      * intros (x & H). discriminate H.
      * intros [(x & H)|(s2 & H & _)]; [discriminate H|].
        inversion H; subst. now elim N.
Qed.

(** [re.search] succeeds when the pattern matches at some offset. *)
Lemma search_iff (r : regex) (s : string) :
  search r s = true <-> exists a b, s = a ++ b /\ succeeds r b.
Proof.
  induction s as [|c s IH]; cbn [search].
  - destruct (match_here r "") as [x|] eqn:M.
    + split; [intros _; exists "", ""; split; [reflexivity|]; exists x; exact M | auto].
    + split; [discriminate|]. intros ([|? ?] & b & E & (x & H)); [|discriminate].
      simpl in E; subst. congruence.
  - destruct (match_here r (String c s)) as [x|] eqn:M.
    + split; [|auto]. intros _. exists "", (String c s). split; [reflexivity|].
      exists x; exact M.
    + rewrite IH. split.
      * intros (a & b & -> & H). exists (String c a), b. auto.
      * intros ([|d a] & b & E & H); simpl in E.
        -- subst b. destruct H as (x & H). congruence.
        -- inversion E; subst. eauto.
Qed.

Lemma search_lits (part s : string) :
  search (lits part) s = true <-> contains part s.
Proof.
  rewrite search_iff. unfold contains.
  rewrite <- (app_nil_r (lits part)). split.
  - intros (a & b & -> & H). apply match_lits_iff in H as (b' & -> & _). eauto.
  - intros (a & b & ->). exists a, (part ++ b). split; [reflexivity|].
    apply match_lits_iff. exists b. split; [reflexivity | apply succeeds_nil].
Qed.

End ContainsFacts.

Lemma search_link_http (content : string) :
  Re.search Helper.link_http content = true <->
  Spec.contains "http://" content \/ Spec.contains "https://" content.
Proof.
  unfold Helper.link_http. rewrite search_iff. unfold Spec.contains. split.
  - intros (a & b & -> & H). apply match_lits_iff in H as (b1 & -> & H).
    cbn [app] in H. apply match_opt_iff in H as [H|(s' & -> & H)].
    + rewrite <- (app_nil_r (Re.lits "://")) in H.
      apply match_lits_iff in H as (b2 & -> & _). left. exists a, b2. reflexivity.
    + rewrite <- (app_nil_r (Re.lits "://")) in H.
      apply match_lits_iff in H as (b2 & -> & _). right. exists a, b2. reflexivity.
  - intros [(a & b & ->)|(a & b & ->)].
    + exists a, ("http://" ++ b). split; [reflexivity|].
      apply (match_lits_iff "http"). exists ("://" ++ b). split; [reflexivity|].
      cbn [app]. apply match_opt_iff. left.
      rewrite <- (app_nil_r (Re.lits "://")). apply match_lits_iff.
      exists b. split; [reflexivity | apply succeeds_nil].
    + exists a, ("https://" ++ b). split; [reflexivity|].
      apply (match_lits_iff "http"). exists ("s://" ++ b). split; [reflexivity|].
      cbn [app]. apply match_opt_iff. right. exists ("://" ++ b).
      split; [reflexivity|].
      rewrite <- (app_nil_r (Re.lits "://")). apply match_lits_iff.
      exists b. split; [reflexivity | apply succeeds_nil].
Qed.

(** X9. The link count of [fetch_stats] is the number of selected
    messages whose content contains ["http://"], ["https://"] or ["www."]
    somewhere: a message counts as a link exactly when it does. *)
Theorem link_test_contains (df : Frame.DataFrame) (selected_user : string) :
  snd (Helper.fetch_stats selected_user df)
  = Frame.count (fun r => Helper.has_link (Frame.message_content r))
      (Spec.selected selected_user df)
  /\ forall content,
      Helper.has_link content = true <->
      Spec.contains "http://" content \/ Spec.contains "https://" content
      \/ Spec.contains "www." content.
Proof.
  split.
  - unfold Helper.fetch_stats. cbn [snd]. now rewrite work_rows.
  - intros content. unfold Helper.has_link. rewrite orb_true_iff.
    unfold Helper.link_www. rewrite search_lits, search_link_http. tauto.
Qed.

(** X10. On a table [preprocess] returns, a record is flagged [is_media]
    exactly when its content contains the text ["<Media omitted>"]
    somewhere, alone or among other text. *)
Theorem media_flag_contains (data : string) (df : Frame.DataFrame) :
  Preprocessor.preprocess data = OK df ->
  Forall (fun r => Frame.is_media r = true <->
                   Spec.contains "<Media omitted>" (Frame.message_content r))
    (Frame.rows df).
Proof.
  intros P. apply preprocess_built_rows in P as [B _].
  eapply Forall_impl; [|exact B]. intros r Br.
  assert (E : Frame.is_media r
              = Re.search Preprocessor.media_pattern (Frame.message_content r))
    by (unfold Spec.built in Br; rewrite Br at 1; reflexivity).
  rewrite E. apply search_lits.
Qed.

Lemma media_flag_contains_witness :
  Forall (fun r => Frame.is_media r = true <->
                   Spec.contains "<Media omitted>" (Frame.message_content r))
    (Frame.rows Spec.table_winter).
Proof.
  exact (media_flag_contains Spec.chat_winter Spec.table_winter eq_refl).
Defined.

Section TableFacts.

Import Calendar Frame Helper Spec.

Lemma set_day_hour_built (r : row) : built r -> set_day_hour r = r.
Proof.
  unfold built. intros B. rewrite B. reflexivity.
Qed.

Lemma select_length {A B : Type} (mask : list bool) (u : list A) (v : list B) :
  List.length u = List.length v ->
  List.length (select mask u) = List.length (select mask v).
Proof.
  revert u v; induction mask as [|b mask IH]; intros [|a u] [|c v] L;
    simpl in *; try reflexivity; try discriminate.
  destruct b; simpl; rewrite (IH u v); auto.
Qed.

Lemma filter_user_aligned (s : string) (df : DataFrame) :
  aligned df -> aligned (filter_user s df).
Proof.
  unfold aligned, filter_user. cbn [added rows]. intros A.
  apply Forall_map. eapply Forall_impl; [|exact A].
  intros [n c] L. cbn [snd] in *. now apply select_length.
Qed.

Lemma assign_aligned (name : string) (c : list string) (n : nat)
  (cols : list (string * list string)) :
  List.length c = n ->
  Forall (fun nc => List.length (snd nc) = n) cols ->
  Forall (fun nc => List.length (snd nc) = n) (assign name c cols).
Proof.
  intros L; induction 1 as [|[m c'] cols H F IH]; simpl.
  - repeat constructor. exact L.
  - destruct (String.eqb m name); constructor; auto.
Qed.

Lemma assign_twice (name : string) (c1 c2 : list string)
  (cols : list (string * list string)) :
  assign name c2 (assign name c1 cols) = assign name c2 cols.
Proof.
  induction cols as [|[m c] cols IH]; simpl.
  - now rewrite String.eqb_refl.
  - destruct (String.eqb m name) eqn:E; simpl; rewrite E; [reflexivity|].
    now rewrite IH.
Qed.

End TableFacts.

(** X11. On a table fresh from [preprocess] the heatmap's writes change
    nothing: the [day_of_week] and [hour] columns it assigns already hold
    the values it computes, and the table after the call is the table
    before it. *)
Theorem heatmap_keeps_fresh_table (data : string) (df : Frame.DataFrame) :
  Preprocessor.preprocess data = OK df ->
  snd (Helper.plot_activity_heatmap_matplotlib df) = df.
Proof.
  intros P. apply preprocess_built_rows in P as [B _].
  unfold Helper.plot_activity_heatmap_matplotlib. cbn [snd Frame.rows Frame.added].
  destruct df as [rs cols]. cbn [Frame.rows Frame.added] in *. f_equal.
  induction B as [|r rs Br B IH]; cbn [map]; [reflexivity|].
  now rewrite IH, set_day_hour_built.
Qed.

Lemma heatmap_keeps_fresh_table_witness :
  snd (Helper.plot_activity_heatmap_matplotlib Spec.table_winter) = Spec.table_winter.
Proof.
  exact (heatmap_keeps_fresh_table Spec.chat_winter Spec.table_winter eq_refl).
Defined.

(** X12. The helpers keep the columns of the table aligned: when every
    added column has one entry per record, so it is after the monthly
    timeline, the activity analysis and the heatmap, and so it is in a
    copy filtered by sender. *)
Theorem helpers_keep_columns_aligned (df : Frame.DataFrame) (selected_user : string) :
  Spec.aligned df ->
  Spec.aligned (snd (Helper.plot_monthly_timeline selected_user df))
  /\ Spec.aligned (snd (Helper.plot_interactive_activity_analysis df selected_user))
  /\ Spec.aligned (snd (Helper.plot_activity_heatmap_matplotlib df))
  /\ Spec.aligned (Frame.filter_user selected_user df).
Proof.
  intros A. repeat split.
  - unfold Helper.plot_monthly_timeline. cbn [snd].
    destruct (Helper.specific selected_user); [exact A|].
    unfold Spec.aligned. cbn [Frame.rows Frame.added].
    apply assign_aligned; [apply length_map | exact A].
  - unfold Helper.plot_interactive_activity_analysis. cbn [snd].
    destruct (Helper.specific selected_user); [exact A|].
    unfold Spec.aligned. cbn [Frame.rows Frame.added].
    apply assign_aligned; [apply length_map | exact A].
  - unfold Helper.plot_activity_heatmap_matplotlib, Spec.aligned in *.
    cbn [snd Frame.rows Frame.added]. now rewrite length_map.
  - now apply filter_user_aligned.
Qed.

Lemma helpers_keep_columns_aligned_witness :
  Spec.aligned Spec.table_winter
  /\ Spec.aligned (snd (Helper.plot_monthly_timeline "Overall" Spec.table_winter)).
Proof.
  assert (A : Spec.aligned Spec.table_winter) by constructor.
  split; [exact A|].
  apply (helpers_keep_columns_aligned Spec.table_winter "Overall" A).
Defined.

(** X13. A repeated call writes over the column of the first call
    instead of adding another: the table after two calls of the monthly
    timeline, or of the activity analysis, is the table after one. *)
Theorem repeated_call_same_table (df : Frame.DataFrame) (selected_user : string) :
  snd (Helper.plot_monthly_timeline selected_user
         (snd (Helper.plot_monthly_timeline selected_user df)))
  = snd (Helper.plot_monthly_timeline selected_user df)
  /\ snd (Helper.plot_interactive_activity_analysis
            (snd (Helper.plot_interactive_activity_analysis df selected_user))
            selected_user)
     = snd (Helper.plot_interactive_activity_analysis df selected_user).
Proof.
  unfold Helper.plot_monthly_timeline, Helper.plot_interactive_activity_analysis.
  cbn [snd]. destruct (Helper.specific selected_user); [split; reflexivity|].
  cbn [Frame.rows Frame.added]. now rewrite !assign_twice.
Qed.

Section PartitionFacts.

Import Frame Helper Spec.

Lemma hits_none (v : string) (us : list string) :
  ~ In v us -> list_sum (map (fun u => if String.eqb v u then 1 else 0) us) = 0.
Proof.
  induction us as [|u us IH]; simpl; [reflexivity|]. intros N.
  destruct (String.eqb_spec v u) as [->|D]; [elim N; now left|].
  apply IH. tauto.
Qed.

Lemma hits_once (v : string) (us : list string) :
  NoDup us -> In v us ->
  list_sum (map (fun u => if String.eqb v u then 1 else 0) us) = 1.
Proof.
  induction 1 as [|u us N D IH]; simpl; [tauto|].
  destruct (String.eqb_spec v u) as [->|E].
  - intros _. now rewrite hits_none.
  - intros [->|I]; [now elim E | auto].
Qed.

(** Counting the records of each name of a duplicate-free list that
    covers all senders counts every record once. *)
Lemma sender_counts_sum (us : list string) (l : list row) :
  NoDup us -> Forall (fun r => In (user r) us) l ->
  list_sum (map (fun u => count (fun r => String.eqb (user r) u) l) us)
  = List.length l.
Proof.
  intros N; induction 1 as [|r l I F IH].
  - unfold count; simpl. induction us; simpl; auto. apply IHus. now inversion N.
  - rewrite (map_ext (fun u => count (fun x => String.eqb (user x) u) (r :: l))
               (fun u => (if String.eqb (user r) u then 1 else 0)
                         + count (fun x => String.eqb (user x) u) l))
      by (intros u; apply (count_cons (fun x => String.eqb (user x) u) r l)).
    rewrite list_sum_map_add, IH, (hits_once _ _ N I). reflexivity.
Qed.

End PartitionFacts.

(** X15. When no sender is called "Overall", the message counts that
    [fetch_stats] returns for the distinct senders of the table - the
    notification sentinel among them - add up to the number of records. *)
Theorem sender_counts_partition (df : Frame.DataFrame) :
  ~ In "Overall" (map Frame.user (Frame.rows df)) ->
  list_sum
    (map (fun u => fst (fst (fst (Helper.fetch_stats u df))))
       (Frame.unique String.compare (map Frame.user (Frame.rows df))))
  = List.length (Frame.rows df).
Proof.
  intros N.
  rewrite (map_ext_in _ (fun u => Frame.count (fun r => String.eqb (Frame.user r) u)
                                    (Frame.rows df))).
  - apply sender_counts_sum; [apply unique_NoDup|].
    apply Forall_forall. intros r I. apply unique_In. now apply in_map.
  - intros u I. apply (proj1 (unique_In _ _)) in I.
    unfold Helper.fetch_stats. cbn [fst]. rewrite work_rows. unfold Spec.selected.
    assert (S : Helper.specific u = true).
    { unfold Helper.specific, Helper.Overall.
      destruct (String.eqb_spec u "Overall") as [E|D]; [|reflexivity].
      elim N. now rewrite <- E. }
    now rewrite S.
Qed.

Lemma sender_counts_partition_witness :
  Frame.unique String.compare (map Frame.user (Frame.rows Spec.table_trio))
  = ["group_notification"; "Alice"; "Bob"]
  /\ map (fun u => fst (fst (fst (Helper.fetch_stats u Spec.table_trio))))
       ["group_notification"; "Alice"; "Bob"]
     = [1; 1; 2]
  /\ list_sum
       (map (fun u => fst (fst (fst (Helper.fetch_stats u Spec.table_trio))))
          (Frame.unique String.compare
             (map Frame.user (Frame.rows Spec.table_trio))))
     = List.length (Frame.rows Spec.table_trio).
Proof.
  split; [reflexivity|]. split; [reflexivity|].
  apply (sender_counts_partition Spec.table_trio).
  simpl. intros [H|[H|[H|[H|[]]]]]; discriminate H.
Defined.

(** The winter chat has a sender called "Overall", a name that selects
    every record: there the counts add up to seven for four records. *)
Example sender_counts_overlap :
  list_sum
    (map (fun u => fst (fst (fst (Helper.fetch_stats u Spec.table_winter))))
       (Frame.unique String.compare (map Frame.user (Frame.rows Spec.table_winter))))
  = 7
  /\ List.length (Frame.rows Spec.table_winter) = 4.
Proof. split; reflexivity. Qed.

Section PipelineFacts.

Import Calendar Frame Preprocessor Spec.

Lemma parse_dates_format (dates : list string) (ds : list datetime) :
  parse_dates dates = OK ds ->
  exists f, (f = Strptime.month_first \/ f = Strptime.day_first)
            /\ parses f dates ds.
Proof.
  unfold parse_dates, parses, Strptime.to_datetime.
  destruct (mapM (Strptime.strptime Strptime.month_first) dates) as [d1|[m|m|]] eqn:M1;
    try discriminate.
  - intros H; inversion H; subst. exists Strptime.month_first.
    split; [now left | now apply mapM_OK].
  - destruct (mapM (Strptime.strptime Strptime.day_first) dates) as [d2|[m2|m2|]] eqn:M2;
      try discriminate.
    intros H; inversion H; subst. exists Strptime.day_first.
    split; [now right | now apply mapM_OK].
Qed.

Lemma rows_follow (f : Strptime.format) (toks : list (string * string))
  (ds : list datetime) (ums : list (string * string)) :
  Forall2 (fun s d => Strptime.strptime f s = OK d) (map snd toks) ds ->
  Forall2 (fun m um => classify m = OK um) (map fst toks) ums ->
  Forall2 (fun tok r =>
             Strptime.strptime f (snd tok) = OK (date r)
             /\ classify (fst tok) = OK (user r, message_content r)
             /\ built r)
    toks (map (fun x => build_row (fst x) (snd x)) (combine ds ums)).
Proof.
  revert ds ums; induction toks as [|tok toks IH]; intros ds ums D C;
    simpl in D, C.
  - inversion D; inversion C; subst. constructor.
  - inversion D as [|? d ? ds' Hd Hds]; inversion C as [|? um ? ums' Hum Hums];
      subst. cbn [combine map]. constructor; [|now apply IH].
    destruct um as [u m]. repeat split; assumption.
Qed.

End PipelineFacts.

(** X16. The table follows the transcript: its records are, in the order
    of the delimiter matches, one per token, each with the timestamp of
    its token read under one and the same format for the whole table -
    month first or day first - with the sender and content the classifier
    gives for the token's body, and with the derived columns computed
    from these; nothing is sorted, dropped or merged. *)
Theorem records_follow_tokens (data : string) (df : Frame.DataFrame) :
  Preprocessor.preprocess data = OK df ->
  exists (toks : list (string * string)) (f : Strptime.format),
    Preprocessor.tokenize data = OK toks
    /\ (f = Strptime.month_first \/ f = Strptime.day_first)
    /\ Forall2 (fun tok r =>
                  Strptime.strptime f (snd tok) = OK (Frame.date r)
                  /\ Preprocessor.classify (fst tok)
                     = OK (Frame.user r, Frame.message_content r)
                  /\ Spec.built r)
         toks (Frame.rows df).
Proof.
  unfold Preprocessor.preprocess.
  destruct (Preprocessor.tokenize data) as [toks|] eqn:T; [|discriminate].
  cbn [bind].
  destruct (Preprocessor.parse_dates (map snd toks)) as [ds|] eqn:D; [|discriminate].
  cbn [bind].
  destruct (mapM Preprocessor.classify (map fst toks)) as [ums|] eqn:M; [|discriminate].
  cbn [bind]. intros H; inversion H; subst; clear H. cbn [Frame.rows].
  destruct (parse_dates_format _ _ D) as (f & Hf & P).
  exists toks, f. split; [reflexivity|]. split; [exact Hf|].
  apply rows_follow; [exact P | now apply mapM_OK].
Qed.

Lemma records_follow_tokens_witness :
  exists (toks : list (string * string)) (f : Strptime.format),
    Preprocessor.tokenize Spec.chat_winter = OK toks
    /\ (f = Strptime.month_first \/ f = Strptime.day_first)
    /\ Forall2 (fun tok r =>
                  Strptime.strptime f (snd tok) = OK (Frame.date r)
                  /\ Preprocessor.classify (fst tok)
                     = OK (Frame.user r, Frame.message_content r)
                  /\ Spec.built r)
         toks (Frame.rows Spec.table_winter).
Proof.
  exact (records_follow_tokens Spec.chat_winter Spec.table_winter eq_refl).
Defined.

Section HourFacts.

Import Calendar Frame Helper Spec.
Local Open Scope Z_scope.

(** A strictly ascending list of integers between [lo] and [hi] has at
    most [hi - lo + 1] entries. *)
Lemma ascending_length (l : list Z) (lo hi : Z) :
  StronglySorted Z.lt l -> Forall (fun h => lo <= h <= hi) l ->
  Z.of_nat (List.length l) <= Z.max 0 (hi - lo + 1).
Proof.
  intros S; revert lo; induction S as [|a l S IH F]; intros lo B; simpl List.length.
  - lia.
  - inversion B as [|? ? Ba Bl]; subst.
    assert (B' : Forall (fun h => a + 1 <= h <= hi) l).
    { apply Forall_forall. intros h I. rewrite Forall_forall in F, Bl.
      specialize (F h I). specialize (Bl h I). lia. }
    specialize (IH (a + 1) B'). lia.
Qed.

Lemma valid_hour (t : datetime) : valid t = true -> 0 <= dt_hour t <= 23.
Proof.
  unfold valid. rewrite !andb_true_iff, !Z.leb_le. lia.
Qed.

End HourFacts.

(** X17. On a table of valid timestamps the hour summary has at most 24
    rows and the heatmap at most 24 columns, all labelled with hours
    between 0 and 23. *)
Theorem hours_within_day (df : Frame.DataFrame) (selected_user : string) :
  Spec.valid_table df ->
  (List.length (Spec.hourly_activity df selected_user) <= 24)%nat
  /\ Forall (fun row => (0 <= fst row <= 23)%Z) (Spec.hourly_activity df selected_user)
  /\ (List.length (Frame.g_columns (Spec.heatmap_data df)) <= 24)%nat
  /\ Forall (fun h => (0 <= h <= 23)%Z) (Frame.g_columns (Spec.heatmap_data df)).
Proof.
  intros V.
  assert (Hs : forall l : list Frame.row,
             Forall (fun r => Calendar.valid (Frame.date r) = true) l ->
             let out := Frame.groupby_size Z.compare (map Spec.hour_of l) in
             (List.length out <= 24)%nat
             /\ Forall (fun row => (0 <= fst row <= 23)%Z) out).
  { intros l Vl out.
    assert (B : Forall (fun row : Z * nat => (0 <= fst row <= 23)%Z) out).
    { apply Forall_forall. intros [h n] I. cbn [fst].
      assert (Ih : In h (map fst out)) by (apply in_map_iff; exists (h, n); auto).
      apply (proj1 (groupby_keys Z.compare (map Spec.hour_of l) h
                      Z_cmp_eq Z_cmp_antisym Z_cmp_trans)) in Ih.
      apply in_map_iff in Ih as (r & <- & Ir).
      rewrite Forall_forall in Vl. apply valid_hour. now apply Vl. }
    split; [|exact B].
    destruct (groupby_Z (map Spec.hour_of l)) as [S _].
    apply sorted_keys_Z in S. apply (sorted_fst Z.lt) in S.
    pose proof (ascending_length (map fst out) 0 23 S) as L.
    rewrite length_map in L.
    assert (Z.of_nat (List.length out) <= Z.max 0 (23 - 0 + 1))%Z
      by (apply L; apply Forall_map; exact B).
    lia. }
  pose proof (selected_valid selected_user df V) as Vs.
  destruct (Hs _ Vs) as [L1 B1]. destruct (Hs _ V) as [L2 B2].
  split; [|split; [|split]].
  - unfold Spec.hourly_activity, Helper.plot_interactive_activity_analysis.
    cbn [fst snd Frame.rows]. now rewrite work_rows.
  - unfold Spec.hourly_activity, Helper.plot_interactive_activity_analysis.
    cbn [fst snd Frame.rows]. now rewrite work_rows.
  - rewrite heat_columns, length_map. exact L2.
  - rewrite heat_columns. apply Forall_map. exact B2.
Qed.

Lemma hours_within_day_witness :
  Spec.valid_table Spec.table_winter
  /\ (List.length (Spec.hourly_activity Spec.table_winter "Overall") <= 24)%nat.
Proof.
  assert (V : Spec.valid_table Spec.table_winter) by (repeat constructor).
  split; [exact V|].
  apply (hours_within_day Spec.table_winter "Overall" V).
Defined.

Section BusyFacts.

Import Frame Helper Spec.

Lemma tally_user_keys (u x : string) (counts : list (string * nat)) :
  In x (map fst (tally_user u counts)) <-> x = u \/ In x (map fst counts).
Proof.
  induction counts as [|[v n] counts IH]; simpl; [intuition|].
  destruct (String.eqb_spec v u) as [->|N]; simpl; [intuition|].
  rewrite IH. intuition.
Qed.

Lemma tally_user_NoDup (u : string) (counts : list (string * nat)) :
  NoDup (map fst counts) -> NoDup (map fst (tally_user u counts)).
Proof.
  induction counts as [|[v n] counts IH]; simpl; intros D.
  - repeat constructor. tauto.
  - inversion D as [|? ? Nv D']; subst.
    destruct (String.eqb_spec v u) as [->|N]; simpl; constructor; auto.
    rewrite tally_user_keys. intros [E|I]; [now elim N | contradiction].
Qed.

Lemma tallied_tally_user (u v : string) (counts : list (string * nat)) :
  tallied_user u (tally_user v counts)
  = tallied_user u counts + (if String.eqb v u then 1 else 0).
Proof.
  induction counts as [|[x n] counts IH]; simpl.
  - destruct (String.eqb v u); reflexivity.
  - destruct (String.eqb_spec x v) as [->|N]; simpl.
    + destruct (String.eqb v u); lia.
    + destruct (String.eqb_spec x u) as [->|M]; [|exact IH].
      destruct (String.eqb_spec v u) as [->|_]; [now elim N | lia].
Qed.

Lemma tally_user_positive (u : string) (counts : list (string * nat)) :
  Forall (fun x => 1 <= snd x) counts ->
  Forall (fun x => 1 <= snd x) (tally_user u counts).
Proof.
  induction 1 as [|[v n] counts H F IH]; simpl.
  - repeat constructor.
  - destruct (String.eqb v u); constructor; simpl in *; auto; lia.
Qed.

Lemma tallied_in (u : string) (n : nat) (counts : list (string * nat)) :
  NoDup (map fst counts) -> In (u, n) counts -> tallied_user u counts = n.
Proof.
  induction counts as [|[v m] counts IH]; simpl; intros D I; [destruct I|].
  inversion D as [|? ? Nv D']; subst.
  destruct I as [E|I].
  - inversion E; subst. now rewrite String.eqb_refl.
  - destruct (String.eqb_spec v u) as [->|N]; [|auto].
    elim Nv. apply in_map_iff. exists (u, n). auto.
Qed.

(** The tally of a column: one row per distinct value, with the number
    of its occurrences. *)
Lemma tally_column (column : list string) :
  let counts := fold_left (fun counts u => tally_user u counts) column [] in
  NoDup (map fst counts)
  /\ Forall (fun x => 1 <= snd x) counts
  /\ (forall u, tallied_user u counts = count (String.eqb u) column)
  /\ (forall u, In u (map fst counts) <-> In u column).
Proof.
  cbv zeta.
  assert (G : forall acc,
             NoDup (map fst acc) -> Forall (fun x => 1 <= snd x) acc ->
             let out := fold_left (fun counts u => tally_user u counts) column acc in
             NoDup (map fst out)
             /\ Forall (fun x => 1 <= snd x) out
             /\ (forall u, tallied_user u out
                           = tallied_user u acc + count (String.eqb u) column)
             /\ (forall u, In u (map fst out) <-> In u (map fst acc) \/ In u column)).
  { induction column as [|v column IH]; intros acc D P; simpl.
    - split; [exact D|]. split; [exact P|]. split; [|intros u; tauto].
      intros u. unfold count; simpl; lia.
    - destruct (IH (tally_user v acc) (tally_user_NoDup _ _ D)
                  (tally_user_positive _ _ P)) as (D' & P' & T & K).
      split; [exact D'|]. split; [exact P'|]. split.
      + intros u. rewrite T, tallied_tally_user, count_cons, (String.eqb_sym u v). lia.
      + intros u. rewrite K, tally_user_keys. intuition. }
  destruct (G [] (NoDup_nil _) (Forall_nil _)) as (D & P & T & K).
  split; [exact D|]. split; [exact P|]. split; [exact T|].
  intros u. rewrite K. simpl. tauto.
Qed.

Lemma sorted_split {A : Type} (R : A -> A -> Prop) (k : nat) (l : list A) :
  StronglySorted R l ->
  forall a b, In a (firstn k l) -> In b (skipn k l) -> R a b.
Proof.
  intros S; revert k; induction S as [|x l S IH F]; intros k a b Ia Ib.
  - destruct k; destruct Ia.
  - destruct k as [|k]; [destruct Ia|]. simpl in Ia, Ib.
    destruct Ia as [<-|Ia].
    + rewrite Forall_forall in F. apply F.
      rewrite <- (firstn_skipn k l). apply in_or_app. now right.
    + eapply IH; eauto.
Qed.

Lemma firstn_In {A : Type} (k : nat) (l : list A) (x : A) :
  In x (firstn k l) -> In x l.
Proof.
  intros I. rewrite <- (firstn_skipn k l). apply in_or_app. now left.
Qed.

Lemma firstn_NoDup {A : Type} (k : nat) (l : list A) :
  NoDup l -> NoDup (firstn k l).
Proof.
  intros D. rewrite <- (firstn_skipn k l) in D. now apply NoDup_app_remove_r in D.
Qed.

Lemma insert_desc_perm (x : string * nat) (l : list (string * nat)) :
  Permutation (insert_desc x l) (x :: l).
Proof.
  induction l as [|y l IH]; simpl; [reflexivity|].
  destruct (snd y <=? snd x); [reflexivity|].
  rewrite IH. apply perm_swap.
Qed.

Lemma insert_desc_sorted (x : string * nat) (l : list (string * nat)) :
  StronglySorted (fun a b => snd b <= snd a) l ->
  StronglySorted (fun a b => snd b <= snd a) (insert_desc x l).
Proof.
  induction 1 as [|y l S IH F]; simpl; [repeat constructor|].
  destruct (Nat.leb_spec (snd y) (snd x)) as [L|L].
  - constructor; [now constructor|]. constructor; [lia|].
    eapply Forall_impl; [|exact F]. intros z Hz. simpl in *. lia.
  - constructor; [exact IH|].
    eapply Permutation_Forall; [symmetry; apply insert_desc_perm|].
    constructor; [lia | exact F].
Qed.

Lemma sort_desc_ranks : ranks_by_count sort_desc.
Proof.
  intros l. induction l as [|x l [P S]]; simpl.
  - split; [reflexivity | constructor].
  - split.
    + rewrite insert_desc_perm. now constructor.
    + now apply insert_desc_sorted.
Qed.

End BusyFacts.

(** X18. Whatever order [value_counts] leaves among equal counts, the
    table of the busiest-users chart has at most five rows, one per
    sender, each with the number of that sender's records; a sender left
    out has no more records than any sender listed, and then the table
    is full.  The notification sentinel is ranked like any sender. *)
Theorem busiest_users (sort_counts : list (string * nat) -> list (string * nat))
  (df : Frame.DataFrame) :
  Spec.ranks_by_count sort_counts ->
  let top := Helper.plot_most_busy_users_interactive sort_counts df in
  List.length top <= 5
  /\ NoDup (map fst top)
  /\ (forall u n, In (u, n) top -> n = Spec.messages_of u df /\ 1 <= n)
  /\ (forall u,
         In u (map Frame.user (Frame.rows df)) -> ~ In u (map fst top) ->
         List.length top = 5
         /\ forall v n, In (v, n) top -> Spec.messages_of u df <= n).
Proof.
  intros R top.
  pose (counts := fold_left (fun counts u => Helper.tally_user u counts)
                    (map Frame.user (Frame.rows df)) []).
  destruct (tally_column (map Frame.user (Frame.rows df))) as (D & P & T & K).
  fold counts in D, P, T, K.
  destruct (R counts) as [Pm S].
  assert (Ds : NoDup (map fst (sort_counts counts)))
    by (eapply Permutation_NoDup; [symmetry; apply Permutation_map; exact Pm | exact D]).
  assert (Cn : forall u n, In (u, n) (sort_counts counts) ->
                           n = Spec.messages_of u df /\ 1 <= n).
  { intros u n I. apply (Permutation_in _ Pm) in I. split.
    - rewrite <- (tallied_in u n counts D I), T.
      unfold Spec.messages_of. rewrite count_map.
      unfold Frame.count. f_equal. apply filter_ext. intros r. apply String.eqb_sym.
    - rewrite Forall_forall in P. apply (P _ I). }
  subst top. unfold Helper.plot_most_busy_users_interactive, Helper.value_counts.
  fold counts. split; [apply firstn_le_length|]. split; [|split].
  - rewrite <- firstn_map. now apply firstn_NoDup.
  - intros u n I. apply Cn. eapply firstn_In; eauto.
  - intros u Iu Nu.
    assert (Is : In u (map fst (sort_counts counts))).
    { eapply Permutation_in; [symmetry; apply Permutation_map; exact Pm|]. now apply K. }
    apply in_map_iff in Is as ([u' m] & E & Is). cbn [fst] in E. subst u'.
    rewrite <- (firstn_skipn 5 (sort_counts counts)) in Is.
    apply in_app_or in Is as [Is|Is].
    { elim Nu. apply in_map_iff. exists (u, m). auto. }
    split.
    + apply firstn_length_le.
      destruct (Nat.le_gt_cases 5 (List.length (sort_counts counts))) as [L|L]; [exact L|].
      rewrite skipn_all2 in Is by lia. destruct Is.
    + intros v n Iv.
      pose proof (sorted_split _ 5 _ S (v, n) (u, m) Iv Is) as Le. cbn [snd] in Le.
      assert (Em : m = Spec.messages_of u df).
      { apply Cn. rewrite <- (firstn_skipn 5 (sort_counts counts)).
        apply in_or_app. now right. }
      lia.
Qed.

Lemma busiest_users_witness :
  Spec.ranks_by_count Spec.sort_desc
  /\ Helper.plot_most_busy_users_interactive Spec.sort_desc Spec.table_winter
     = [("Bob", 2); ("Alice", 1); ("Overall", 1)]
  /\ NoDup (map fst (Helper.plot_most_busy_users_interactive Spec.sort_desc
                       Spec.table_winter)).
Proof.
  split; [exact sort_desc_ranks|]. split; [reflexivity|].
  apply (busiest_users Spec.sort_desc Spec.table_winter sort_desc_ranks).
Defined.
